(** * GameZoneCentral: score ledger, guessing sessions, prize wheel,
      leaderboards and the winner broadcast

    A shallow embedding of [server/storage.ts] (both [MemStorage] and
    [DatabaseStorage]), of the tables of [shared/schema.ts] and of the score
    routes of [server/routes.ts], followed by the properties of the
    specification that concern them.

    Conventions.
    - Every definition carries the name of the TypeScript member it embeds.
    - [Math.random()], [Date.now()] and [new Date().toISOString()] are inputs:
      the draws and a [Clock] are passed explicitly.
    - A method of [MemStorage] is a function from the store to a result and
      the next store.  A method of [DatabaseStorage] may also reject (a thrown
      [Error], a failed query): it returns an [Outcome] and the next store,
      which keeps whatever was mutated before the throw. *)

From Stdlib Require Import ZArith QArith List String Ascii Bool Lia Lqa.
From Stdlib Require Import Sorted Permutation.
From Stdlib Require Import DecimalString DecimalN DecimalPos.
From Stdlib Require Import Floats.
Import ListNotations.

Local Open Scope string_scope.
Local Open Scope list_scope.
Local Open Scope Z_scope.

(* ================================================================== *)
(** ** JavaScript values used by the server *)
(* ================================================================== *)

(** A JavaScript [Map<number, V>]: keys in insertion order.  [Map.set] on a
    present key replaces the value and keeps the key's position. *)
Module JsMap.

Definition t (V : Type) : Type := list (Z * V).

Fixpoint get {V} (k : Z) (m : t V) : option V :=
  match m with
  | [] => None
  | (k', v) :: m' => if k' =? k then Some v else get k m'
  end.

Fixpoint set {V} (k : Z) (v : V) (m : t V) : t V :=
  match m with
  | [] => [(k, v)]
  | (k', v') :: m' =>
      if k' =? k then (k', v) :: m' else (k', v') :: set k v m'
  end.

Definition has {V} (k : Z) (m : t V) : bool :=
  match get k m with Some _ => true | None => false end.

Definition keys {V} (m : t V) : list Z := map fst m.
Definition values {V} (m : t V) : list V := map snd m.
Definition size {V} (m : t V) : Z := Z.of_nat (List.length m).

(** [m.delete(k)]: whether the key was there, and the map without it. *)
Definition delete {V} (k : Z) (m : t V) : bool * t V :=
  (has k m, filter (fun p => negb (fst p =? k)) m).

End JsMap.

(** The outcome of an [async] method that may reject. *)
Inductive Outcome (A : Type) : Type :=
| Returned (a : A)
| Thrown (message : string).
Arguments Returned {A} a.
Arguments Thrown {A} message.

(** The two readings of the wall clock a store takes: [Date.now()] and
    [new Date().toISOString()]; one call of a method reads the clock once. *)
Record Clock : Type := { nowMs : Z; nowIso : string }.

(** Score values.  A score is a JavaScript [number]; the client sends attempt
    counts, prize values, words per minute and times written with one decimal
    ([timer.toFixed(1)]).  [Num] holds the finite numbers with at most one
    decimal digit, each given by its count of tenths.  It leaves out what a
    [number] can be besides: [NaN], the infinities, numbers with more decimals
    and those printed in exponent notation, all of which the score routes let
    through ([parseFloat(time)] is not checked, [z.number().min(0)] accepts
    them).  What is proved of the values here is proved of these decimals. *)
Module Num.

Record t : Type := Tenths { tenths : Z }.

Definition ofInt (n : Z) : t := Tenths (10 * n).

Definition eqb (a b : t) : bool := tenths a =? tenths b.
Definition ltb (a b : t) : bool := tenths a <? tenths b.
Definition gtb (a b : t) : bool := tenths b <? tenths a.

(** [Math.round]: the nearest integer, halves towards plus infinity. *)
Definition round (a : t) : Z := (tenths a + 5) / 10.

Definition digits (n : Z) : string :=
  NilZero.string_of_uint (N.to_uint (Z.to_N n)).

Definition sign (a : t) : string := if tenths a <? 0 then "-" else "".

(** [`${value}`]: the integer part, then the decimal digit when it is
    not zero. *)
Definition toString (a : t) : string :=
  let m := Z.abs (tenths a) in
  let fraction := if Z.eqb (Z.modulo m 10) 0 then ""
                  else ("." ++ digits (Z.modulo m 10))%string in
  (sign a ++ digits (Z.div m 10) ++ fraction)%string.

(** [value.toFixed(1)]. *)
Definition toFixed1 (a : t) : string :=
  let m := Z.abs (tenths a) in
  (sign a ++ digits (Z.div m 10) ++ "." ++ digits (Z.modulo m 10))%string.

(** The decimals of at most fifteen digits.  On them the binary64 number next
    to the decimal compares, rounds and prints ([`${value}`], [toFixed(1)]) as
    the decimal does, which is what the functions above compute. *)
Definition plain (a : t) : Prop := Z.abs (tenths a) < 1000000000000000.

End Num.

(* ================================================================== *)
(** ** The tables of [shared/schema.ts] *)
(* ================================================================== *)

(** [users]: the columns the game code reads or writes. *)
Record User : Type := {
  user_id : Z;
  username : string;
  gamesPlayed : Z
}.

(** [games]. [game_type] is a [text] column: any string can be stored. *)
Record Game : Type := {
  game_id : Z;
  game_type : string;
  game_name : string;
  game_createdAt : string
}.

(** [scores]. *)
Record Score : Type := {
  score_id : Z;
  score_userId : Z;
  score_gameId : Z;
  score_value : Num.t;
  score_createdAt : string
}.

Definition withGamesPlayed (u : User) (n : Z) : User :=
  {| user_id := user_id u; username := username u; gamesPlayed := n |}.

(* ================================================================== *)
(** ** The guessing session kept in [userGames] *)
(* ================================================================== *)

Record GuessingState : Type := {
  targetNumber : Z;
  attempts : Z;
  maxAttempts : Z;
  previousGuesses : list Z;
  gameOver : bool;
  gs_userId : Z
}.

(** The object stored per user in [userGames]; [guessing] is its only key. *)
Record UserGames : Type := { guessing : option GuessingState }.

(** What [makeGuess] resolves to: [{ error }] or the full reply. *)
Record GuessReply : Type := {
  message : string;
  isCorrect : bool;
  attemptsLeft : Z;
  reply_previousGuesses : list Z;
  correctNumber : option Z
}.

Inductive GuessResult : Type :=
| GuessError (error : string)
| GuessOk (reply : GuessReply).

(** [previousGuesses.includes(guess)]. *)
Definition includes (x : Z) (l : list Z) : bool := existsb (Z.eqb x) l.

(** [targetNumber = Math.floor(Math.random() * 100) + 1], from the integer
    [Math.floor(Math.random() * 100)] (0..99 for a draw in [0,1)). *)
Definition newGuessingState (floorDraw userId : Z) : GuessingState :=
  {| targetNumber := floorDraw + 1;
     attempts := 0;
     maxAttempts := 10;
     previousGuesses := [];
     gameOver := false;
     gs_userId := userId |}.

(** [game.attempts++; game.previousGuesses.push(guess)]. *)
Definition recordGuess (game : GuessingState) (guess : Z) : GuessingState :=
  {| targetNumber := targetNumber game;
     attempts := attempts game + 1;
     maxAttempts := maxAttempts game;
     previousGuesses := previousGuesses game ++ [guess];
     gameOver := gameOver game;
     gs_userId := gs_userId game |}.

(** [game.gameOver = true]. *)
Definition setGameOver (game : GuessingState) : GuessingState :=
  {| targetNumber := targetNumber game;
     attempts := attempts game;
     maxAttempts := maxAttempts game;
     previousGuesses := previousGuesses game;
     gameOver := true;
     gs_userId := gs_userId game |}.

(** The tail of [makeGuess], shared by both stores: from the session after the
    guess was judged, decide exhaustion and build the reply. *)
Definition finishGuess (game : GuessingState) (msg : string) (correct : bool)
  : GuessingState * GuessReply :=
  let left := maxAttempts game - attempts game in
  let game' := if (left <=? 0) && negb correct then setGameOver game else game in
  (game',
   {| message := msg;
      isCorrect := correct;
      attemptsLeft := left;
      reply_previousGuesses := previousGuesses game';
      correctNumber := if gameOver game' then Some (targetNumber game') else None |}).

(** The session a [makeGuess] call leaves behind, in either store and
    whatever the call resolves to: untouched when the guess is refused,
    otherwise with the guess counted and the game closed on a hit or on the
    last attempt. *)
Definition sessionAfterGuess (game : GuessingState) (guess : Z) : GuessingState :=
  if gameOver game then game
  else if includes guess (previousGuesses game) then game
  else if guess =? targetNumber game then setGameOver (recordGuess game guess)
  else fst (finishGuess (recordGuess game guess) "" false).

(** What holds of every session reached from [startGuessingGame]: each
    attempt is one distinct recorded guess, there are at most ten, a game in
    progress has attempts left and has not met its target, and a closed game
    was won or is exhausted. *)
Definition sessionOk (game : GuessingState) : Prop :=
  attempts game = Z.of_nat (List.length (previousGuesses game))
  /\ NoDup (previousGuesses game)
  /\ maxAttempts game = 10
  /\ attempts game <= 10
  /\ (gameOver game = false ->
      attempts game < 10 /\ ~ In (targetNumber game) (previousGuesses game))
  /\ (gameOver game = true ->
      In (targetNumber game) (previousGuesses game) \/ attempts game = 10).

(** The five game types of [GameType]. *)
Definition knownGameTypes : list string :=
  ["guessing"; "spinwheel"; "redlight"; "typeracer"; "cse17"].

(** [getGameName]: the static name table. *)
Definition getGameName (type : string) : string :=
  if String.eqb type "guessing" then "Guessing Game"
  else if String.eqb type "spinwheel" then "Spin Wheel"
  else if String.eqb type "redlight" then "Red Light, Green Light"
  else if String.eqb type "typeracer" then "Type Racer"
  else if String.eqb type "cse17" then "CSE-17 Bread Game"
  else "Unknown Game".

(* ================================================================== *)
(** ** The prize wheel (the body shared by both [spinWheel] methods) *)
(* ================================================================== *)

(** Probabilities, the draws of [Math.random()] and the rotation are IEEE 754
    binary64 numbers, as in JavaScript. *)
#[local] Set Warnings "-inexact-float".

Record Prize : Type := {
  prize_value : Z;
  prize_label : string;
  probability : float
}.

Definition prizes : list Prize :=
  [ {| prize_value := 100;  prize_label := "100 Points";  probability := 0.2 |};
    {| prize_value := 250;  prize_label := "250 Points";  probability := 0.15 |};
    {| prize_value := 500;  prize_label := "500 Points";  probability := 0.1 |};
    {| prize_value := 1000; prize_label := "1000 Points"; probability := 0.05 |};
    {| prize_value := 0;    prize_label := "Try Again";   probability := 0.25 |};
    {| prize_value := 150;  prize_label := "150 Points";  probability := 0.15 |};
    {| prize_value := 750;  prize_label := "750 Points";  probability := 0.05 |};
    {| prize_value := 300;  prize_label := "300 Points";  probability := 0.05 |} ].

(** The value of an out-of-range index; the list above is not empty, so it is
    never read. *)
Definition noPrize : Prize :=
  {| prize_value := 0; prize_label := ""; probability := 0 |}.

(** The [for (const prize of prizes)] loop: [selected] is the current
    [selectedPrize], kept when no range matches. *)
Fixpoint walkPrizes (random cumulativeProbability : float)
    (selected : Prize) (rest : list Prize) : Prize :=
  match rest with
  | [] => selected
  | prize :: rest' =>
      let cumulativeProbability :=
        (cumulativeProbability + probability prize)%float in
      if (random <=? cumulativeProbability)%float then prize
      else walkPrizes random cumulativeProbability selected rest'
  end.

(** The value of [cumulativeProbability] after [k] turns of the loop. *)
Definition cumulativeAfter (k : nat) : float :=
  fold_left (fun c prize => (c + probability prize)%float) (firstn k prizes) 0%float.

(** [let cumulativeProbability = 0; let selectedPrize = prizes[0]; for ...]. *)
Definition selectPrize (random : float) : Prize :=
  walkPrizes random 0%float (nth 0 prizes noPrize) prizes.

(** Two prize objects are the same object exactly when their fields agree:
    the eight labels are pairwise different. *)
Definition samePrize (a b : Prize) : bool :=
  (prize_value a =? prize_value b)
  && String.eqb (prize_label a) (prize_label b)
  && PrimFloat.eqb (probability a) (probability b).

(** [prizes.indexOf(selectedPrize)]. *)
Fixpoint indexOfFrom (x : Prize) (l : list Prize) (i : Z) : Z :=
  match l with
  | [] => -1
  | y :: l' => if samePrize y x then i else indexOfFrom x l' (i + 1)
  end.
Definition indexOf (x : Prize) (l : list Prize) : Z := indexOfFrom x l 0.

Definition floatOfZ (n : Z) : float := PrimFloat.of_uint63 (Uint63.of_Z n).

(** [baseDegrees + offset + randomOffset]; [random2] is the second draw. *)
Definition spinDegrees (selectedPrize : Prize) (random2 : float) : float :=
  let baseDegrees := 1800%float in
  let prizeIndex := indexOf selectedPrize prizes in
  let degreesPerPrize := (360 / floatOfZ (Z.of_nat (List.length prizes)))%float in
  let offset := (degreesPerPrize * floatOfZ prizeIndex)%float in
  let randomOffset := (random2 * (degreesPerPrize * 0.8))%float in
  (baseDegrees + offset + randomOffset)%float.

(** The object [spinWheel] resolves to. *)
Record SpinResult : Type := {
  spin_prize : string;
  spin_value : Z;
  spin_degrees : float
}.

Definition spinResult (selectedPrize : Prize) (random2 : float) : SpinResult :=
  {| spin_prize := prize_label selectedPrize;
     spin_value := prize_value selectedPrize;
     spin_degrees := spinDegrees selectedPrize random2 |}.

(* ================================================================== *)
(** ** Leaderboard entries, score formatting and [Array.prototype.sort] *)
(* ================================================================== *)

Record LeaderboardEntry : Type := {
  rank : Z;
  player : string;
  game : string;
  gameType : string;
  score : string;
  date : string
}.

Definition withRank (e : LeaderboardEntry) (r : Z) : LeaderboardEntry :=
  {| rank := r; player := player e; game := game e;
     gameType := gameType e; score := score e; date := date e |}.

(** [formatScore]. *)
Definition formatScore (gameType : string) (value : Num.t) : string :=
  if String.eqb gameType "guessing" then (Num.toString value ++ " attempts")%string
  else if String.eqb gameType "redlight" then (Num.toFixed1 value ++ "s")%string
  else if String.eqb gameType "typeracer" then (Num.toString value ++ " WPM")%string
  else (Num.toString value ++ " pts")%string.

(** [new Date(createdAt).toISOString().split('T')[0]] of an ISO timestamp:
    what stands before the first [T]. *)
Fixpoint isoDate (createdAt : string) : string :=
  match createdAt with
  | EmptyString => EmptyString
  | String c rest => if (c =? "T")%char then EmptyString else String c (isoDate rest)
  end.

(** The value of a decimal digit character ([\d] in the regular expression
    below); [None] for any other character. *)
Definition digitOf (c : ascii) : option Z :=
  let code := Z.of_nat (nat_of_ascii c) in
  if (48 <=? code) && (code <=? 57) then Some (code - 48) else None.

(** [s.replace(/[^\d.]/g, '')]: keep the digits and the dots. *)
Fixpoint stripNonNumeric (s : string) : string :=
  match s with
  | EmptyString => EmptyString
  | String c rest =>
      match digitOf c with
      | Some _ => String c (stripNonNumeric rest)
      | None => if (c =? ".")%char then String c (stripNonNumeric rest)
                else stripNonNumeric rest
      end
  end.

(** The longest run of digits at the head of [s]: its value after [acc], how
    many digits were read after [n], and the rest of the string. *)
Fixpoint readDigits (s : string) (acc : Z) (n : nat) : Z * nat * string :=
  match s with
  | EmptyString => (acc, n, s)
  | String c rest =>
      match digitOf c with
      | Some d => readDigits rest (10 * acc + d) (S n)
      | None => (acc, n, s)
      end
  end.

(** [parseFloat] on a string of digits and dots (all the regular expression
    above leaves): digits, then optionally a dot and digits; the literal ends
    at a second dot; [None] is NaN (no digit at all). *)
Definition parseFloat (s : string) : option Q :=
  let '(whole, nWhole, rest) := readDigits s 0 0 in
  match rest with
  | String "."%char rest' =>
      let '(frac, nFrac, _) := readDigits rest' 0 0 in
      if ((nWhole =? 0) && (nFrac =? 0))%nat then None
      else Some (inject_Z whole + inject_Z frac / inject_Z (10 ^ Z.of_nat nFrac))%Q
  | _ => if (nWhole =? 0)%nat then None else Some (inject_Z whole)
  end.

(** [aValue - bValue] on numbers that may be NaN. *)
Definition minus (a b : option Q) : option Q :=
  match a, b with
  | Some x, Some y => Some (x - y)%Q
  | _, _ => None
  end.

(** The comparator of [getLeaderboard]. *)
Definition compareEntries (a b : LeaderboardEntry) : option Q :=
  let aValue := parseFloat (stripNonNumeric (score a)) in
  let bValue := parseFloat (stripNonNumeric (score b)) in
  if String.eqb (gameType a) "guessing" then minus aValue bValue
  else if String.eqb (gameType a) "redlight" then minus aValue bValue
  else minus bValue aValue.

(** [Array.prototype.sort(comparefn)].  ECMAScript's SortCompare reads a NaN
    result as +0, and the sort is stable; with a comparator that is a total
    preorder every stable sort returns the same array, here the one insertion
    sort builds.  The comparator of the board of all games is no such order
    (its direction is that of the first entry's game type): there the
    language leaves the order to the implementation, another sort may return
    another one, and what is proved of that board is only what holds of every
    rearrangement: its entries, its length and its ranks. *)
Section ArraySort.
Context {A : Type} (comparefn : A -> A -> option Q).

Definition sortCompare (x y : A) : comparison :=
  match comparefn x y with
  | None => Eq
  | Some v => (v ?= 0)%Q
  end.

Fixpoint insertSorted (x : A) (l : list A) : list A :=
  match l with
  | [] => [x]
  | y :: l' =>
      match sortCompare x y with
      | Gt => y :: insertSorted x l'
      | _ => x :: l
      end
  end.

Definition sort (l : list A) : list A := fold_right insertSorted [] l.
End ArraySort.

(** [let currentRank = 1; for (const entry of allScores) entry.rank = currentRank++]. *)
Fixpoint assignRanks {A} (setRank : A -> Z -> A) (currentRank : Z) (l : list A)
  : list A :=
  match l with
  | [] => []
  | entry :: l' => setRank entry currentRank :: assignRanks setRank (currentRank + 1) l'
  end.

(** The entry pushed for one score. *)
Definition leaderboardEntry (name : string) (g : Game) (s : Score) : LeaderboardEntry :=
  {| rank := 0;
     player := name;
     game := game_name g;
     gameType := game_type g;
     score := formatScore (game_type g) (score_value s);
     date := isoDate (score_createdAt s) |}.

(** The magnitude of a score value. *)
Definition magnitude (v : Num.t) : Q :=
  (inject_Z (Z.abs (Num.tenths v)) / inject_Z 10)%Q.

(** The number the comparator reads off an entry. *)
Definition shownValue (e : LeaderboardEntry) : option Q :=
  parseFloat (stripNonNumeric (score e)).

(** The better direction of a game type: lower for attempts and times. *)
Definition lowerIsBetter (gameType : string) : bool :=
  String.eqb gameType "guessing" || String.eqb gameType "redlight".

(** [a] may stand before [b] on the board of [gameType]: both show a number,
    and the numbers are in the better direction of the game. *)
Definition inBoardOrder (gameType : string) (a b : LeaderboardEntry) : Prop :=
  exists x y, shownValue a = Some x /\ shownValue b = Some y
              /\ (if lowerIsBetter gameType then x <= y else y <= x)%Q.

(** [e] is an entry of the game [type] whose score string was made by
    [formatScore]. *)
Definition formatted (type : string) (e : LeaderboardEntry) : Prop :=
  gameType e = type /\ exists v, score e = formatScore type v.

(** The key by which the comparator orders the entries of one game type. *)
Definition boardKey (gameType : string) (e : LeaderboardEntry) : Q :=
  match shownValue e with
  | Some q => if lowerIsBetter gameType then q else (- q)%Q
  | None => 0%Q
  end.

(** The shape of a leaderboard of one game type: ranks 1..N, entries of that
    type, in the order of the numbers shown. *)
Definition ranked (gt : string) (out : list LeaderboardEntry) : Prop :=
  map rank out = map (fun i => 1 + Z.of_nat i) (seq 0 (List.length out))
  /\ Forall (formatted gt) out
  /\ StronglySorted (inBoardOrder gt) out.

(** The elements pushed for the bindings of a map, each with the key of the
    binding it was pushed for. *)
Definition tagged {V E : Type} (f : Z * V -> list E) (m : list (Z * V))
  : list (Z * E) :=
  flat_map (fun p => map (pair (fst p)) (f p)) m.

(** The entries of the typing leaderboard. *)
Record TypeRacerEntry : Type := {
  tr_rank : Z;
  tr_player : string;
  wpm : Z;
  accuracy : Z
}.

Definition withTrRank (e : TypeRacerEntry) (r : Z) : TypeRacerEntry :=
  {| tr_rank := r; tr_player := tr_player e; wpm := wpm e; accuracy := accuracy e |}.

(** The sample rows pushed when the typing leaderboard is empty. *)
Definition sampleTypeRacer : list TypeRacerEntry :=
  [ {| tr_rank := 1; tr_player := "SpeedTyper";    wpm := 124; accuracy := 98 |};
    {| tr_rank := 2; tr_player := "TypeMaster";    wpm := 116; accuracy := 96 |};
    {| tr_rank := 3; tr_player := "KeyboardNinja"; wpm := 105; accuracy := 94 |} ].

(** [(a, b) => b.wpm - a.wpm]. *)
Definition byWpmDesc (a b : TypeRacerEntry) : option Q :=
  Some (inject_Z (wpm b) - inject_Z (wpm a))%Q.

(** [scores.reduce((best, current) => current.value > best.value ? current : best, scores[0])]. *)
Definition bestOf (first : Score) (l : list Score) : Score :=
  fold_left (fun best current =>
               if Num.gtb (score_value current) (score_value best)
               then current else best) l first.

(* ================================================================== *)
(** ** The objects the score methods resolve to *)
(* ================================================================== *)

(** The values found in the result objects of the submit methods. *)
Inductive JsValue : Type :=
| JsBool (b : bool)
| JsNumber (n : Num.t)
| JsString (s : string)
| JsBoard (rows : list TypeRacerEntry).

(** An object literal: its own properties in creation order. *)
Definition JsObject : Type := list (string * JsValue).

(** [object.name]: [None] is [undefined]. *)
Fixpoint getProp (o : JsObject) (name : string) : option JsValue :=
  match o with
  | [] => None
  | (k, v) :: o' => if String.eqb k name then Some v else getProp o' name
  end.

(** ToBoolean, as [if (x)] applies it. *)
Definition truthy (v : option JsValue) : bool :=
  match v with
  | None => false
  | Some (JsBool b) => b
  | Some (JsNumber n) => negb (Num.tenths n =? 0)
  | Some (JsString s) => negb (String.eqb s "")
  | Some (JsBoard _) => true
  end.

(** ToString, as a template literal applies it. *)
Definition templateString (v : option JsValue) : string :=
  match v with
  | None => "undefined"
  | Some (JsBool b) => if b then "true" else "false"
  | Some (JsNumber n) => Num.toString n
  | Some (JsString s) => s
  | Some (JsBoard rows) => String.concat "," (map (fun _ => "[object Object]") rows)
  end.

(** What the ledger holds of a score, apart from its id and timestamp. *)
Definition ledgerLine (s : Score) : Z * Z * Num.t :=
  (score_userId s, score_gameId s, score_value s).

(** [Math.round] on a binary64 number in [0, 2^52), where the statistics use
    it: adding and then subtracting 2^52 rounds to the nearest integer with ties
    to even, and [Math.round] takes a tie upwards. *)
Definition mathRound (x : float) : float :=
  let nearest := (x + 4503599627370496 - 4503599627370496)%float in
  if (x - nearest =? 0.5)%float then (nearest + 1)%float else nearest.

(** [Math.round((part / whole) * 100)]. *)
Definition percentage (part whole : Z) : float :=
  mathRound (floatOfZ part / floatOfZ whole * 100)%float.

(** [if (score.value < best) best = score.value]: one turn of the loop that
    finds the least value; [None] is [Infinity]. *)
Definition keepLeast (best : option Num.t) (s : Score) : option Num.t :=
  match best with
  | None => Some (score_value s)
  | Some b => if Num.ltb (score_value s) b then Some (score_value s) else Some b
  end.

(** [let best = Infinity; for (const score of l) ...]. *)
Definition leastValue (l : list Score) : option Num.t :=
  fold_left keepLeast l None.

(** The object [getGuessingGameStats] resolves to. *)
Record GuessingStats : Type := {
  stats_played : Z;
  winRate : float;
  bestScore : Num.t
}.

(** The object [getRedLightGameStats] resolves to; [bestTime] is the number 0
    or the string [toFixed(1)] makes. *)
Record RedLightStats : Type := {
  stats_attempts : Z;
  bestTime : JsValue;
  successRate : float
}.

(** A row of the bread game's [highScores]. *)
Record BreadEntry : Type := { bread_player : string; bread_score : Num.t }.

(** The sample rows pushed when nobody has a bread score. *)
Definition sampleBread : list BreadEntry :=
  [ {| bread_player := "FastBread";   bread_score := Num.ofInt 1250 |};
    {| bread_player := "BreadMaster"; bread_score := Num.ofInt 980 |};
    {| bread_player := "CarefulLoaf"; bread_score := Num.ofInt 825 |} ].

(** [(a, b) => b.score - a.score]. *)
Definition byScoreDesc (a b : BreadEntry) : option Q :=
  Some (inject_Z (Num.tenths (bread_score b)) / 10
        - inject_Z (Num.tenths (bread_score a)) / 10)%Q.

(* ================================================================== *)
(** ** [MemStorage] *)
(* ================================================================== *)

Module Mem.

Record Storage : Type := {
  users : JsMap.t User;
  userGames : JsMap.t UserGames;
  scores : JsMap.t (list Score);
  games : JsMap.t Game
}.

Definition withUsers (st : Storage) (us : JsMap.t User) : Storage :=
  {| users := us; userGames := userGames st;
     scores := scores st; games := games st |}.

Definition withUserGames (st : Storage) (ug : JsMap.t UserGames) : Storage :=
  {| users := users st; userGames := ug;
     scores := scores st; games := games st |}.

(** [this.scores.get(userId) || []]. *)
Definition userScoresOf (st : Storage) (userId : Z) : list Score :=
  match JsMap.get userId (scores st) with Some l => l | None => [] end.

(** [this.userGames.get(userId)?.guessing]: the user's live session. *)
Definition session (st : Storage) (userId : Z) : option GuessingState :=
  match JsMap.get userId (userGames st) with
  | Some ug => guessing ug
  | None => None
  end.

(** The ledger of one user, in recording order. *)
Definition ledgerOf (st : Storage) (userId : Z) : list (Z * Z * Num.t) :=
  map ledgerLine (userScoresOf st userId).

(** [recordScore]: get or create the game entry, then append the score to
    the user's array. *)
Definition recordScore (st : Storage) (clk : Clock)
    (userId : Z) (gameType : string) (value : Num.t) : Storage :=
  let found :=
    find (fun g => String.eqb (game_type g) gameType) (JsMap.values (games st)) in
  let '(gameId, games') :=
    match found with
    | None =>
        let gameId := JsMap.size (games st) + 1 in
        let game := {| game_id := gameId;
                       game_type := gameType;
                       game_name := getGameName gameType;
                       game_createdAt := nowIso clk |} in
        (gameId, JsMap.set gameId game (games st))
    | Some game => (game_id game, games st)
    end in
  let score := {| score_id := nowMs clk;
                  score_userId := userId;
                  score_gameId := gameId;
                  score_value := value;
                  score_createdAt := nowIso clk |} in
  let userScores := userScoresOf st userId in
  {| users := users st; userGames := userGames st;
     scores := JsMap.set userId (userScores ++ [score]) (scores st);
     games := games' |}.

(** The block repeated in every start method:
    [if (user) this.users.set(userId, {...user, gamesPlayed: user.gamesPlayed + 1})]. *)
Definition countGamePlayed (st : Storage) (userId : Z) : Storage :=
  match JsMap.get userId (users st) with
  | Some user =>
      withUsers st
        (JsMap.set userId (withGamesPlayed user (gamesPlayed user + 1)) (users st))
  | None => st
  end.

(** [startGuessingGame]; resolves to [{ success: true }]. *)
Definition startGuessingGame (st : Storage) (floorDraw userId : Z) : Storage :=
  let gameState := newGuessingState floorDraw userId in
  let st1 :=
    withUserGames st
      (JsMap.set userId {| guessing := Some gameState |} (userGames st)) in
  countGamePlayed st1 userId.

(** [startRedLightGame]; resolves to [{ success: true }]. *)
Definition startRedLightGame (st : Storage) (userId : Z) : Storage :=
  countGamePlayed st userId.

(** [makeGuess]. *)
Definition makeGuess (st : Storage) (clk : Clock) (userId guess : Z)
  : GuessResult * Storage :=
  match JsMap.get userId (userGames st) with
  | None => (GuessError "No active guessing game found", st)
  | Some ug =>
    match guessing ug with
    | None => (GuessError "No active guessing game found", st)
    | Some game =>
      if gameOver game then (GuessError "Game is already over", st)
      else if includes guess (previousGuesses game)
      then (GuessError "You already tried this number", st)
      else
        let game1 := recordGuess game guess in
        let target := targetNumber game1 in
        let '(msg, correct, game2, st1) :=
          if guess =? target
          then ("correct", true, setGameOver game1,
                recordScore st clk userId "guessing" (Num.ofInt (attempts game1)))
          else if guess <? target
          then ("too low", false, game1, st)
          else ("too high", false, game1, st) in
        let '(game3, reply) := finishGuess game2 msg correct in
        (GuessOk reply,
         withUserGames st1
           (JsMap.set userId {| guessing := Some game3 |} (userGames st1)))
    end
  end.

(** [spinWheel]: the score is recorded only for a prize with a value; the
    play counter is updated on every spin. *)
Definition spinWheel (st : Storage) (clk : Clock)
    (random random2 : float) (userId : Z) : SpinResult * Storage :=
  let selectedPrize := selectPrize random in
  let st1 :=
    if prize_value selectedPrize >? 0
    then recordScore st clk userId "spinwheel" (Num.ofInt (prize_value selectedPrize))
    else st in
  (spinResult selectedPrize random2, countGamePlayed st1 userId).

(** The [filter] used by the per-game views: the scores whose game entry
    has the given type. *)
Definition scoresOfType (st : Storage) (type : string) (l : list Score)
  : list Score :=
  filter (fun s => match JsMap.get (score_gameId s) (games st) with
                   | Some g => String.eqb (game_type g) type
                   | None => false
                   end) l.

(** [getLeaderboard]. *)
Definition getLeaderboard (st : Storage) (gameType : string)
  : list LeaderboardEntry :=
  let allScores :=
    flat_map
      (fun '(userId, userScores) =>
         match JsMap.get userId (users st) with
         | None => []
         | Some user =>
             flat_map
               (fun s =>
                  match JsMap.get (score_gameId s) (games st) with
                  | None => []
                  | Some g =>
                      if String.eqb gameType "all" || String.eqb (game_type g) gameType
                      then [leaderboardEntry (username user) g s]
                      else []
                  end)
               userScores
         end)
      (scores st) in
  assignRanks withRank 1 (sort compareEntries allScores).

(** [getTypeRacerLeaderboard]. *)
Definition getTypeRacerLeaderboard (st : Storage) : list TypeRacerEntry :=
  let allScores :=
    flat_map
      (fun '(userId, userScores) =>
         match JsMap.get userId (users st) with
         | None => []
         | Some user =>
             match scoresOfType st "typeracer" userScores with
             | [] => []
             | (first :: _) as typeRacerScores =>
                 let bestScore := bestOf first typeRacerScores in
                 [ {| tr_rank := 0;
                      tr_player := username user;
                      wpm := Num.round (score_value bestScore);
                      accuracy := 95 |} ]
             end
         end)
      (scores st) in
  match assignRanks withTrRank 1 (sort byWpmDesc allScores) with
  | [] => sampleTypeRacer
  | ranked => ranked
  end.

(** [e] is the typing entry of [userId]: it carries the user's name, and its
    [wpm] is [Math.round] of the highest value among the user's typing
    scores. *)
Definition isBestEntry (st : Storage) (userId : Z) (e : TypeRacerEntry) : Prop :=
  exists user best,
    JsMap.get userId (users st) = Some user
    /\ tr_player e = username user
    /\ In best (scoresOfType st "typeracer" (userScoresOf st userId))
    /\ (forall s, In s (scoresOfType st "typeracer" (userScoresOf st userId)) ->
                  Num.tenths (score_value s) <= Num.tenths (score_value best))
    /\ wpm e = Num.round (score_value best).

(** [userId] is a user of the store with at least one typing score. *)
Definition typist (st : Storage) (userId : Z) : Prop :=
  JsMap.get userId (users st) <> None
  /\ scoresOfType st "typeracer" (userScoresOf st userId) <> [].

(** Every value on record is a decimal of [Num.plain]. *)
Definition plainScores (st : Storage) : Prop :=
  forall k l s, In (k, l) (scores st) -> In s l -> Num.plain (score_value s).

(** The shape [recordScore] keeps the catalog in: the games sit under the
    keys 1..n, each under its own id, and no two have the same type. *)
Definition catalogOk (st : Storage) : Prop :=
  JsMap.keys (games st) = map Z.of_nat (seq 1 (List.length (games st)))
  /\ (forall k g, In (k, g) (games st) -> game_id g = k)
  /\ NoDup (map game_type (JsMap.values (games st))).

(** Besides, every stored score points to a game of the catalog. *)
Definition storeOk (st : Storage) : Prop :=
  catalogOk st
  /\ forall k l s, In (k, l) (scores st) -> In s l ->
        exists g, JsMap.get (score_gameId s) (games st) = Some g.

(** The whole shape the methods keep: the above, and one array per user. *)
Definition wellFormed (st : Storage) : Prop :=
  storeOk st /\ NoDup (JsMap.keys (scores st)).

(** [getGuessingGameStats]. *)
Definition getGuessingGameStats (st : Storage) (userId : Z) : GuessingStats :=
  let guessingGameScores := scoresOfType st "guessing" (userScoresOf st userId) in
  let gamesPlayed := Z.of_nat (List.length guessingGameScores) in
  {| stats_played := gamesPlayed;
     winRate := if gamesPlayed >? 0 then percentage gamesPlayed (gamesPlayed + 2)
                else 0%float;
     bestScore := match leastValue guessingGameScores with
                  | None => Num.ofInt 0
                  | Some best => best
                  end |}.

(** [getRedLightGameStats]. *)
Definition getRedLightGameStats (st : Storage) (userId : Z) : RedLightStats :=
  let redLightScores := scoresOfType st "redlight" (userScoresOf st userId) in
  let attempts := Z.of_nat (List.length redLightScores) in
  {| stats_attempts := attempts;
     bestTime := match leastValue redLightScores with
                 | None => JsNumber (Num.ofInt 0)
                 | Some best => JsString (Num.toFixed1 best)
                 end;
     successRate := if attempts >? 0 then percentage attempts (attempts + 5)
                    else 0%float |}.

(** [submitRedLightScore]; resolves to [{ success: true, stats }]. *)
Definition submitRedLightScore (st : Storage) (clk : Clock) (userId : Z) (time : Num.t)
  : RedLightStats * Storage :=
  let st1 := recordScore st clk userId "redlight" time in
  (getRedLightGameStats st1 userId, st1).

(** [submitTypeRacerScore]; resolves to [{ success: true, leaderboard }]. *)
Definition submitTypeRacerScore (st : Storage) (clk : Clock)
    (userId : Z) (wpm accuracy : Num.t) : list TypeRacerEntry * Storage :=
  let st1 := recordScore st clk userId "typeracer" wpm in
  (getTypeRacerLeaderboard st1, st1).

(** [getBreadGameStats]: the [highScores] of the object it resolves to (its
    other fields are the constants [level: 3, lives: 2, score: 750]). *)
Definition getBreadGameStats (st : Storage) (userId : Z) : list BreadEntry :=
  let allScores :=
    flat_map
      (fun '(userId, userScores) =>
         match JsMap.get userId (users st) with
         | None => []
         | Some user =>
             match scoresOfType st "cse17" userScores with
             | [] => []
             | (first :: _) as breadGameScores =>
                 let bestScore := bestOf first breadGameScores in
                 [ {| bread_player := username user;
                      bread_score := score_value bestScore |} ]
             end
         end)
      (scores st) in
  let sorted := sort byScoreDesc allScores in
  firstn 5 (match sorted with [] => sampleBread | _ :: _ => sorted end).

(** [e] is the bread entry of [userId]: it carries the user's name and the
    highest value among the user's bread scores. *)
Definition isBestBread (st : Storage) (userId : Z) (e : BreadEntry) : Prop :=
  exists user best,
    JsMap.get userId (users st) = Some user
    /\ bread_player e = username user
    /\ In best (scoresOfType st "cse17" (userScoresOf st userId))
    /\ (forall s, In s (scoresOfType st "cse17" (userScoresOf st userId)) ->
                  Num.tenths (score_value s) <= Num.tenths (score_value best))
    /\ bread_score e = score_value best.

(** [submitBreadGameScore]; resolves to [{ success: true, highScores }]. *)
Definition submitBreadGameScore (st : Storage) (clk : Clock) (userId : Z) (score : Num.t)
  : list BreadEntry * Storage :=
  let st1 := recordScore st clk userId "cse17" score in
  (getBreadGameStats st1 userId, st1).

(** [deleteUser]: [this.users.delete(id)]. *)
Definition deleteUser (st : Storage) (id : Z) : bool * Storage :=
  let '(found, users') := JsMap.delete id (users st) in
  (found, withUsers st users').

(** A run of [makeGuess] calls by one user, replies dropped. *)
Definition playGuesses (st : Storage) (clk : Clock) (userId : Z) (guesses : list Z)
  : Storage :=
  fold_left (fun s guess => snd (makeGuess s clk userId guess)) guesses st.

End Mem.

(* ================================================================== *)
(** ** [DatabaseStorage] *)
(* ================================================================== *)

Module Db.

(** The three tables (rows in heap order), the [scores_id_seq] sequence and
    the in-process [userGames] map. *)
Record Storage : Type := {
  users : list User;
  games : list Game;
  scores : list Score;
  scoresSeq : Z;
  userGames : JsMap.t UserGames
}.

Definition withUsers (st : Storage) (us : list User) : Storage :=
  {| users := us; games := games st; scores := scores st;
     scoresSeq := scoresSeq st; userGames := userGames st |}.

Definition withUserGames (st : Storage) (ug : JsMap.t UserGames) : Storage :=
  {| users := users st; games := games st; scores := scores st;
     scoresSeq := scoresSeq st; userGames := ug |}.

(** [this.userGames.get(userId)?.guessing]: the user's live session. *)
Definition session (st : Storage) (userId : Z) : option GuessingState :=
  match JsMap.get userId (userGames st) with
  | Some ug => guessing ug
  | None => None
  end.

(** The largest value of an [integer] column. *)
Definition int4Max : Z := 2147483647.

(** [getUser]: the first row of [select ... where id = $1]. *)
Definition getUser (st : Storage) (id : Z) : option User :=
  find (fun u => user_id u =? id) (users st).

(** [update users set games_played = f(games_played) where id = $1]. *)
Definition updateGamesPlayed (st : Storage) (id : Z) (f : Z -> Z) : Storage :=
  withUsers st
    (map (fun u => if user_id u =? id
                   then withGamesPlayed u (f (gamesPlayed u)) else u)
         (users st)).

(** The ledger of one user, in recording order. *)
Definition ledgerOf (st : Storage) (userId : Z) : list (Z * Z * Num.t) :=
  map ledgerLine (filter (fun s => score_userId s =? userId) (scores st)).

(** [getGameIdByType]. *)
Definition getGameIdByType (st : Storage) (gameType : string) : Outcome Z :=
  match find (fun g => String.eqb (game_type g) gameType) (games st) with
  | Some game => Returned (game_id game)
  | None => Thrown ("Game type " ++ gameType ++ " not found")%string
  end.

(** A statement that drew a value from [scores_id_seq]: the sequence keeps
    the draw even when the statement is refused. *)
Definition drawScoreId (st : Storage) : Storage :=
  {| users := users st; games := games st; scores := scores st;
     scoresSeq := scoresSeq st + 1; userGames := userGames st |}.

(** The values a [real] column gives back as they were written: the decimals
    of at most six significant digits. *)
Definition realExact (v : Num.t) : Prop := Z.abs (Num.tenths v) < 1000000.

(** [insert into scores (user_id, game_id, value)]: [user_id] and [game_id]
    are declared [references(() => users.id)] and [references(() => games.id)],
    so the insert is refused when the referenced row is missing; the id it
    drew from the sequence is spent all the same.  [value] is a [real]
    column: the row holds the value as written when it is [realExact], which
    is what the ledger is modelled on. *)
Definition insertScore (st : Storage) (clk : Clock)
    (userId gameId : Z) (value : Num.t) : Outcome unit * Storage :=
  if negb (existsb (fun u => user_id u =? userId) (users st))
  then (Thrown "scores.user_id violates its foreign key", drawScoreId st)
  else if negb (existsb (fun g => game_id g =? gameId) (games st))
  then (Thrown "scores.game_id violates its foreign key", drawScoreId st)
  else
    let row := {| score_id := scoresSeq st;
                  score_userId := userId;
                  score_gameId := gameId;
                  score_value := value;
                  score_createdAt := nowIso clk |} in
    (Returned tt,
     {| users := users st; games := games st;
        scores := scores st ++ [row];
        scoresSeq := scoresSeq st + 1;
        userGames := userGames st |}).

(** [recordScore]: look the game up and insert the score.  The statement
    that follows, meant to add one to the user's play counter, builds its
    [set] argument with [db.sql`...`]; the file imports [eq], [asc] and [desc]
    only and the [db] object of drizzle has no [sql] member, so evaluating the
    argument throws a [TypeError] before any update is sent: the method rejects
    after the insert, on every call that gets that far. *)
Definition recordScore (st : Storage) (clk : Clock)
    (userId : Z) (gameType : string) (value : Num.t) : Outcome unit * Storage :=
  match getGameIdByType st gameType with
  | Thrown e => (Thrown e, st)
  | Returned gameId =>
      match insertScore st clk userId gameId value with
      | (Thrown e, st1) => (Thrown e, st1)
      | (Returned _, st1) => (Thrown "db.sql is not a function", st1)
      end
  end.

(** [updateUser(userId, { gamesPlayed: (await this.getUser(userId))!.gamesPlayed + 1 })],
    the statement of every start method: reading the counter fails on a missing
    user, and [games_played] is an [integer] column, which refuses a value
    above [int4Max]. *)
Definition countGamePlayed (st : Storage) (userId : Z) : Outcome unit * Storage :=
  match getUser st userId with
  | None => (Thrown "Cannot read properties of undefined (reading 'gamesPlayed')", st)
  | Some user =>
      if gamesPlayed user + 1 >? int4Max
      then (Thrown "integer out of range", st)
      else (Returned tt, updateGamesPlayed st userId (fun _ => gamesPlayed user + 1))
  end.

(** [startGuessingGame]: the session is stored first, then the counter is
    updated. *)
Definition startGuessingGame (st : Storage) (floorDraw userId : Z)
  : Outcome unit * Storage :=
  let gameState := newGuessingState floorDraw userId in
  let st1 :=
    withUserGames st
      (JsMap.set userId {| guessing := Some gameState |} (userGames st)) in
  countGamePlayed st1 userId.

(** [startRedLightGame]. *)
Definition startRedLightGame (st : Storage) (userId : Z) : Outcome unit * Storage :=
  countGamePlayed st userId.

(** [makeGuess].  The session object is mutated in place before
    [recordScore] is awaited, so a rejection leaves the mutated session in
    [userGames]. *)
Definition makeGuess (st : Storage) (clk : Clock) (userId guess : Z)
  : Outcome GuessResult * Storage :=
  match JsMap.get userId (userGames st) with
  | None => (Returned (GuessError "No active guessing game found"), st)
  | Some ug =>
    match guessing ug with
    | None => (Returned (GuessError "No active guessing game found"), st)
    | Some game =>
      if gameOver game then (Returned (GuessError "Game is already over"), st)
      else if includes guess (previousGuesses game)
      then (Returned (GuessError "You already tried this number"), st)
      else
        let game1 := recordGuess game guess in
        let target := targetNumber game1 in
        let store (s : Storage) (g : GuessingState) :=
          withUserGames s (JsMap.set userId {| guessing := Some g |} (userGames s)) in
        if guess =? target then
          let game2 := setGameOver game1 in
          match recordScore st clk userId "guessing" (Num.ofInt (attempts game2)) with
          | (Thrown e, st1) => (Thrown e, store st1 game2)
          | (Returned _, st1) =>
              let '(game3, reply) := finishGuess game2 "correct" true in
              (Returned (GuessOk reply), store st1 game3)
          end
        else
          let msg := if guess <? target then "too low" else "too high" in
          let '(game3, reply) := finishGuess game1 msg false in
          (Returned (GuessOk reply), store st game3)
    end
  end.

(** [spinWheel]: the score is recorded only for a prize with a value;
    there is no other statement after it. *)
Definition spinWheel (st : Storage) (clk : Clock)
    (random random2 : float) (userId : Z) : Outcome SpinResult * Storage :=
  let selectedPrize := selectPrize random in
  if prize_value selectedPrize >? 0 then
    match recordScore st clk userId "spinwheel"
            (Num.ofInt (prize_value selectedPrize)) with
    | (Thrown e, st1) => (Thrown e, st1)
    | (Returned _, st1) => (Returned (spinResult selectedPrize random2), st1)
    end
  else (Returned (spinResult selectedPrize random2), st).

(** The row of [scores innerJoin users]. *)
Record ScoreRow : Type := {
  row_score : Score;
  row_username : string
}.

(** [from(scores).innerJoin(users, eq(scores.userId, users.id))], filtered by
    [keep] on the score; rows come in the order of the scores table. *)
Definition joinUsers (st : Storage) (keep : Score -> bool) : list ScoreRow :=
  flat_map
    (fun s =>
       if keep s then
         map (fun u => {| row_score := s; row_username := username u |})
             (filter (fun u => user_id u =? score_userId s) (users st))
       else [])
    (scores st).

(** [for (const game of allGames) gameMap.set(game.id, game)]. *)
Definition gameMap (st : Storage) : JsMap.t Game :=
  fold_left (fun m g => JsMap.set (game_id g) g m) (games st) [].

(** [getLeaderboard].  With a filter the query also joins [games] on
    [scores.gameId = games.id] and keeps the rows whose game has the type. *)
Definition getLeaderboard (st : Storage) (gameType : string)
  : list LeaderboardEntry :=
  let scoreResults :=
    if String.eqb gameType "all" then joinUsers st (fun _ => true)
    else
      flat_map
        (fun r =>
           map (fun _ => r)
               (filter (fun g => (game_id g =? score_gameId (row_score r))
                                 && String.eqb (game_type g) gameType)
                       (games st)))
        (joinUsers st (fun _ => true)) in
  let allScores :=
    flat_map
      (fun r =>
         match JsMap.get (score_gameId (row_score r)) (gameMap st) with
         | None => []
         | Some g => [leaderboardEntry (row_username r) g (row_score r)]
         end)
      scoreResults in
  assignRanks withRank 1 (sort compareEntries allScores).

(** [(a, b) => b[1] - a[1]] on the entries of [userBestScores], and the
    [orderBy(desc(scores.value))] of the query. *)
Definition byValueDesc {K} (a b : K * Num.t) : option Q :=
  Some (inject_Z (Num.tenths (snd b)) / 10 - inject_Z (Num.tenths (snd a)) / 10)%Q.

Definition byRowValueDesc (a b : ScoreRow) : option Q :=
  byValueDesc (a, score_value (row_score a)) (b, score_value (row_score b)).

(** The loop that fills [userBestScores]. *)
Definition userBestScores (rows : list ScoreRow) : JsMap.t Num.t :=
  fold_left
    (fun m r =>
       let uid := score_userId (row_score r) in
       let v := score_value (row_score r) in
       match JsMap.get uid m with
       | None => JsMap.set uid v m
       | Some best => if Num.ltb best v then JsMap.set uid v m else m
       end)
    rows [].

(** [getTypeRacerLeaderboard]. *)
Definition getTypeRacerLeaderboard (st : Storage)
  : Outcome (list TypeRacerEntry) :=
  match getGameIdByType st "typeracer" with
  | Thrown e => Thrown e
  | Returned gameId =>
      let typeRacerScores :=
        sort byRowValueDesc
             (joinUsers st (fun s => score_gameId s =? gameId)) in
      let best := sort byValueDesc (userBestScores typeRacerScores) in
      let entries :=
        flat_map
          (fun '(userId, value) =>
             match find (fun r => score_userId (row_score r) =? userId)
                        typeRacerScores with
             | None => []
             | Some user =>
                 [ {| tr_rank := 0;
                      tr_player := row_username user;
                      wpm := Num.round value;
                      accuracy := 95 |} ]
             end)
          best in
      match assignRanks withTrRank 1 entries with
      | [] => Returned sampleTypeRacer
      | ranked => Returned ranked
      end
  end.

(** [e] is the typing entry of [userId] among the rows of the typing game:
    it carries the name of one of the user's rows, and its [wpm] is
    [Math.round] of the highest value among them. *)
Definition isBestEntry (st : Storage) (gameId userId : Z) (e : TypeRacerEntry) : Prop :=
  exists best named,
    In best (joinUsers st (fun s => score_gameId s =? gameId))
    /\ score_userId (row_score best) = userId
    /\ In named (joinUsers st (fun s => score_gameId s =? gameId))
    /\ score_userId (row_score named) = userId
    /\ tr_player e = row_username named
    /\ (forall r, In r (joinUsers st (fun s => score_gameId s =? gameId)) ->
                  score_userId (row_score r) = userId ->
                  Num.tenths (score_value (row_score r))
                  <= Num.tenths (score_value (row_score best)))
    /\ wpm e = Num.round (score_value (row_score best)).

(** [userId] has at least one row among the rows of the typing game. *)
Definition typist (st : Storage) (gameId userId : Z) : Prop :=
  exists r, In r (joinUsers st (fun s => score_gameId s =? gameId))
            /\ score_userId (row_score r) = userId.

(** Every value in the [scores] table is one the [real] column gives back as
    it was written. *)
Definition plainScores (st : Storage) : Prop :=
  forall s, In s (scores st) -> realExact (score_value s).

(** The values a user has on record for a game type, oldest first. *)
Definition valuesOf (st : Storage) (userId : Z) (gameType : string) : list Num.t :=
  match getGameIdByType st gameType with
  | Thrown _ => []
  | Returned gameId =>
      map score_value
          (filter (fun s => (score_userId s =? userId) && (score_gameId s =? gameId))
                  (scores st))
  end.

(** The specification's "new high score" of a submission: the submitted value
    is above every value the user has on record for the game. *)
Definition isNewBest (st : Storage) (userId : Z) (gameType : string) (value : Num.t)
  : bool :=
  forallb (fun v => Num.ltb v value) (valuesOf st userId gameType).

(** The object literal [{ success: true, leaderboard }]. *)
Definition typeRacerResult (leaderboard : list TypeRacerEntry) : JsObject :=
  [("success", JsBool true); ("leaderboard", JsBoard leaderboard)].

(** [submitTypeRacerScore]: resolves to [{ success: true, leaderboard }] when
    [recordScore] returns. *)
Definition submitTypeRacerScore (st : Storage) (clk : Clock)
    (userId : Z) (wpm accuracy : Num.t) : Outcome JsObject * Storage :=
  match recordScore st clk userId "typeracer" wpm with
  | (Thrown e, st1) => (Thrown e, st1)
  | (Returned _, st1) =>
      match getTypeRacerLeaderboard st1 with
      | Thrown e => (Thrown e, st1)
      | Returned leaderboard => (Returned (typeRacerResult leaderboard), st1)
      end
  end.

Record BreadStats : Type := {
  stats_gamesPlayed : Z;
  highScore : Num.t;
  averageScore : Z
}.

(** [getBreadGameStats].  The query chains [.where(eq(scores.userId, userId))]
    and [.where(eq(scores.gameId, gameId))]; in drizzle a second [where]
    replaces the first, so the rows are those of the [cse17] game, of every
    user.  The average is [Math.round(totalScore / gamesPlayed)] on the exact
    quotient. *)
Definition getBreadGameStats (st : Storage) (userId : Z) : Outcome BreadStats :=
  match getGameIdByType st "cse17" with
  | Thrown e => Thrown e
  | Returned gameId =>
      let userScores :=
        filter (fun s => score_gameId s =? gameId) (scores st) in
      let played := Z.of_nat (List.length userScores) in
      let high :=
        fold_left (fun best s => if Num.gtb (score_value s) best
                                 then score_value s else best)
                  userScores (Num.ofInt 0) in
      let total :=
        fold_left (fun t s => t + Num.tenths (score_value s)) userScores 0 in
      Returned {| stats_gamesPlayed := played;
                  highScore := high;
                  averageScore :=
                    if played >? 0 then (2 * total + 10 * played) / (20 * played)
                    else 0 |}
  end.

(** The object literal [{ success: true, highScore: stats.highScore }]. *)
Definition breadResult (stats : BreadStats) : JsObject :=
  [("success", JsBool true); ("highScore", JsNumber (highScore stats))].

(** [submitBreadGameScore]: resolves to [{ success: true, highScore }] when
    [recordScore] returns. *)
Definition submitBreadGameScore (st : Storage) (clk : Clock)
    (userId : Z) (score : Num.t) : Outcome JsObject * Storage :=
  match recordScore st clk userId "cse17" score with
  | (Thrown e, st1) => (Thrown e, st1)
  | (Returned _, st1) =>
      match getBreadGameStats st1 userId with
      | Thrown e => (Thrown e, st1)
      | Returned stats => (Returned (breadResult stats), st1)
      end
  end.

(** The rows [initializeGameData] inserts: type and name. *)
Definition initialGames : list (string * string) :=
  [ ("guessing", "Guessing Game");
    ("spinwheel", "Spin Wheel");
    ("redlight", "Red Light, Green Light");
    ("typeracer", "Type Racer");
    ("cse17", "CSE-17 Bread Game") ].

(** [initializeGameData], run by the constructor.  [gamesSeq] and [usersSeq]
    are the next values of the [serial] sequences of the two tables; the rows
    of one insert take consecutive values and [defaultNow()].  The admin is
    looked up and created under the name "admin", which [toLowerCase] leaves as
    it is; [users.id] is a primary key, so the insert is refused when the id is
    taken. *)
Definition initializeGameData (st : Storage) (clk : Clock) (gamesSeq usersSeq : Z)
  : Outcome unit * Storage :=
  let st1 :=
    match games st with
    | [] =>
        {| users := users st;
           games :=
             map (fun '(i, (type, name)) =>
                    {| game_id := gamesSeq + Z.of_nat i;
                       game_type := type;
                       game_name := name;
                       game_createdAt := nowIso clk |})
                 (combine (seq 0 (List.length initialGames)) initialGames);
           scores := scores st;
           scoresSeq := scoresSeq st;
           userGames := userGames st |}
    | _ :: _ => st
    end in
  match find (fun u => String.eqb (username u) "admin") (users st1) with
  | Some _ => (Returned tt, st1)
  | None =>
      if existsb (fun u => user_id u =? usersSeq) (users st1)
      then (Thrown "users.id violates its primary key", st1)
      else
        (Returned tt,
         withUsers st1
           (users st1 ++ [ {| user_id := usersSeq; username := "admin";
                              gamesPlayed := 0 |} ]))
  end.

(** [deleteUser]: [delete from users where id = $1].  [scores.user_id]
    references [users.id] with no [onDelete] action, so the delete is refused
    while the user has a score; otherwise it resolves to [true], whether or not
    a row was deleted. *)
Definition deleteUser (st : Storage) (id : Z) : Outcome bool * Storage :=
  if existsb (fun s => score_userId s =? id) (scores st)
  then (Thrown "users.id is still referenced from scores", st)
  else (Returned true,
        withUsers st (filter (fun u => negb (user_id u =? id)) (users st))).

(** What the keys of the schema promise: user ids and game ids are primary
    keys, and every score refers to a user row and to a game row. *)
Definition keysOk (st : Storage) : Prop :=
  NoDup (map user_id (users st))
  /\ NoDup (map game_id (games st))
  /\ forall s, In s (scores st) ->
        In (score_userId s) (map user_id (users st))
        /\ In (score_gameId s) (map game_id (games st)).

(** A run of [makeGuess] calls by one user, replies and rejections dropped. *)
Definition playGuesses (st : Storage) (clk : Clock) (userId : Z) (guesses : list Z)
  : Storage :=
  fold_left (fun s guess => snd (makeGuess s clk userId guess)) guesses st.

End Db.

(* ================================================================== *)
(** ** The score routes of [routes.ts] and the broadcast *)
(* ================================================================== *)

(** [export const storage = new DatabaseStorage()]: the routes run on the
    database store. *)
Module Routes.

(** A connected WebSocket: its identity and whether [readyState] is OPEN. *)
Record Client : Type := { client_id : Z; isOpen : bool }.

Record WinnerData : Type := {
  winner_player : string;
  winner_game : string;
  winner_gameType : string;
  winner_score : option JsValue;
  winner_message : string
}.

(** The message [broadcastLeaderboard] serialises. *)
Record Broadcast : Type := {
  msg_type : string;
  msg_data : list LeaderboardEntry;
  msg_winner : option WinnerData
}.

(** [broadcastLeaderboard]: the messages sent, one per open client. *)
Definition broadcastLeaderboard (st : Db.Storage) (connectedClients : list Client)
    (gameType : string) (winnerData : option WinnerData) : list (Z * Broadcast) :=
  let leaderboard := Db.getLeaderboard st gameType in
  let message :=
    {| msg_type := match winnerData with Some _ => "winner" | None => "leaderboard" end;
       msg_data := leaderboard;
       msg_winner := winnerData |} in
  flat_map (fun client => if isOpen client then [(client_id client, message)] else [])
           connectedClients.

(** What a route answers: the status and the JSON body. *)
Record Response : Type := { status : Z; body : JsObject }.

Definition invalidSubmission : Response :=
  {| status := 400; body := [("message", JsString "Invalid score submission")] |}.

(** A request body after [JSON.parse]: a field is [None] when it is missing
    or not a number. *)
Record TypeRacerBody : Type := {
  body_wpm : option Num.t;
  body_accuracy : option Num.t
}.

(** [z.object({ wpm: z.number().min(0), accuracy: z.number().min(0).max(100) })]. *)
Definition parseTypeRacerBody (b : TypeRacerBody) : option (Num.t * Num.t) :=
  match body_wpm b, body_accuracy b with
  | Some wpm, Some accuracy =>
      if (0 <=? Num.tenths wpm) && (0 <=? Num.tenths accuracy)
         && (Num.tenths accuracy <=? 1000)
      then Some (wpm, accuracy) else None
  | _, _ => None
  end.

(** [POST /api/games/typeracer/score] for the authenticated [user]: the
    response, the messages broadcast and the next store. *)
Definition postTypeRacerScore (st : Db.Storage) (clients : list Client)
    (clk : Clock) (user : User) (b : TypeRacerBody)
  : Response * list (Z * Broadcast) * Db.Storage :=
  match parseTypeRacerBody b with
  | None => (invalidSubmission, [], st)
  | Some (wpm, accuracy) =>
      match Db.submitTypeRacerScore st clk (user_id user) wpm accuracy with
      | (Thrown _, st1) => (invalidSubmission, [], st1)
      | (Returned result, st1) =>
          let sent :=
            if truthy (getProp result "isHighScore") then
              let winnerData :=
                {| winner_player := username user;
                   winner_game := "Type Racer";
                   winner_gameType := "typeracer";
                   winner_score := Some (JsString (Num.toString wpm ++ " WPM"));
                   winner_message :=
                     (username user ++ " just achieved a new high score of "
                      ++ Num.toString wpm ++ " WPM with " ++ Num.toString accuracy
                      ++ "% accuracy in Type Racer!")%string |} in
              broadcastLeaderboard st1 clients "typeracer" (Some winnerData)
            else [] in
          ({| status := 200; body := result |}, sent, st1)
      end
  end.

(** [z.object({ score: z.number().min(0) })]. *)
Definition parseBreadBody (score : option Num.t) : option Num.t :=
  match score with
  | Some v => if 0 <=? Num.tenths v then Some v else None
  | None => None
  end.

(** [POST /api/games/bread/score]. *)
Definition postBreadScore (st : Db.Storage) (clients : list Client)
    (clk : Clock) (user : User) (b : option Num.t)
  : Response * list (Z * Broadcast) * Db.Storage :=
  match parseBreadBody b with
  | None => (invalidSubmission, [], st)
  | Some score =>
      match Db.submitBreadGameScore st clk (user_id user) score with
      | (Thrown _, st1) => (invalidSubmission, [], st1)
      | (Returned result, st1) =>
          let sent :=
            if truthy (getProp result "isHighScore") then
              let winnerData :=
                {| winner_player := username user;
                   winner_game := "CSE-17 Bread Game";
                   winner_gameType := "cse17";
                   winner_score := getProp result "score";
                   winner_message :=
                     (username user ++ " just achieved a new high score of "
                      ++ templateString (getProp result "score")
                      ++ " in the Bread Game!")%string |} in
              broadcastLeaderboard st1 clients "cse17" (Some winnerData)
            else [] in
          ({| status := 200; body := result |}, sent, st1)
      end
  end.

End Routes.

(* ================================================================== *)
(** ** Sample stores *)
(* ================================================================== *)

Module Samples.

Definition clock : Clock :=
  {| nowMs := 1714557600000; nowIso := "2024-05-01T10:00:00.000Z" |}.

Definition alice : User := {| user_id := 1; username := "alice"; gamesPlayed := 0 |}.
Definition bob : User := {| user_id := 2; username := "bob"; gamesPlayed := 0 |}.

(** The rows [initializeGameData] inserts in an empty [games] table. *)
Definition seededGames : list Game :=
  [ {| game_id := 1; game_type := "guessing";  game_name := "Guessing Game";
       game_createdAt := "2024-05-01T09:00:00.000Z" |};
    {| game_id := 2; game_type := "spinwheel"; game_name := "Spin Wheel";
       game_createdAt := "2024-05-01T09:00:00.000Z" |};
    {| game_id := 3; game_type := "redlight";  game_name := "Red Light, Green Light";
       game_createdAt := "2024-05-01T09:00:00.000Z" |};
    {| game_id := 4; game_type := "typeracer"; game_name := "Type Racer";
       game_createdAt := "2024-05-01T09:00:00.000Z" |};
    {| game_id := 5; game_type := "cse17";     game_name := "CSE-17 Bread Game";
       game_createdAt := "2024-05-01T09:00:00.000Z" |} ].

(** A session in progress: target 42, one wrong guess made. *)
Definition session42 : GuessingState :=
  {| targetNumber := 42; attempts := 1; maxAttempts := 10;
     previousGuesses := [50]; gameOver := false; gs_userId := 1 |}.

(** A session one guess away from exhaustion. *)
Definition session42last : GuessingState :=
  {| targetNumber := 42; attempts := 9; maxAttempts := 10;
     previousGuesses := [1; 2; 3; 4; 5; 6; 7; 8; 9]; gameOver := false;
     gs_userId := 1 |}.

Definition memWith (ug : JsMap.t UserGames) : Mem.Storage :=
  {| Mem.users := [(1, alice); (2, bob)]; Mem.userGames := ug;
     Mem.scores := []; Mem.games := [] |}.

Definition mem : Mem.Storage := memWith [].

(** The same users over the seeded catalog, each game under its id. *)
Definition memSeeded : Mem.Storage :=
  {| Mem.users := [(1, alice); (2, bob)]; Mem.userGames := [];
     Mem.scores := []; Mem.games := map (fun g => (game_id g, g)) seededGames |}.

(** A database with both users and the seeded catalog. *)
Definition dbWith (ug : JsMap.t UserGames) : Db.Storage :=
  {| Db.users := [alice; bob]; Db.games := seededGames; Db.scores := [];
     Db.scoresSeq := 1; Db.userGames := ug |}.

Definition db : Db.Storage := dbWith [].

(** A database whose [games] table has no row yet. *)
Definition dbUnseededWith (ug : JsMap.t UserGames) : Db.Storage :=
  {| Db.users := [alice; bob]; Db.games := []; Db.scores := [];
     Db.scoresSeq := 1; Db.userGames := ug |}.

Definition dbUnseeded : Db.Storage := dbUnseededWith [].

(** Stores after three typing submissions: alice 45.5 then 40, bob 60.  In
    the database each call stores its row and then rejects; the rows stay. *)
Definition memTyping : Mem.Storage :=
  Mem.recordScore
    (Mem.recordScore
       (Mem.recordScore memSeeded clock 1 "typeracer" (Num.Tenths 455))
       clock 1 "typeracer" (Num.ofInt 40))
    clock 2 "typeracer" (Num.ofInt 60).

Definition dbTyping : Db.Storage :=
  snd (Db.recordScore
         (snd (Db.recordScore
                 (snd (Db.recordScore db clock 1 "typeracer" (Num.Tenths 455)))
                 clock 1 "typeracer" (Num.ofInt 40)))
         clock 2 "typeracer" (Num.ofInt 60)).

(** Stores after two red-light submissions: alice 1.0 s, bob -3.0 s (the
    route passes [parseFloat(time)] on unchecked).  In the database each call
    stores its row and then rejects; the rows stay. *)
Definition memTimes : Mem.Storage :=
  Mem.recordScore
    (Mem.recordScore memSeeded clock 1 "redlight" (Num.Tenths 10))
    clock 2 "redlight" (Num.Tenths (-30)).

Definition dbTimes : Db.Storage :=
  snd (Db.recordScore
         (snd (Db.recordScore db clock 1 "redlight" (Num.Tenths 10)))
         clock 2 "redlight" (Num.Tenths (-30))).

(** A store after three bread-game submissions: alice 120 then 300, bob 250. *)
Definition memBread : Mem.Storage :=
  Mem.recordScore
    (Mem.recordScore
       (Mem.recordScore memSeeded clock 1 "cse17" (Num.ofInt 120))
       clock 1 "cse17" (Num.ofInt 300))
    clock 2 "cse17" (Num.ofInt 250).

(** Two connected viewers, the second one closing. *)
Definition viewers : list Routes.Client :=
  [ {| Routes.client_id := 10; Routes.isOpen := true |};
    {| Routes.client_id := 11; Routes.isOpen := false |} ].

Definition playing (g : GuessingState) : JsMap.t UserGames :=
  [(1, {| guessing := Some g |})].

End Samples.

(* ================================================================== *)
(** * Properties *)
(* ================================================================== *)

(** ** Maps and rows *)

Lemma JsMap_get_set_same {V} (k : Z) (v : V) (m : JsMap.t V) :
  JsMap.get k (JsMap.set k v m) = Some v.
Proof.
  induction m as [|[k' v'] m IH]; simpl.
  - now rewrite Z.eqb_refl.
  - destruct (k' =? k) eqn:E; simpl; rewrite E; auto.
Qed.

Lemma JsMap_get_set_other {V} (k k0 : Z) (v : V) (m : JsMap.t V) :
  k0 <> k -> JsMap.get k0 (JsMap.set k v m) = JsMap.get k0 m.
Proof.
  intros Hne; induction m as [|[k' v'] m IH]; simpl.
  - destruct (k =? k0) eqn:E; auto. apply Z.eqb_eq in E; congruence.
  - destruct (k' =? k) eqn:E; simpl.
    + apply Z.eqb_eq in E; subst k'.
      destruct (k =? k0) eqn:E0; auto. apply Z.eqb_eq in E0; congruence.
    + destruct (k' =? k0); auto.
Qed.

Lemma includes_In (x : Z) (l : list Z) : includes x l = true <-> In x l.
Proof.
  unfold includes; rewrite existsb_exists; split.
  - intros (y & Hy & E); apply Z.eqb_eq in E; now subst.
  - intros H; exists x; split; auto using Z.eqb_refl.
Qed.




Lemma Db_getUser_exists (st : Db.Storage) (id : Z) (u : User) :
  Db.getUser st id = Some u ->
  existsb (fun u => user_id u =? id) (Db.users st) = true.
Proof.
  unfold Db.getUser; intros H; apply find_some in H as [Hin H].
  apply existsb_exists; eauto.
Qed.

(** ** The guessing session *)

Lemma Mem_session_inv (st : Mem.Storage) (userId : Z) (game : GuessingState) :
  Mem.session st userId = Some game ->
  exists ug, JsMap.get userId (Mem.userGames st) = Some ug /\ guessing ug = Some game.
Proof.
  unfold Mem.session; destruct (JsMap.get userId (Mem.userGames st)); [eauto|discriminate].
Qed.

Lemma Db_session_inv (st : Db.Storage) (userId : Z) (game : GuessingState) :
  Db.session st userId = Some game ->
  exists ug, JsMap.get userId (Db.userGames st) = Some ug /\ guessing ug = Some game.
Proof.
  unfold Db.session; destruct (JsMap.get userId (Db.userGames st)); [eauto|discriminate].
Qed.

Lemma Mem_session_stored (st : Mem.Storage) (userId : Z) (g : GuessingState) :
  Mem.session
    (Mem.withUserGames st (JsMap.set userId {| guessing := Some g |} (Mem.userGames st)))
    userId = Some g.
Proof. unfold Mem.session; simpl; now rewrite JsMap_get_set_same. Qed.

Lemma Db_session_stored (st : Db.Storage) (userId : Z) (g : GuessingState) :
  Db.session
    (Db.withUserGames st (JsMap.set userId {| guessing := Some g |} (Db.userGames st)))
    userId = Some g.
Proof. unfold Db.session; simpl; now rewrite JsMap_get_set_same. Qed.

(** C3.  A guess already in [previousGuesses] is answered with an error object
    and the store comes back as it was: the attempt counter is not
    incremented, the session and the score ledger are unchanged.  This holds in
    both stores and in every session, finished or not. *)
Theorem makeGuess_duplicate_rejected
    (game : GuessingState) (guess userId : Z) (clk : Clock) :
  In guess (previousGuesses game) ->
  (forall st, Mem.session st userId = Some game ->
     exists e, Mem.makeGuess st clk userId guess = (GuessError e, st))
  /\
  (forall st, Db.session st userId = Some game ->
     exists e, Db.makeGuess st clk userId guess = (Returned (GuessError e), st)).
Proof.
  intros Hin; apply includes_In in Hin; split; intros st Hs.
  - apply Mem_session_inv in Hs as (ug & Hug & Hg).
    unfold Mem.makeGuess; rewrite Hug, Hg, Hin.
    destruct (gameOver game); eauto.
  - apply Db_session_inv in Hs as (ug & Hug & Hg).
    unfold Db.makeGuess; rewrite Hug, Hg, Hin.
    destruct (gameOver game); eauto.
Qed.

(** C3 at a sample: guessing 50 again in a session that already holds 50. *)
Lemma makeGuess_duplicate_rejected_witness :
  (exists e, Mem.makeGuess (Samples.memWith (Samples.playing Samples.session42))
               Samples.clock 1 50
             = (GuessError e, Samples.memWith (Samples.playing Samples.session42)))
  /\
  (exists e, Db.makeGuess (Samples.dbWith (Samples.playing Samples.session42))
               Samples.clock 1 50
             = (Returned (GuessError e),
                Samples.dbWith (Samples.playing Samples.session42))).
Proof.
  assert (Hin : In 50 (previousGuesses Samples.session42)) by (simpl; auto).
  split.
  - apply (proj1 (makeGuess_duplicate_rejected Samples.session42 50 1 Samples.clock Hin)).
    reflexivity.
  - apply (proj2 (makeGuess_duplicate_rejected Samples.session42 50 1 Samples.clock Hin)).
    reflexivity.
Defined.

(** C4.  In a session in progress, a fresh wrong guess that brings the attempt
    count to the maximum of 10 is answered with [isCorrect = false], no
    attempts left and the target revealed in [correctNumber]; the session is
    stored game-over, and the ledger (scores and catalog) is untouched.  Both
    stores. *)
Theorem makeGuess_last_wrong_guess
    (game : GuessingState) (guess userId : Z) (clk : Clock) :
  gameOver game = false ->
  ~ In guess (previousGuesses game) ->
  guess <> targetNumber game ->
  maxAttempts game = 10 ->
  attempts game + 1 = 10 ->
  (forall st, Mem.session st userId = Some game ->
     exists reply st' game',
       Mem.makeGuess st clk userId guess = (GuessOk reply, st')
       /\ isCorrect reply = false
       /\ attemptsLeft reply = 0
       /\ correctNumber reply = Some (targetNumber game)
       /\ Mem.session st' userId = Some game'
       /\ gameOver game' = true /\ attempts game' = 10
       /\ Mem.scores st' = Mem.scores st /\ Mem.games st' = Mem.games st)
  /\
  (forall st, Db.session st userId = Some game ->
     exists reply st' game',
       Db.makeGuess st clk userId guess = (Returned (GuessOk reply), st')
       /\ isCorrect reply = false
       /\ attemptsLeft reply = 0
       /\ correctNumber reply = Some (targetNumber game)
       /\ Db.session st' userId = Some game'
       /\ gameOver game' = true /\ attempts game' = 10
       /\ Db.scores st' = Db.scores st /\ Db.games st' = Db.games st).
Proof.
  intros Hover Hfresh Hwrong Hmax Hatt.
  assert (Hinc : includes guess (previousGuesses game) = false).
  { destruct (includes guess (previousGuesses game)) eqn:E; auto.
    apply includes_In in E; contradiction. }
  assert (Hne : (guess =? targetNumber game) = false) by now apply Z.eqb_neq.
  assert (Hfin : forall msg,
             finishGuess (recordGuess game guess) msg false
             = (setGameOver (recordGuess game guess),
                {| message := msg; isCorrect := false; attemptsLeft := 0;
                   reply_previousGuesses := previousGuesses game ++ [guess];
                   correctNumber := Some (targetNumber game) |})).
  { intros msg; unfold finishGuess; cbn [maxAttempts attempts recordGuess].
    replace (maxAttempts game - (attempts game + 1)) with 0 by lia.
    reflexivity. }
  split; intros st Hs.
  - apply Mem_session_inv in Hs as (ug & Hug & Hg).
    unfold Mem.makeGuess; rewrite Hug, Hg, Hover, Hinc.
    cbn [targetNumber recordGuess]; rewrite Hne.
    destruct (guess <? targetNumber game); rewrite Hfin;
      do 3 eexists; (split; [reflexivity|]);
      cbn [isCorrect attemptsLeft correctNumber];
      rewrite Mem_session_stored; cbn; repeat split; auto.
  - apply Db_session_inv in Hs as (ug & Hug & Hg).
    unfold Db.makeGuess; rewrite Hug, Hg, Hover, Hinc.
    cbn [targetNumber recordGuess]; rewrite Hne, Hfin.
    do 3 eexists; (split; [reflexivity|]);
      cbn [isCorrect attemptsLeft correctNumber];
      rewrite Db_session_stored; cbn; repeat split; auto.
Qed.

(** C4 at a sample: the tenth guess, 10, against the target 42, in both
    stores. *)
Lemma makeGuess_last_wrong_guess_witness :
  (exists reply st' game',
     Mem.makeGuess (Samples.memWith (Samples.playing Samples.session42last))
       Samples.clock 1 10 = (GuessOk reply, st')
     /\ isCorrect reply = false
     /\ attemptsLeft reply = 0
     /\ correctNumber reply = Some 42
     /\ Mem.session st' 1 = Some game'
     /\ gameOver game' = true /\ attempts game' = 10
     /\ Mem.scores st' = [] /\ Mem.games st' = [])
  /\
  (exists reply st' game',
     Db.makeGuess (Samples.dbWith (Samples.playing Samples.session42last))
       Samples.clock 1 10 = (Returned (GuessOk reply), st')
     /\ isCorrect reply = false
     /\ attemptsLeft reply = 0
     /\ correctNumber reply = Some 42
     /\ Db.session st' 1 = Some game'
     /\ gameOver game' = true /\ attempts game' = 10
     /\ Db.scores st' = [] /\ Db.games st' = Samples.seededGames).
Proof.
  assert (Hfresh : ~ In 10 (previousGuesses Samples.session42last))
    by (simpl; intuition lia).
  assert (Hwrong : 10 <> targetNumber Samples.session42last) by discriminate.
  split.
  - exact (proj1 (makeGuess_last_wrong_guess Samples.session42last 10 1 Samples.clock
                    eq_refl Hfresh Hwrong eq_refl eq_refl)
                 (Samples.memWith (Samples.playing Samples.session42last)) eq_refl).
  - exact (proj2 (makeGuess_last_wrong_guess Samples.session42last 10 1 Samples.clock
                    eq_refl Hfresh Hwrong eq_refl eq_refl)
                 (Samples.dbWith (Samples.playing Samples.session42last)) eq_refl).
Defined.

(** The specification's example: target 42; 50 is too high with 9 attempts
    left; 42 is correct and the score recorded is 2. *)
Example guessing_example :
  fst (Mem.makeGuess (Mem.startGuessingGame Samples.mem 41 1) Samples.clock 1 50)
  = GuessOk {| message := "too high"; isCorrect := false; attemptsLeft := 9;
               reply_previousGuesses := [50]; correctNumber := None |}
  /\ fst (Mem.makeGuess
            (snd (Mem.makeGuess (Mem.startGuessingGame Samples.mem 41 1) Samples.clock 1 50))
            Samples.clock 1 42)
     = GuessOk {| message := "correct"; isCorrect := true; attemptsLeft := 8;
                  reply_previousGuesses := [50; 42]; correctNumber := Some 42 |}
  /\ map score_value
         (Mem.userScoresOf
            (snd (Mem.makeGuess
                    (snd (Mem.makeGuess (Mem.startGuessingGame Samples.mem 41 1)
                            Samples.clock 1 50))
                    Samples.clock 1 42)) 1)
     = [Num.ofInt 2].
Proof. repeat split. Qed.

(** ** What [recordScore] does to each store *)

Lemma Mem_recordScore_frame (st : Mem.Storage) clk userId gameType value :
  Mem.users (Mem.recordScore st clk userId gameType value) = Mem.users st
  /\ Mem.userGames (Mem.recordScore st clk userId gameType value) = Mem.userGames st.
Proof.
  unfold Mem.recordScore.
  destruct (find _ (JsMap.values (Mem.games st))); split; reflexivity.
Qed.

Lemma Mem_recordScore_appends (st : Mem.Storage) clk userId gameType value :
  exists s,
    Mem.userScoresOf (Mem.recordScore st clk userId gameType value) userId
    = Mem.userScoresOf st userId ++ [s]
    /\ score_userId s = userId /\ score_value s = value.
Proof.
  unfold Mem.recordScore.
  destruct (find _ (JsMap.values (Mem.games st))); eexists;
    (split; [unfold Mem.userScoresOf at 1; cbn [Mem.scores];
             rewrite JsMap_get_set_same; reflexivity | split; reflexivity]).
Qed.

(** With the game row and the user row in place, [recordScore] stores the
    score and then rejects. *)
Lemma Db_recordScore_stores (st : Db.Storage) clk userId gameType value g u :
  find (fun g => String.eqb (game_type g) gameType) (Db.games st) = Some g ->
  Db.getUser st userId = Some u ->
  exists s,
    Db.recordScore st clk userId gameType value
    = (Thrown "db.sql is not a function",
       {| Db.users := Db.users st; Db.games := Db.games st;
          Db.scores := Db.scores st ++ [s];
          Db.scoresSeq := Db.scoresSeq st + 1;
          Db.userGames := Db.userGames st |})
    /\ score_userId s = userId /\ score_gameId s = game_id g /\ score_value s = value.
Proof.
  intros Hg Hu.
  unfold Db.recordScore, Db.getGameIdByType, Db.insertScore; rewrite Hg.
  rewrite (Db_getUser_exists _ _ _ Hu); cbn [negb].
  replace (existsb (fun g0 => game_id g0 =? game_id g) (Db.games st)) with true.
  - eexists; split; [reflexivity|]; repeat split.
  - symmetry; apply existsb_exists; exists g; split.
    + now apply find_some in Hg.
    + apply Z.eqb_refl.
Qed.

Lemma Db_recordScore_throws (st : Db.Storage) clk userId gameType value :
  find (fun g => String.eqb (game_type g) gameType) (Db.games st) = None ->
  Db.recordScore st clk userId gameType value
  = (Thrown ("Game type " ++ gameType ++ " not found")%string, st).
Proof.
  intros Hg; unfold Db.recordScore, Db.getGameIdByType; now rewrite Hg.
Qed.

Lemma finishGuess_correct (g : GuessingState) :
  gameOver g = true ->
  finishGuess g "correct" true
  = (g, {| message := "correct"; isCorrect := true;
           attemptsLeft := maxAttempts g - attempts g;
           reply_previousGuesses := previousGuesses g;
           correctNumber := Some (targetNumber g) |}).
Proof.
  intros Hg; unfold finishGuess.
  rewrite andb_false_r, Hg; reflexivity.
Qed.

(** What a fresh guess equal to the target does, in general.  [MemStorage]
    answers [message = "correct"] and [isCorrect = true], stores the session
    game-over with the guess counted, and appends one score whose value is the
    number of attempts including this guess.  [DatabaseStorage], when the
    [games] table has a [guessing] row and the user's row exists, stores the
    session game-over and the score likewise, and then rejects: [recordScore]
    throws after its insert, so no reply is made.  Without the [guessing] row it
    rejects with [Game type guessing not found] and records no score. *)
Lemma makeGuess_correct_guess
    (game : GuessingState) (guess userId : Z) (clk : Clock) :
  gameOver game = false ->
  ~ In guess (previousGuesses game) ->
  guess = targetNumber game ->
  (forall st, Mem.session st userId = Some game ->
     exists reply st' game' s,
       Mem.makeGuess st clk userId guess = (GuessOk reply, st')
       /\ message reply = "correct" /\ isCorrect reply = true
       /\ Mem.session st' userId = Some game'
       /\ gameOver game' = true /\ attempts game' = attempts game + 1
       /\ Mem.userScoresOf st' userId = Mem.userScoresOf st userId ++ [s]
       /\ score_value s = Num.ofInt (attempts game + 1))
  /\
  (forall st g u,
     Db.session st userId = Some game ->
     find (fun g => String.eqb (game_type g) "guessing") (Db.games st) = Some g ->
     Db.getUser st userId = Some u ->
     exists st' game' s,
       Db.makeGuess st clk userId guess = (Thrown "db.sql is not a function", st')
       /\ Db.session st' userId = Some game'
       /\ gameOver game' = true /\ attempts game' = attempts game + 1
       /\ Db.scores st' = Db.scores st ++ [s]
       /\ score_userId s = userId /\ score_gameId s = game_id g
       /\ score_value s = Num.ofInt (attempts game + 1)
       /\ Db.users st' = Db.users st)
  /\
  (forall st,
     Db.session st userId = Some game ->
     find (fun g => String.eqb (game_type g) "guessing") (Db.games st) = None ->
     exists st',
       Db.makeGuess st clk userId guess = (Thrown "Game type guessing not found", st')
       /\ Db.scores st' = Db.scores st).
Proof.
  intros Hover Hfresh Hhit.
  assert (Hinc : includes guess (previousGuesses game) = false).
  { destruct (includes guess (previousGuesses game)) eqn:E; auto.
    apply includes_In in E; contradiction. }
  assert (Heq : (guess =? targetNumber game) = true) by now apply Z.eqb_eq.
  split; [|split].
  - intros st Hs. apply Mem_session_inv in Hs as (ug & Hug & Hg).
    unfold Mem.makeGuess; rewrite Hug, Hg, Hover, Hinc.
    cbn [targetNumber recordGuess]; rewrite Heq.
    rewrite finishGuess_correct by reflexivity.
    destruct (Mem_recordScore_appends st clk userId "guessing"
                (Num.ofInt (attempts (recordGuess game guess)))) as (s & Happ & _ & Hval).
    do 4 eexists; split; [reflexivity|].
    cbn [message isCorrect]; rewrite Mem_session_stored.
    repeat split; try reflexivity.
    + unfold Mem.userScoresOf in *; cbn [Mem.scores Mem.withUserGames]; exact Happ.
    + exact Hval.
  - intros st g u Hs Hg Hu. apply Db_session_inv in Hs as (ug & Hug & Hgs).
    unfold Db.makeGuess; rewrite Hug, Hgs, Hover, Hinc.
    cbn [targetNumber recordGuess]; rewrite Heq.
    destruct (Db_recordScore_stores st clk userId "guessing"
                (Num.ofInt (attempts (setGameOver (recordGuess game guess)))) g u Hg Hu)
      as (s & -> & Huid & Hgid & Hval).
    do 3 eexists; split; [reflexivity|].
    rewrite Db_session_stored.
    repeat split; try reflexivity; assumption.
  - intros st Hs Hg. apply Db_session_inv in Hs as (ug & Hug & Hgs).
    unfold Db.makeGuess; rewrite Hug, Hgs, Hover, Hinc.
    cbn [targetNumber recordGuess]; rewrite Heq.
    rewrite Db_recordScore_throws by exact Hg.
    eexists; split; reflexivity.
Qed.

(** C2 at the failing input.  Alice's session has the target 42 and one wrong
    guess; the database is seeded.  She guesses 42.  [MemStorage] answers
    "correct", closes the session and records the score 2.
    [DatabaseStorage.makeGuess] closes the session and stores the score 2 as
    well, but makes no reply: it rejects, because [recordScore] throws after
    its insert ([db.sql] at line 983), so the route answers 400
    [Invalid guess]. *)
Lemma makeGuess_correct_guess_rejected :
  Db.session (Samples.dbWith (Samples.playing Samples.session42)) 1
  = Some Samples.session42
  /\ gameOver Samples.session42 = false
  /\ ~ In 42 (previousGuesses Samples.session42)
  /\ targetNumber Samples.session42 = 42
  /\ fst (Mem.makeGuess (Samples.memWith (Samples.playing Samples.session42))
            Samples.clock 1 42)
     = GuessOk {| message := "correct"; isCorrect := true; attemptsLeft := 8;
                  reply_previousGuesses := [50; 42]; correctNumber := Some 42 |}
  /\ fst (Db.makeGuess (Samples.dbWith (Samples.playing Samples.session42))
            Samples.clock 1 42)
     = Thrown "db.sql is not a function"
  /\ map ledgerLine
         (Db.scores (snd (Db.makeGuess (Samples.dbWith (Samples.playing Samples.session42))
                            Samples.clock 1 42)))
     = [(1, 1, Num.ofInt 2)]
  /\ option_map gameOver
       (Db.session (snd (Db.makeGuess (Samples.dbWith (Samples.playing Samples.session42))
                           Samples.clock 1 42)) 1) = Some true.
Proof.
  repeat split; try reflexivity.
  simpl; intuition discriminate.
Qed.

(** On a database whose catalog has no [guessing] row the correct guess is
    rejected by the guard of [getGameIdByType]: nothing is recorded, and the
    session is left game-over. *)
Lemma makeGuess_correct_guess_unseeded :
  Db.session (Samples.dbUnseededWith (Samples.playing Samples.session42)) 1
  = Some Samples.session42
  /\ gameOver Samples.session42 = false
  /\ ~ In 42 (previousGuesses Samples.session42)
  /\ targetNumber Samples.session42 = 42
  /\ fst (Db.makeGuess (Samples.dbUnseededWith (Samples.playing Samples.session42))
            Samples.clock 1 42)
     = Thrown "Game type guessing not found"
  /\ Db.scores (snd (Db.makeGuess (Samples.dbUnseededWith (Samples.playing Samples.session42))
                       Samples.clock 1 42)) = []
  /\ option_map gameOver
       (Db.session (snd (Db.makeGuess (Samples.dbUnseededWith (Samples.playing Samples.session42))
                           Samples.clock 1 42)) 1) = Some true.
Proof.
  repeat split; try reflexivity.
  simpl; intuition discriminate.
Qed.

(** ** The games-played counter *)







(** At a sample: a red-light score of alice is recorded in the seeded database.
    The row is stored, the call rejects, and her counter stays 0. *)
Example recordScore_leaves_the_counter :
  option_map gamesPlayed (Db.getUser Samples.db 1) = Some 0
  /\ fst (Db.recordScore Samples.db Samples.clock 1 "redlight" (Num.Tenths 98))
     = Thrown "db.sql is not a function"
  /\ map ledgerLine
         (Db.scores (snd (Db.recordScore Samples.db Samples.clock 1 "redlight"
                            (Num.Tenths 98))))
     = [(1, 3, Num.Tenths 98)]
  /\ option_map gamesPlayed
       (Db.getUser
          (snd (Db.recordScore Samples.db Samples.clock 1 "redlight" (Num.Tenths 98))) 1)
     = Some 0.
Proof. repeat split. Qed.


(** ** The catalog entry of a score *)

Lemma getGameName_unknown (type : string) :
  ~ In type knownGameTypes -> getGameName type = "Unknown Game".
Proof.
  intros Hn; unfold getGameName.
  repeat match goal with
         | |- context [String.eqb type ?s] =>
             destruct (String.eqb_spec type s) as [->|_];
             [exfalso; apply Hn; simpl; tauto|]
         end.
  reflexivity.
Qed.

(** C8, as the code has it.  When no catalog entry has the game type,
    [MemStorage.recordScore] creates one under the next id, named by
    [getGameName] (which answers ["Unknown Game"] for a type outside the five
    known ones), and files the score under it; [DatabaseStorage.recordScore]
    creates nothing: it rejects with [Game type <type> not found] and leaves
    the store as it was. *)
Theorem recordScore_without_catalog_entry (gameType : string) :
  (forall st clk userId value,
     find (fun g => String.eqb (game_type g) gameType) (JsMap.values (Mem.games st)) = None ->
     Mem.games (Mem.recordScore st clk userId gameType value)
     = JsMap.set (JsMap.size (Mem.games st) + 1)
         {| game_id := JsMap.size (Mem.games st) + 1;
            game_type := gameType;
            game_name := getGameName gameType;
            game_createdAt := nowIso clk |}
         (Mem.games st)
     /\ exists s,
          Mem.userScoresOf (Mem.recordScore st clk userId gameType value) userId
          = Mem.userScoresOf st userId ++ [s]
          /\ score_gameId s = JsMap.size (Mem.games st) + 1
          /\ score_value s = value)
  /\
  (~ In gameType knownGameTypes -> getGameName gameType = "Unknown Game")
  /\
  (forall st clk userId value,
     find (fun g => String.eqb (game_type g) gameType) (Db.games st) = None ->
     Db.recordScore st clk userId gameType value
     = (Thrown ("Game type " ++ gameType ++ " not found")%string, st)).
Proof.
  split; [|split].
  - intros st clk userId value Hnone.
    unfold Mem.recordScore; rewrite Hnone; split; [reflexivity|].
    eexists; split.
    + unfold Mem.userScoresOf at 1; cbn [Mem.scores].
      rewrite JsMap_get_set_same; reflexivity.
    + split; reflexivity.
  - apply getGameName_unknown.
  - intros; now apply Db_recordScore_throws.
Qed.

(** C8 at a sample: a score of the unknown type [chess] in each store. *)
Lemma recordScore_without_catalog_entry_witness :
  Mem.games (Mem.recordScore Samples.mem Samples.clock 1 "chess" (Num.ofInt 7))
  = [(1, {| game_id := 1; game_type := "chess"; game_name := "Unknown Game";
            game_createdAt := nowIso Samples.clock |})]
  /\
  Db.recordScore Samples.db Samples.clock 1 "chess" (Num.ofInt 7)
  = (Thrown "Game type chess not found", Samples.db).
Proof.
  split.
  - exact (proj1 (proj1 (recordScore_without_catalog_entry "chess")
                        Samples.mem Samples.clock 1 (Num.ofInt 7) eq_refl)).
  - exact (proj2 (proj2 (recordScore_without_catalog_entry "chess"))
                 Samples.db Samples.clock 1 (Num.ofInt 7) eq_refl).
Defined.

(** C8 fails as stated on the database store: a score of a type without
    catalog entry raises an error, and no entry is created. *)
Lemma recordScore_unknown_type_rejected :
  find (fun g => String.eqb (game_type g) "chess") (Db.games Samples.db) = None
  /\ fst (Db.recordScore Samples.db Samples.clock 1 "chess" (Num.ofInt 7))
     = Thrown "Game type chess not found"
  /\ Db.games (snd (Db.recordScore Samples.db Samples.clock 1 "chess" (Num.ofInt 7)))
     = Db.games Samples.db.
Proof. repeat split. Qed.

(** ** The prize wheel *)


(** The accumulated weights, in binary64: the last one is exactly 1. *)
Lemma cumulativeAfter_values :
  map cumulativeAfter [1; 2; 3; 4; 5; 6; 7; 8]%nat
  = [0.2; 0.35; 0.44999999999999996; 0.49999999999999994;
     0.75; 0.9; 0.9500000000000001; 1]%float.
Proof. vm_compute; reflexivity. Qed.





(** The draw 0.7 selects "Try Again". *)
Example selectPrize_try_again :
  prize_label (selectPrize 0.7) = "Try Again" /\ prize_value (selectPrize 0.7) = 0.
Proof. split; vm_compute; reflexivity. Qed.

(** The initial value of [selectedPrize] is the first prize: it is what the
    loop leaves for a number no range matches, such as 2 (not a draw of
    [Math.random()]). *)
Example selectPrize_default_is_first :
  selectPrize 2 = nth 0 prizes noPrize.
Proof. vm_compute; reflexivity. Qed.

(** ** The two [spinWheel] methods side by side *)

Lemma Mem_ledgerOf_recordScore (st : Mem.Storage) clk userId gameType value g u' :
  find (fun g => String.eqb (game_type g) gameType) (JsMap.values (Mem.games st)) = Some g ->
  Mem.ledgerOf (Mem.recordScore st clk userId gameType value) u'
  = Mem.ledgerOf st u'
    ++ (if userId =? u' then [(userId, game_id g, value)] else []).
Proof.
  intros Hg; unfold Mem.recordScore, Mem.ledgerOf; rewrite Hg.
  unfold Mem.userScoresOf at 1; cbn [Mem.scores].
  destruct (userId =? u') eqn:E.
  - apply Z.eqb_eq in E; subst u'.
    rewrite JsMap_get_set_same, map_app; reflexivity.
  - apply Z.eqb_neq in E.
    rewrite JsMap_get_set_other by congruence.
    now rewrite app_nil_r.
Qed.

Lemma Db_ledgerOf_append (st : Db.Storage) (s : Score) (f : Z -> Z) users' seq' u' :
  Db.ledgerOf {| Db.users := users'; Db.games := Db.games st;
                 Db.scores := Db.scores st ++ [s];
                 Db.scoresSeq := seq'; Db.userGames := Db.userGames st |} u'
  = Db.ledgerOf st u'
    ++ (if score_userId s =? u' then [ledgerLine s] else []).
Proof.
  unfold Db.ledgerOf; cbn [Db.scores].
  rewrite filter_app, map_app; cbn [filter].
  destruct (score_userId s =? u'); reflexivity.
Qed.

(** What the two [spinWheel] methods agree on.  Take a [MemStorage] and a
    [DatabaseStorage] with the same catalog, holding the [spinwheel] game, the
    same ledger and the same row for the user, and the same two draws.  Both
    methods leave the same catalog and the same ledger.  On a prize without
    value the database method returns the object the in-memory one returns; on
    a prize with a value it rejects, after storing the score, and leaves the
    user's row as it was. *)
Lemma spinWheel_same_ledger
    (m : Mem.Storage) (d : Db.Storage) (clk : Clock)
    (random random2 : float) (userId : Z) (u : User) (g : Game) :
  JsMap.values (Mem.games m) = Db.games d ->
  (forall u', Mem.ledgerOf m u' = Db.ledgerOf d u') ->
  JsMap.get userId (Mem.users m) = Some u ->
  Db.getUser d userId = Some u ->
  find (fun g => String.eqb (game_type g) "spinwheel") (Db.games d) = Some g ->
  JsMap.values (Mem.games (snd (Mem.spinWheel m clk random random2 userId)))
  = Db.games (snd (Db.spinWheel d clk random random2 userId))
  /\ (forall u', Mem.ledgerOf (snd (Mem.spinWheel m clk random random2 userId)) u'
                 = Db.ledgerOf (snd (Db.spinWheel d clk random random2 userId)) u')
  /\ Db.users (snd (Db.spinWheel d clk random random2 userId)) = Db.users d
  /\ fst (Db.spinWheel d clk random random2 userId)
     = (if prize_value (selectPrize random) >? 0
        then Thrown "db.sql is not a function"
        else Returned (fst (Mem.spinWheel m clk random random2 userId))).
Proof.
  intros Hcat Hled Hmu Hdu Hg.
  unfold Mem.spinWheel, Db.spinWheel; cbn [fst snd].
  destruct (prize_value (selectPrize random) >? 0) eqn:Hpos.
  - destruct (Db_recordScore_stores d clk userId "spinwheel"
                (Num.ofInt (prize_value (selectPrize random))) g u Hg Hdu)
      as (s & -> & Huid & Hgid & Hval).
    assert (Hmg : find (fun g => String.eqb (game_type g) "spinwheel")
                    (JsMap.values (Mem.games m)) = Some g) by now rewrite Hcat.
    cbn [fst snd]. split; [|split; [|split; reflexivity]].
    + unfold Mem.countGamePlayed.
      destruct (JsMap.get userId (Mem.users (Mem.recordScore m clk userId _ _)));
        cbn [Mem.games Mem.withUsers Db.games];
        unfold Mem.recordScore; rewrite Hmg; exact Hcat.
    + intros u'.
      transitivity (Mem.ledgerOf (Mem.recordScore m clk userId "spinwheel"
                                    (Num.ofInt (prize_value (selectPrize random)))) u').
      { unfold Mem.countGamePlayed.
        destruct (JsMap.get userId (Mem.users (Mem.recordScore m clk userId _ _)));
          reflexivity. }
      rewrite (Mem_ledgerOf_recordScore _ _ _ _ _ g) by exact Hmg.
      rewrite (Db_ledgerOf_append d s (fun n => n + 1)).
      rewrite Hled, Huid. unfold ledgerLine; rewrite Huid, Hgid, Hval. reflexivity.
  - cbn [fst snd]. split; [|split; [|split; reflexivity]].
    + unfold Mem.countGamePlayed; rewrite Hmu; exact Hcat.
    + intros u'; unfold Mem.countGamePlayed; rewrite Hmu; apply Hled.
Qed.

(** C10 at the failing inputs.  The two stores hold the same seeded catalog, an
    empty ledger and alice with a counter of 0.  On the draw 0.1 (100 Points)
    [MemStorage.spinWheel] returns the prize, records 100 points and counts the
    spin; [DatabaseStorage.spinWheel] records the 100 points too but rejects
    ([recordScore] throws after its insert) and leaves the counter at 0.  On
    the draw 0.7 (Try Again) both return the same object and record nothing,
    and again only [MemStorage] counts the spin. *)
Lemma spinWheel_stores_disagree :
  JsMap.values (Mem.games Samples.memSeeded) = Db.games Samples.db
  /\ (forall u', Mem.ledgerOf Samples.memSeeded u' = Db.ledgerOf Samples.db u')
  /\ JsMap.get 1 (Mem.users Samples.memSeeded) = Db.getUser Samples.db 1
  /\ spin_prize (fst (Mem.spinWheel Samples.memSeeded Samples.clock 0.1 0.5 1))
     = "100 Points"
  /\ spin_value (fst (Mem.spinWheel Samples.memSeeded Samples.clock 0.1 0.5 1)) = 100
  /\ fst (Db.spinWheel Samples.db Samples.clock 0.1 0.5 1)
     = Thrown "db.sql is not a function"
  /\ Mem.ledgerOf (snd (Mem.spinWheel Samples.memSeeded Samples.clock 0.1 0.5 1)) 1
     = [(1, 2, Num.ofInt 100)]
  /\ Db.ledgerOf (snd (Db.spinWheel Samples.db Samples.clock 0.1 0.5 1)) 1
     = [(1, 2, Num.ofInt 100)]
  /\ option_map gamesPlayed
       (JsMap.get 1 (Mem.users (snd (Mem.spinWheel Samples.memSeeded Samples.clock 0.1 0.5 1))))
     = Some 1
  /\ option_map gamesPlayed
       (Db.getUser (snd (Db.spinWheel Samples.db Samples.clock 0.1 0.5 1)) 1)
     = Some 0
  /\ fst (Db.spinWheel Samples.db Samples.clock 0.7 0.5 1)
     = Returned (fst (Mem.spinWheel Samples.memSeeded Samples.clock 0.7 0.5 1))
  /\ spin_prize (fst (Mem.spinWheel Samples.memSeeded Samples.clock 0.7 0.5 1))
     = "Try Again"
  /\ option_map gamesPlayed
       (JsMap.get 1 (Mem.users (snd (Mem.spinWheel Samples.memSeeded Samples.clock 0.7 0.5 1))))
     = Some 1
  /\ option_map gamesPlayed
       (Db.getUser (snd (Db.spinWheel Samples.db Samples.clock 0.7 0.5 1)) 1)
     = Some 0.
Proof. repeat split; vm_compute; reflexivity. Qed.

(** When neither catalog holds the [spinwheel] game yet, on the draw 0.1
    [MemStorage.spinWheel] returns the prize and records 100 points, while
    [DatabaseStorage.spinWheel] is rejected by the guard of [getGameIdByType]
    and records nothing. *)
Lemma spinWheel_unseeded_stores_differ :
  JsMap.values (Mem.games Samples.mem) = Db.games Samples.dbUnseeded
  /\ (forall u', Mem.ledgerOf Samples.mem u' = Db.ledgerOf Samples.dbUnseeded u')
  /\ JsMap.get 1 (Mem.users Samples.mem) = Db.getUser Samples.dbUnseeded 1
  /\ spin_prize (fst (Mem.spinWheel Samples.mem Samples.clock 0.1 0.5 1)) = "100 Points"
  /\ Mem.ledgerOf (snd (Mem.spinWheel Samples.mem Samples.clock 0.1 0.5 1)) 1
     = [(1, 1, Num.ofInt 100)]
  /\ fst (Db.spinWheel Samples.dbUnseeded Samples.clock 0.1 0.5 1)
     = Thrown "Game type spinwheel not found"
  /\ Db.ledgerOf (snd (Db.spinWheel Samples.dbUnseeded Samples.clock 0.1 0.5 1)) 1 = [].
Proof. repeat split; vm_compute; reflexivity. Qed.

(** On a draw of "Try Again" the two methods disagree on the counter:
    [MemStorage.spinWheel] counts the spin, [DatabaseStorage.spinWheel], whose
    only counter update is the one inside [recordScore], does not. *)
Lemma spinWheel_try_again_counter :
  prize_label (selectPrize 0.7) = "Try Again"
  /\ option_map gamesPlayed
       (JsMap.get 1 (Mem.users (snd (Mem.spinWheel Samples.memSeeded Samples.clock 0.7 0.5 1))))
     = Some 1
  /\ option_map gamesPlayed
       (Db.getUser (snd (Db.spinWheel Samples.db Samples.clock 0.7 0.5 1)) 1)
     = Some 0.
Proof. repeat split; vm_compute; reflexivity. Qed.

(** ** The winner broadcast *)

(** Neither object literal of the submit methods has an [isHighScore]
    property. *)
Lemma submit_results_lack_isHighScore :
  (forall leaderboard, getProp (Db.typeRacerResult leaderboard) "isHighScore" = None)
  /\ (forall stats, getProp (Db.breadResult stats) "isHighScore" = None).
Proof. split; intros; reflexivity. Qed.


(** C1 at the failing input.  The database is seeded, alice has no typing score
    and no bread score on record, so 50 WPM and 500 points are new bests, and
    one viewer is open.  Each submission is stored, and yet the route answers
    400 and sends no message: [recordScore] rejects after its insert ([db.sql]
    at line 983), which takes the route to its [catch].  Had the submit method
    returned, the route would still have sent nothing: it tests
    [result.isHighScore], a property neither result object has
    ([submit_results_lack_isHighScore]). *)
Lemma new_best_is_not_announced :
  Db.isNewBest Samples.db 1 "typeracer" (Num.ofInt 50) = true
  /\ Routes.status
       (fst (fst (Routes.postTypeRacerScore Samples.db Samples.viewers Samples.clock
                    Samples.alice
                    {| Routes.body_wpm := Some (Num.ofInt 50);
                       Routes.body_accuracy := Some (Num.ofInt 95) |}))) = 400
  /\ Db.valuesOf
       (snd (Routes.postTypeRacerScore Samples.db Samples.viewers Samples.clock
               Samples.alice
               {| Routes.body_wpm := Some (Num.ofInt 50);
                  Routes.body_accuracy := Some (Num.ofInt 95) |})) 1 "typeracer"
     = [Num.ofInt 50]
  /\ snd (fst (Routes.postTypeRacerScore Samples.db Samples.viewers Samples.clock
                 Samples.alice
                 {| Routes.body_wpm := Some (Num.ofInt 50);
                    Routes.body_accuracy := Some (Num.ofInt 95) |})) = []
  /\ Db.isNewBest Samples.db 1 "cse17" (Num.ofInt 500) = true
  /\ Routes.status
       (fst (fst (Routes.postBreadScore Samples.db Samples.viewers Samples.clock
                    Samples.alice (Some (Num.ofInt 500))))) = 400
  /\ Db.valuesOf
       (snd (Routes.postBreadScore Samples.db Samples.viewers Samples.clock
               Samples.alice (Some (Num.ofInt 500)))) 1 "cse17"
     = [Num.ofInt 500]
  /\ snd (fst (Routes.postBreadScore Samples.db Samples.viewers Samples.clock
                 Samples.alice (Some (Num.ofInt 500)))) = []
  /\ (forall leaderboard,
        truthy (getProp (Db.typeRacerResult leaderboard) "isHighScore") = false)
  /\ (forall stats, truthy (getProp (Db.breadResult stats) "isHighScore") = false)
  /\ Routes.broadcastLeaderboard Samples.db Samples.viewers "typeracer" None
     = [(10, {| Routes.msg_type := "leaderboard"; Routes.msg_data := [];
                Routes.msg_winner := None |})].
Proof. repeat split; vm_compute; reflexivity. Qed.

(** ** [Array.prototype.sort] *)

Lemma Qcompare_minus (x y : Q) : (x - y ?= 0)%Q = (x ?= y)%Q.
Proof.
  destruct (Qcompare_spec x y) as [E|L|G].
  - apply (proj1 (Qeq_alt _ _)); lra.
  - apply (proj1 (Qlt_alt _ _)); lra.
  - apply (proj1 (Qgt_alt _ _)); lra.
Qed.

Section SortFacts.

Context {A : Type} (comparefn : A -> A -> option Q).

Lemma insertSorted_perm (x : A) (l : list A) :
  Permutation (x :: l) (insertSorted comparefn x l).
Proof.
  induction l as [|y l IH]; simpl; auto.
  destruct (sortCompare comparefn x y); auto.
  rewrite perm_swap; auto.
Qed.

Lemma sort_perm (l : list A) : Permutation l (sort comparefn l).
Proof.
  induction l as [|x l IH]; simpl; auto.
  rewrite <- insertSorted_perm; auto.
Qed.

Lemma sort_In (l : list A) (x : A) : In x (sort comparefn l) <-> In x l.
Proof.
  split; apply Permutation_in; [symmetry|]; apply sort_perm.
Qed.

Lemma sort_length (l : list A) : List.length (sort comparefn l) = List.length l.
Proof. symmetry; apply Permutation_length, sort_perm. Qed.

(** When the comparator orders the elements of the array by a key, the
    result is in non-decreasing key order. *)
Variable key : A -> Q.

Let byKey (x y : A) : Prop := (key x <= key y)%Q.

Lemma insertSorted_sorted (x : A) (l : list A) :
  (forall y, In y l -> sortCompare comparefn x y = (key x ?= key y)%Q) ->
  StronglySorted byKey l ->
  StronglySorted byKey (insertSorted comparefn x l).
Proof.
  intros Hcmp Hs; induction Hs as [|y l Hs IH Hy]; simpl.
  - repeat constructor.
  - rewrite (Hcmp y) by (left; reflexivity).
    assert (Hle : (key x ?= key y)%Q <> Gt ->
                  StronglySorted byKey (x :: y :: l)).
    { intros Hng; apply (proj2 (Qle_alt _ _)) in Hng.
      constructor; [constructor; assumption|].
      constructor; [exact Hng|].
      eapply Forall_impl; [|exact Hy].
      intros z Hz; unfold byKey in *; lra. }
    destruct (key x ?= key y)%Q eqn:E;
      try (apply Hle; congruence).
    apply (proj2 (Qgt_alt _ _)) in E.
    constructor.
    + apply IH; intros z Hz; apply Hcmp; right; exact Hz.
    + rewrite <- insertSorted_perm.
      constructor; [unfold byKey; lra | exact Hy].
Qed.

Lemma sort_sorted (l : list A) :
  (forall x y, In x l -> In y l -> sortCompare comparefn x y = (key x ?= key y)%Q) ->
  StronglySorted byKey (sort comparefn l).
Proof.
  induction l as [|x l IH]; intros Hcmp; simpl.
  - constructor.
  - apply insertSorted_sorted.
    + intros y Hy; apply (proj1 (sort_In _ _)) in Hy.
      apply Hcmp; [left; reflexivity | right; exact Hy].
    + apply IH; intros a b Ha Hb; apply Hcmp; right; assumption.
Qed.

End SortFacts.

(** Sorting the images under [f] is sorting by the comparator read through [f]. *)
Lemma insertSorted_map {A B} (f : A -> B) (comparefn : B -> B -> option Q)
    (x : A) (l : list A) :
  insertSorted comparefn (f x) (map f l)
  = map f (insertSorted (fun a b => comparefn (f a) (f b)) x l).
Proof.
  induction l as [|y l IH]; simpl; auto.
  unfold sortCompare.
  destruct (comparefn (f x) (f y)) as [v|]; [destruct (v ?= 0)%Q|]; simpl; auto.
  now rewrite IH.
Qed.

Lemma sort_map {A B} (f : A -> B) (comparefn : B -> B -> option Q) (l : list A) :
  sort comparefn (map f l)
  = map f (sort (fun a b => comparefn (f a) (f b)) l).
Proof.
  induction l as [|x l IH]; simpl; auto.
  now rewrite IH, insertSorted_map.
Qed.

(** Ranks are handed out in sequence. *)
Lemma assignRanks_ranks {A} (setRank : A -> Z -> A) (getRank : A -> Z)
    (r : Z) (l : list A) :
  (forall a n, getRank (setRank a n) = n) ->
  map getRank (assignRanks setRank r l)
  = map (fun i => r + Z.of_nat i) (seq 0 (List.length l)).
Proof.
  intros Hgs; revert r; induction l as [|a l IH]; intros r; simpl; auto.
  rewrite Hgs, IH, <- seq_shift, map_map. f_equal; [lia|].
  apply map_ext; intros i; lia.
Qed.

Lemma assignRanks_length {A} (setRank : A -> Z -> A) (r : Z) (l : list A) :
  List.length (assignRanks setRank r l) = List.length l.
Proof. revert r; induction l; intros; simpl; auto. Qed.

Lemma assignRanks_Forall2 {A} (setRank : A -> Z -> A) (r : Z) (l : list A) :
  Forall2 (fun a b => exists n, b = setRank a n) l (assignRanks setRank r l).
Proof. revert r; induction l; intros; simpl; constructor; eauto. Qed.

(** ** The typing leaderboard *)

Lemma JsMap_get_In {V} (k : Z) (v : V) (m : JsMap.t V) :
  NoDup (JsMap.keys m) -> In (k, v) m -> JsMap.get k m = Some v.
Proof.
  unfold JsMap.keys; induction m as [|[k' v'] m IH]; simpl; [tauto|].
  intros Hnd [E|Hin]; inversion Hnd as [|? ? Hnotin Hnd']; subst.
  - injection E as -> ->. now rewrite Z.eqb_refl.
  - destruct (k' =? k) eqn:E; [|auto].
    apply Z.eqb_eq in E; subst k'.
    exfalso; apply Hnotin. change k with (fst (k, v)); now apply in_map.
Qed.

Lemma JsMap_get_Some_In {V} (k : Z) (v : V) (m : JsMap.t V) :
  JsMap.get k m = Some v -> In (k, v) m.
Proof.
  induction m as [|[k' v'] m IH]; simpl; [discriminate|].
  destruct (k' =? k) eqn:E; [|auto].
  apply Z.eqb_eq in E; subst k'. intros [= ->]; auto.
Qed.

Lemma JsMap_keys_set {V} (k : Z) (v : V) (m : JsMap.t V) :
  JsMap.keys (JsMap.set k v m)
  = if JsMap.has k m then JsMap.keys m else JsMap.keys m ++ [k].
Proof.
  unfold JsMap.keys, JsMap.has; induction m as [|[k' v'] m IH]; simpl; auto.
  destruct (k' =? k) eqn:E; simpl; auto.
  rewrite IH. destruct (JsMap.get k m); reflexivity.
Qed.

Lemma JsMap_has_keys {V} (k : Z) (m : JsMap.t V) :
  JsMap.has k m = false -> ~ In k (JsMap.keys m).
Proof.
  unfold JsMap.keys, JsMap.has; induction m as [|[k' v'] m IH]; simpl; [tauto|].
  destruct (k' =? k) eqn:E; [discriminate|].
  apply Z.eqb_neq in E. intros H [E'|Hin]; [congruence|]. now apply IH.
Qed.

Lemma JsMap_set_NoDup {V} (k : Z) (v : V) (m : JsMap.t V) :
  NoDup (JsMap.keys m) -> NoDup (JsMap.keys (JsMap.set k v m)).
Proof.
  intros Hnd; rewrite JsMap_keys_set.
  destruct (JsMap.has k m) eqn:E; auto.
  apply NoDup_app; repeat split; auto.
  - repeat constructor; simpl; tauto.
  - intros x Hx [<-|[]]. now apply JsMap_has_keys in E.
Qed.

(** An array built by pushing at most one element per binding of a map,
    together with the key each element came from. *)
Section OnePerKey.

Context {V E : Type} (f : Z * V -> list E).
Hypothesis atMostOne : forall p, (List.length (f p) <= 1)%nat.

Lemma tagged_snd (m : list (Z * V)) : map snd (tagged f m) = flat_map f m.
Proof.
  induction m as [|p m IH]; simpl; auto.
  rewrite map_app, IH, map_map; simpl. now rewrite map_id.
Qed.

Lemma tagged_In (m : list (Z * V)) (k : Z) (e : E) :
  In (k, e) (tagged f m) -> exists v, In (k, v) m /\ In e (f (k, v)).
Proof.
  unfold tagged; rewrite in_flat_map; intros ([k' v] & Hin & He).
  apply in_map_iff in He as (e' & [= <- <-] & He).
  exists v; auto.
Qed.

Lemma tagged_intro (m : list (Z * V)) (k : Z) (v : V) (e : E) :
  In (k, v) m -> In e (f (k, v)) -> In (k, e) (tagged f m).
Proof.
  intros Hin He; unfold tagged; rewrite in_flat_map.
  exists (k, v); split; [exact Hin|]. now apply in_map.
Qed.

Lemma tagged_NoDup (m : list (Z * V)) :
  NoDup (map fst m) -> NoDup (map fst (tagged f m)).
Proof.
  induction m as [|[k v] m IH]; simpl; [constructor|].
  intros Hnd; inversion Hnd as [|? ? Hnotin Hnd']; subst.
  rewrite map_app, map_map; simpl.
  specialize (atMostOne (k, v)).
  destruct (f (k, v)) as [|e [|e' l]]; simpl in *; [auto| |lia].
  constructor; auto.
  intros Hin; apply Hnotin.
  apply in_map_iff in Hin as ([k' e'] & Hk & Hin); simpl in Hk; subst k'.
  apply tagged_In in Hin as (v' & Hin & _).
  change k with (fst (k, v')); now apply in_map.
Qed.

(** Order is kept: a sorted map gives a sorted array. *)
Lemma flat_map_sorted (R : Z * V -> Z * V -> Prop) (R' : E -> E -> Prop)
    (m : list (Z * V)) :
  (forall p q a b, R p q -> In a (f p) -> In b (f q) -> R' a b) ->
  StronglySorted R m -> StronglySorted R' (flat_map f m).
Proof.
  intros Hmono Hs; induction Hs as [|p m Hs IH Hp]; simpl; [constructor|].
  specialize (atMostOne p).
  destruct (f p) as [|a [|a' l]] eqn:Ef; simpl in *; [auto| |lia].
  constructor; auto.
  apply Forall_forall; intros b Hb.
  apply in_flat_map in Hb as (q & Hq & Hb).
  rewrite Forall_forall in Hp.
  apply (Hmono p q); auto. rewrite Ef; simpl; auto.
Qed.

End OnePerKey.

Lemma bestOf_max (first : Score) (l : list Score) :
  (bestOf first l = first \/ In (bestOf first l) l)
  /\ Num.tenths (score_value first) <= Num.tenths (score_value (bestOf first l))
  /\ forall s, In s l ->
       Num.tenths (score_value s) <= Num.tenths (score_value (bestOf first l)).
Proof.
  unfold bestOf; revert first; induction l as [|c l IH]; intros first; simpl.
  - repeat split; auto; try lia; tauto.
  - destruct (Num.gtb (score_value c) (score_value first)) eqn:E; unfold Num.gtb in E.
    + apply Z.ltb_lt in E. destruct (IH c) as (Hin & Hge & Hall).
      repeat split; [destruct Hin as [->|Hin]; auto | lia |].
      intros s [<-|Hs]; auto.
    + apply Z.ltb_ge in E. destruct (IH first) as (Hin & Hge & Hall).
      repeat split; [tauto | lia |].
      intros s [<-|Hs]; [lia | auto].
Qed.

Lemma round_monotone (a b : Num.t) :
  Num.tenths a <= Num.tenths b -> Num.round a <= Num.round b.
Proof. intros H; unfold Num.round; apply Z.div_le_mono; lia. Qed.

Lemma sortCompare_byWpmDesc (a b : TypeRacerEntry) :
  sortCompare byWpmDesc a b = (inject_Z (- wpm a) ?= inject_Z (- wpm b))%Q.
Proof.
  unfold sortCompare, byWpmDesc; rewrite Qcompare_minus.
  unfold Qcompare; simpl. rewrite !Z.mul_1_r.
  rewrite <- (Z.compare_opp (wpm a) (wpm b)). reflexivity.
Qed.

Lemma StronglySorted_map {A B} (f : A -> B) (R : B -> B -> Prop) (l : list A) :
  StronglySorted (fun a b => R (f a) (f b)) l -> StronglySorted R (map f l).
Proof.
  induction 1 as [|a l Hs IH Ha]; simpl; constructor; auto.
  apply Forall_map; exact Ha.
Qed.

Lemma StronglySorted_weaken {A} (R R' : A -> A -> Prop) (l : list A) :
  (forall a b, R a b -> R' a b) -> StronglySorted R l -> StronglySorted R' l.
Proof.
  intros HR; induction 1 as [|a l Hs IH Ha]; constructor; auto.
  eapply Forall_impl; [|exact Ha]. auto.
Qed.

Lemma sort_byWpmDesc_sorted (l : list TypeRacerEntry) :
  StronglySorted (fun a b => b <= a) (map wpm (sort byWpmDesc l)).
Proof.
  apply StronglySorted_map.
  eapply StronglySorted_weaken; [|apply (sort_sorted byWpmDesc (fun e => inject_Z (- wpm e)))].
  - intros a b H; simpl in H. rewrite <- Zle_Qle in H. lia.
  - intros; apply sortCompare_byWpmDesc.
Qed.

Lemma assignRanks_wpm (r : Z) (l : list TypeRacerEntry) :
  map wpm (assignRanks withTrRank r l) = map wpm l.
Proof. revert r; induction l; intros; simpl; f_equal; auto. Qed.

Lemma sampleTypeRacer_shape :
  StronglySorted (fun a b => b <= a) (map wpm sampleTypeRacer)
  /\ map tr_rank sampleTypeRacer = [1; 2; 3].
Proof.
  split; [|reflexivity].
  simpl; repeat constructor; lia.
Qed.

Lemma Forall2_assignRanks {K} (P : K -> TypeRacerEntry -> Prop)
    (r : Z) (ts : list (K * TypeRacerEntry)) :
  (forall k e n, P k e -> P k (withTrRank e n)) ->
  Forall (fun p => P (fst p) (snd p)) ts ->
  Forall2 P (map fst ts) (assignRanks withTrRank r (map snd ts)).
Proof.
  intros Hinv Hall; revert r; induction Hall as [|p ts Hp Hall IH]; intros r; simpl;
    constructor; auto.
Qed.

Lemma Mem_isBestEntry_rank st userId e n :
  Mem.isBestEntry st userId e -> Mem.isBestEntry st userId (withTrRank e n).
Proof. intros (user & best & H); exists user, best; exact H. Qed.

Lemma Mem_typeRacerLeaderboard (st : Mem.Storage) :
  NoDup (JsMap.keys (Mem.scores st)) ->
  (exists ids,
     NoDup ids
     /\ (forall k, In k ids <-> Mem.typist st k)
     /\ match ids with
        | [] => Mem.getTypeRacerLeaderboard st = sampleTypeRacer
        | _ :: _ => Forall2 (Mem.isBestEntry st) ids (Mem.getTypeRacerLeaderboard st)
        end)
  /\ StronglySorted (fun a b => b <= a) (map wpm (Mem.getTypeRacerLeaderboard st))
  /\ map tr_rank (Mem.getTypeRacerLeaderboard st)
     = map (fun i => 1 + Z.of_nat i)
           (seq 0 (List.length (Mem.getTypeRacerLeaderboard st))).
Proof.
  intros Hnd; unfold Mem.getTypeRacerLeaderboard.
  match goal with |- context [flat_map ?f (Mem.scores st)] => set (push := f) end.
  assert (Hone : forall p, (List.length (push p) <= 1)%nat).
  { intros [k l]; unfold push.
    destruct (JsMap.get k (Mem.users st)); simpl; [|lia].
    destruct (Mem.scoresOfType st "typeracer" l); simpl; lia. }
  rewrite <- (tagged_snd push), sort_map.
  set (ts := sort _ (tagged push (Mem.scores st))).
  assert (Hperm : Permutation (tagged push (Mem.scores st)) ts) by apply sort_perm.
  assert (Hids : NoDup (map fst ts)).
  { eapply Permutation_NoDup; [apply Permutation_map, Hperm|].
    now apply tagged_NoDup. }
  assert (Hbest : Forall (fun p => Mem.isBestEntry st (fst p) (snd p)) ts).
  { eapply Permutation_Forall; [exact Hperm|].
    apply Forall_forall; intros [k e] Hin; simpl.
    apply tagged_In in Hin as (l & Hl & He).
    unfold push in He.
    destruct (JsMap.get k (Mem.users st)) as [user|] eqn:Hu; [|contradiction].
    destruct (Mem.scoresOfType st "typeracer" l) as [|first rest] eqn:Htr; [contradiction|].
    destruct He as [<-|[]].
    assert (Hl' : Mem.userScoresOf st k = l).
    { unfold Mem.userScoresOf; now rewrite (JsMap_get_In k l) by assumption. }
    destruct (bestOf_max first (first :: rest)) as (Hin & _ & Hmax).
    exists user, (bestOf first (first :: rest)).
    rewrite Hl', Htr; repeat split; auto.
    destruct Hin as [->|Hin]; [left; reflexivity | exact Hin]. }
  assert (Hall : forall k, In k (map fst ts) <-> Mem.typist st k).
  { intros k; split.
    - intros Hk. apply in_map_iff in Hk as ([k' e] & Hk' & Hin); simpl in Hk'; subst k'.
      apply (Permutation_in _ (Permutation_sym Hperm)) in Hin.
      apply tagged_In in Hin as (l & Hl & He). unfold push in He.
      assert (Hl' : Mem.userScoresOf st k = l).
      { unfold Mem.userScoresOf; now rewrite (JsMap_get_In k l) by assumption. }
      unfold Mem.typist; rewrite Hl'.
      destruct (JsMap.get k (Mem.users st)); [|contradiction].
      destruct (Mem.scoresOfType st "typeracer" l); [contradiction|].
      split; discriminate.
    - intros [Hu Htr]. unfold Mem.userScoresOf in Htr.
      destruct (JsMap.get k (Mem.scores st)) as [l|] eqn:Hl;
        [|exfalso; apply Htr; unfold Mem.scoresOfType; reflexivity].
      apply JsMap_get_Some_In in Hl.
      destruct (JsMap.get k (Mem.users st)) as [user|] eqn:Eu; [|congruence].
      destruct (Mem.scoresOfType st "typeracer" l) as [|first rest] eqn:El; [congruence|].
      assert (Hin : In (k, {| tr_rank := 0; tr_player := username user;
                              wpm := Num.round
                                       (score_value (bestOf first (first :: rest)));
                              accuracy := 95 |})
                       (tagged push (Mem.scores st))).
      { apply (tagged_intro push _ k l); [exact Hl|].
        unfold push; rewrite Eu, El; left; reflexivity. }
      apply (Permutation_in _ Hperm) in Hin.
      apply in_map_iff; eexists; split; [|exact Hin]; reflexivity. }
  assert (Hsorted : StronglySorted (fun a b => b <= a)
                      (map wpm (assignRanks withTrRank 1 (map snd ts)))).
  { rewrite assignRanks_wpm. unfold ts; rewrite <- sort_map.
    apply sort_byWpmDesc_sorted. }
  assert (Hranks := assignRanks_ranks withTrRank tr_rank 1 (map snd ts)
                      (fun a n => eq_refl)).
  rewrite <- (assignRanks_length withTrRank 1) in Hranks.
  assert (Hmatch := Forall2_assignRanks (Mem.isBestEntry st) 1 ts
                      (Mem_isBestEntry_rank st) Hbest).
  clearbody ts.
  destruct ts as [|p ts]; simpl in *.
  - destruct sampleTypeRacer_shape as [Hs Hr].
    split; [exists []; auto|]. split; [exact Hs | exact Hr].
  - split; [exists (fst p :: map fst ts); auto|]. split; assumption.
Qed.

Lemma Qcompare_tenths (a b : Z) :
  (inject_Z a / 10 ?= inject_Z b / 10)%Q = (a ?= b).
Proof.
  destruct (Z.compare_spec a b) as [E|L|G].
  - subst; apply (proj1 (Qeq_alt _ _)); reflexivity.
  - apply (proj1 (Qlt_alt _ _)). unfold Qlt; simpl; lia.
  - apply (proj1 (Qgt_alt _ _)). unfold Qlt; simpl; lia.
Qed.

Lemma sortCompare_byValueDesc {K} (a b : K * Num.t) :
  sortCompare Db.byValueDesc a b
  = (inject_Z (- Num.tenths (snd a)) ?= inject_Z (- Num.tenths (snd b)))%Q.
Proof.
  unfold sortCompare, Db.byValueDesc; rewrite Qcompare_minus, Qcompare_tenths.
  unfold Qcompare; simpl. rewrite !Z.mul_1_r.
  rewrite <- (Z.compare_opp (Num.tenths (snd a)) (Num.tenths (snd b))). reflexivity.
Qed.
Arguments sortCompare_byValueDesc {K} a b.

Lemma sort_byValueDesc_sorted {K} (l : list (K * Num.t)) :
  StronglySorted (fun p q => Num.tenths (snd q) <= Num.tenths (snd p))
                 (sort Db.byValueDesc l).
Proof.
  eapply StronglySorted_weaken;
    [|apply (sort_sorted Db.byValueDesc (fun p => inject_Z (- Num.tenths (snd p))))].
  - intros a b H; simpl in H. rewrite <- Zle_Qle in H. lia.
  - intros; apply sortCompare_byValueDesc.
Qed.

(** The loop that fills [userBestScores], one row at a time. *)
Section UserBestScores.

Let uid (r : Db.ScoreRow) : Z := score_userId (Db.row_score r).
Let val (r : Db.ScoreRow) : Z := Num.tenths (score_value (Db.row_score r)).

Let holds (m : JsMap.t Num.t) (done : list Db.ScoreRow) : Prop :=
  NoDup (JsMap.keys m)
  /\ (forall r, In r done -> JsMap.get (uid r) m <> None)
  /\ (forall u v, JsMap.get u m = Some v ->
        (exists r, In r done /\ uid r = u /\ score_value (Db.row_score r) = v)
        /\ (forall r, In r done -> uid r = u -> val r <= Num.tenths v)).

Let step (m : JsMap.t Num.t) (r : Db.ScoreRow) : JsMap.t Num.t :=
  match JsMap.get (uid r) m with
  | None => JsMap.set (uid r) (score_value (Db.row_score r)) m
  | Some best =>
      if Num.ltb best (score_value (Db.row_score r))
      then JsMap.set (uid r) (score_value (Db.row_score r)) m else m
  end.

Lemma holds_set (m : JsMap.t Num.t) done r :
  holds m done ->
  (forall b, JsMap.get (uid r) m = Some b -> Num.tenths b <= val r) ->
  holds (JsMap.set (uid r) (score_value (Db.row_score r)) m) (done ++ [r]).
Proof.
  intros (Hnd & Hhas & Hget) Hup; split; [|split].
  - now apply JsMap_set_NoDup.
  - intros r' Hr'. destruct (Z.eq_dec (uid r') (uid r)) as [E|E].
    + rewrite E, JsMap_get_set_same; discriminate.
    + rewrite JsMap_get_set_other by exact E.
      apply in_app_or in Hr' as [Hr'|[<-|[]]]; [auto | congruence].
  - intros u v. destruct (Z.eq_dec u (uid r)) as [->|E].
    + rewrite JsMap_get_set_same; intros [= <-]; split.
      * exists r; split; [apply in_or_app; simpl; auto | auto].
      * intros r' Hr' Hu. apply in_app_or in Hr' as [Hr'|[<-|[]]]; [|unfold val; lia].
        destruct (JsMap.get (uid r) m) as [b|] eqn:Hb.
        -- specialize (Hup b eq_refl).
           destruct (Hget _ _ Hb) as [_ Hle]. specialize (Hle r' Hr' Hu).
           unfold val in *; lia.
        -- exfalso; apply (Hhas r' Hr'); now rewrite Hu.
    + rewrite JsMap_get_set_other by exact E. intros Hv.
      destruct (Hget _ _ Hv) as [(r0 & Hr0 & Hu0 & Hv0) Hle]; split.
      * exists r0; split; [apply in_or_app; auto | auto].
      * intros r' Hr' Hu. apply in_app_or in Hr' as [Hr'|[<-|[]]]; [auto | congruence].
Qed.

Lemma holds_step (m : JsMap.t Num.t) done r :
  holds m done -> holds (step m r) (done ++ [r]).
Proof.
  intros H; unfold step.
  destruct (JsMap.get (uid r) m) as [b|] eqn:Hb.
  - unfold Num.ltb.
    destruct (Num.tenths b <? Num.tenths (score_value (Db.row_score r))) eqn:Hlt.
    + apply holds_set; auto. intros b' Hb'.
      rewrite Hb in Hb'; injection Hb' as <-.
      apply Z.ltb_lt in Hlt; unfold val; lia.
    + apply Z.ltb_ge in Hlt. destruct H as (Hnd & Hhas & Hget); split; [|split]; auto.
      * intros r' Hr'. apply in_app_or in Hr' as [Hr'|[<-|[]]]; [auto | congruence].
      * intros u v Hv. destruct (Hget _ _ Hv) as [(r0 & Hr0 & Hu0 & Hv0) Hle]; split.
        -- exists r0; split; [apply in_or_app; auto | auto].
        -- intros r' Hr' Hu. apply in_app_or in Hr' as [Hr'|[<-|[]]]; [auto|].
           rewrite <- Hu, Hb in Hv; injection Hv as <-. unfold val; lia.
  - apply holds_set; auto. intros b Hb'; congruence.
Qed.

Lemma holds_fold (rows : list Db.ScoreRow) (m : JsMap.t Num.t) done :
  holds m done -> holds (fold_left step rows m) (done ++ rows).
Proof.
  revert m done; induction rows as [|r rows IH]; intros m done H; simpl.
  - now rewrite app_nil_r.
  - replace (done ++ r :: rows) with ((done ++ [r]) ++ rows)
      by (rewrite <- app_assoc; reflexivity).
    apply IH, holds_step, H.
Qed.

Lemma userBestScores_spec (rows : list Db.ScoreRow) :
  NoDup (JsMap.keys (Db.userBestScores rows))
  /\ forall u v, In (u, v) (Db.userBestScores rows) ->
       (exists r, In r rows /\ uid r = u /\ score_value (Db.row_score r) = v)
       /\ (forall r, In r rows -> uid r = u -> val r <= Num.tenths v).
Proof.
  assert (H : holds (Db.userBestScores rows) ([] ++ rows)).
  { apply (holds_fold rows [] []).
    split; [constructor|]; split; [intros r []|discriminate]. }
  destruct H as (Hnd & _ & Hget); split; auto.
  intros u v Hin. apply Hget. now apply JsMap_get_In.
Qed.

(** Every user with a row has a binding, whose value no row of the user
    exceeds. *)
Lemma userBestScores_complete (rows : list Db.ScoreRow) (r : Db.ScoreRow) :
  In r rows ->
  exists v, In (uid r, v) (Db.userBestScores rows) /\ val r <= Num.tenths v.
Proof.
  intros Hr.
  assert (H : holds (Db.userBestScores rows) ([] ++ rows)).
  { apply (holds_fold rows [] []).
    split; [constructor|]; split; [intros r0 []|discriminate]. }
  destruct H as (_ & Hhas & Hget). simpl in Hhas, Hget.
  specialize (Hhas r Hr).
  destruct (JsMap.get (uid r) (Db.userBestScores rows)) as [v|] eqn:Hv; [|congruence].
  exists v; split; [now apply JsMap_get_Some_In|].
  now apply (proj2 (Hget _ _ Hv)).
Qed.

End UserBestScores.

Lemma Db_isBestEntry_rank st gameId userId e n :
  Db.isBestEntry st gameId userId e -> Db.isBestEntry st gameId userId (withTrRank e n).
Proof. intros (best & named & H); exists best, named; exact H. Qed.

Lemma Db_typeRacerLeaderboard (st : Db.Storage) (g : Game) :
  find (fun g => String.eqb (game_type g) "typeracer") (Db.games st) = Some g ->
  exists out ids,
    Db.getTypeRacerLeaderboard st = Returned out
    /\ NoDup ids
    /\ (forall k, In k ids <-> Db.typist st (game_id g) k)
    /\ match ids with
       | [] => out = sampleTypeRacer
       | _ :: _ => Forall2 (Db.isBestEntry st (game_id g)) ids out
       end
    /\ StronglySorted (fun a b => b <= a) (map wpm out)
    /\ map tr_rank out = map (fun i => 1 + Z.of_nat i) (seq 0 (List.length out)).
Proof.
  intros Hg; unfold Db.getTypeRacerLeaderboard, Db.getGameIdByType; rewrite Hg.
  set (rows0 := Db.joinUsers st (fun s => score_gameId s =? game_id g)).
  set (rows := sort Db.byRowValueDesc rows0).
  set (best := sort Db.byValueDesc (Db.userBestScores rows)).
  match goal with |- context [flat_map ?f best] => set (push := f) end.
  assert (Hrows : forall r, In r rows <-> In r rows0) by (intros; apply sort_In).
  destruct (userBestScores_spec rows) as (Hkeys & Hspec).
  assert (Hperm : Permutation (Db.userBestScores rows) best) by apply sort_perm.
  assert (Hone : forall p, (List.length (push p) <= 1)%nat).
  { intros [k v]; unfold push. destruct (find _ rows); simpl; lia. }
  assert (Hids : NoDup (map fst (tagged push best))).
  { apply tagged_NoDup; auto.
    eapply Permutation_NoDup; [apply Permutation_map, Hperm | exact Hkeys]. }
  assert (Hbest : Forall (fun p => Db.isBestEntry st (game_id g) (fst p) (snd p))
                         (tagged push best)).
  { apply Forall_forall; intros [k e] Hin; simpl.
    apply tagged_In in Hin as (v & Hv & He).
    apply (Permutation_in _ (Permutation_sym Hperm)) in Hv.
    destruct (Hspec _ _ Hv) as [(r & Hr & Hu & Hval) Hle].
    unfold push in He.
    destruct (find _ rows) as [named|] eqn:Hn; [|contradiction].
    destruct He as [<-|[]].
    apply find_some in Hn as [Hnin Hnu]. apply Z.eqb_eq in Hnu.
    exists r, named; fold rows0.
    repeat split; try (apply Hrows; assumption); auto.
    - intros r' Hr' Hu'. rewrite Hval. apply Hle; [now apply Hrows | exact Hu'].
    - simpl; now rewrite Hval. }
  assert (Hall : forall k, In k (map fst (tagged push best))
                           <-> Db.typist st (game_id g) k).
  { intros k; unfold Db.typist; fold rows0; split.
    - intros Hk. apply in_map_iff in Hk as ([k' e] & Hk' & Hin); simpl in Hk'; subst k'.
      apply tagged_In in Hin as (v & Hv & _).
      apply (Permutation_in _ (Permutation_sym Hperm)) in Hv.
      destruct (Hspec _ _ Hv) as [(r & Hr & Hu & _) _].
      exists r; split; [now apply Hrows | exact Hu].
    - intros (r & Hr & Hu). apply Hrows in Hr.
      destruct (userBestScores_complete rows r Hr) as (v & Hv & _).
      rewrite Hu in Hv. apply (Permutation_in _ Hperm) in Hv.
      destruct (find (fun r0 => score_userId (Db.row_score r0) =? k) rows)
        as [named|] eqn:Hn.
      + assert (Hin : In (k, {| tr_rank := 0; tr_player := Db.row_username named;
                                wpm := Num.round v; accuracy := 95 |})
                         (tagged push best)).
        { apply (tagged_intro push _ k v); [exact Hv|].
          unfold push; rewrite Hn; left; reflexivity. }
        apply in_map_iff; eexists; split; [|exact Hin]; reflexivity.
      + exfalso. apply (find_none _ _ Hn) in Hr. apply Z.eqb_neq in Hr. auto. }
  assert (Hsorted : StronglySorted (fun a b => b <= a)
                      (map wpm (assignRanks withTrRank 1 (flat_map push best)))).
  { rewrite assignRanks_wpm. apply StronglySorted_map.
    apply (flat_map_sorted push Hone
             (fun p q => Num.tenths (snd q) <= Num.tenths (snd p))).
    - intros [k v] [k' v'] a b Hle Ha Hb; unfold push in Ha, Hb.
      destruct (find _ rows); [|contradiction]. destruct Ha as [<-|[]].
      destruct (find _ rows); [|contradiction]. destruct Hb as [<-|[]].
      simpl in *. now apply round_monotone.
    - apply sort_byValueDesc_sorted. }
  assert (Hranks := assignRanks_ranks withTrRank tr_rank 1 (flat_map push best)
                      (fun a n => eq_refl)).
  rewrite <- (assignRanks_length withTrRank 1) in Hranks.
  assert (Hmatch := Forall2_assignRanks (Db.isBestEntry st (game_id g)) 1
                      (tagged push best) (Db_isBestEntry_rank st (game_id g)) Hbest).
  rewrite <- (tagged_snd push) in Hsorted, Hranks |- *.
  destruct (tagged push best) as [|p ts]; simpl in *.
  - destruct sampleTypeRacer_shape as [Hs Hr].
    exists sampleTypeRacer, []; repeat split; auto; apply Hall.
  - eexists; exists (fst p :: map fst ts); split; [reflexivity|].
    repeat split; auto; apply Hall.
Qed.

(** C9, as the code has it.  [getTypeRacerLeaderboard] lists the typists, the
    users with at least one typing score: exactly one entry for each of them
    and none for anybody else, the entry carrying [Math.round] of the highest
    value among that user's typing scores; when there is no typist it returns
    the three sample rows instead.  The entries are in descending order of
    [wpm] and ranked 1..N.  [MemStorage] does so on every store (its [scores]
    map has distinct keys); [DatabaseStorage] does so when the catalog holds
    the [typeracer] game and rejects otherwise. *)
Theorem typeRacerLeaderboard_best_per_user :
  (forall st,
     NoDup (JsMap.keys (Mem.scores st)) ->
     (exists ids,
        NoDup ids
        /\ (forall k, In k ids <-> Mem.typist st k)
        /\ match ids with
           | [] => Mem.getTypeRacerLeaderboard st = sampleTypeRacer
           | _ :: _ =>
               Forall2 (Mem.isBestEntry st) ids (Mem.getTypeRacerLeaderboard st)
           end)
     /\ StronglySorted (fun a b => b <= a) (map wpm (Mem.getTypeRacerLeaderboard st))
     /\ map tr_rank (Mem.getTypeRacerLeaderboard st)
        = map (fun i => 1 + Z.of_nat i)
              (seq 0 (List.length (Mem.getTypeRacerLeaderboard st))))
  /\
  (forall st g,
     find (fun g => String.eqb (game_type g) "typeracer") (Db.games st) = Some g ->
     exists out ids,
       Db.getTypeRacerLeaderboard st = Returned out
       /\ NoDup ids
       /\ (forall k, In k ids <-> Db.typist st (game_id g) k)
       /\ match ids with
          | [] => out = sampleTypeRacer
          | _ :: _ => Forall2 (Db.isBestEntry st (game_id g)) ids out
          end
       /\ StronglySorted (fun a b => b <= a) (map wpm out)
       /\ map tr_rank out = map (fun i => 1 + Z.of_nat i) (seq 0 (List.length out)))
  /\
  (forall st,
     find (fun g => String.eqb (game_type g) "typeracer") (Db.games st) = None ->
     Db.getTypeRacerLeaderboard st = Thrown "Game type typeracer not found").
Proof.
  split; [|split].
  - apply Mem_typeRacerLeaderboard.
  - apply Db_typeRacerLeaderboard.
  - intros st Hg; unfold Db.getTypeRacerLeaderboard, Db.getGameIdByType.
    now rewrite Hg.
Qed.

(** C9 at samples: after alice submitted 45.5 and 40 and bob 60, and on a
    store without any typing score. *)
Lemma typeRacerLeaderboard_best_per_user_witness :
  ((exists ids,
      NoDup ids
      /\ (forall k, In k ids <-> Mem.typist Samples.memTyping k)
      /\ match ids with
         | [] => Mem.getTypeRacerLeaderboard Samples.memTyping = sampleTypeRacer
         | _ :: _ =>
             Forall2 (Mem.isBestEntry Samples.memTyping) ids
               (Mem.getTypeRacerLeaderboard Samples.memTyping)
         end)
   /\ StronglySorted (fun a b => b <= a)
        (map wpm (Mem.getTypeRacerLeaderboard Samples.memTyping))
   /\ map tr_rank (Mem.getTypeRacerLeaderboard Samples.memTyping)
      = map (fun i => 1 + Z.of_nat i)
            (seq 0 (List.length (Mem.getTypeRacerLeaderboard Samples.memTyping))))
  /\
  (exists out ids,
     Db.getTypeRacerLeaderboard Samples.dbTyping = Returned out
     /\ NoDup ids
     /\ (forall k, In k ids <-> Db.typist Samples.dbTyping 4 k)
     /\ match ids with
        | [] => out = sampleTypeRacer
        | _ :: _ => Forall2 (Db.isBestEntry Samples.dbTyping 4) ids out
        end
     /\ StronglySorted (fun a b => b <= a) (map wpm out)
     /\ map tr_rank out = map (fun i => 1 + Z.of_nat i) (seq 0 (List.length out)))
  /\
  (exists out ids,
     Db.getTypeRacerLeaderboard Samples.dbTimes = Returned out
     /\ NoDup ids
     /\ (forall k, In k ids <-> Db.typist Samples.dbTimes 4 k)
     /\ match ids with
        | [] => out = sampleTypeRacer
        | _ :: _ => Forall2 (Db.isBestEntry Samples.dbTimes 4) ids out
        end
     /\ StronglySorted (fun a b => b <= a) (map wpm out)
     /\ map tr_rank out = map (fun i => 1 + Z.of_nat i) (seq 0 (List.length out))).
Proof.
  split; [|split].
  - apply (proj1 typeRacerLeaderboard_best_per_user Samples.memTyping).
    repeat constructor; simpl; intuition discriminate.
  - exact (proj1 (proj2 typeRacerLeaderboard_best_per_user) Samples.dbTyping
                 (nth 3 Samples.seededGames (Build_Game 0 "" "" "")) eq_refl).
  - exact (proj1 (proj2 typeRacerLeaderboard_best_per_user) Samples.dbTimes
                 (nth 3 Samples.seededGames (Build_Game 0 "" "" "")) eq_refl).
Defined.

(** C9 fails as stated when the best value is not an integer: alice's best
    submission is 45.5, her entry shows 46, a value she never submitted.  It
    fails too when nobody has a typing score: the board then holds the three
    sample rows, none of which belongs to a user. *)
Lemma typeRacerLeaderboard_rounds_the_best :
  Db.valuesOf Samples.dbTyping 1 "typeracer" = [Num.Tenths 455; Num.ofInt 40]
  /\ option_map (map (fun e => (tr_rank e, tr_player e, wpm e)))
       (match Db.getTypeRacerLeaderboard Samples.dbTyping with
        | Returned out => Some out
        | Thrown _ => None
        end)
     = Some [(1, "bob", 60); (2, "alice", 46)]
  /\ map (fun e => (tr_rank e, tr_player e, wpm e))
       (Mem.getTypeRacerLeaderboard Samples.memTyping)
     = [(1, "bob", 60); (2, "alice", 46)]
  /\ ~ In (Num.ofInt 46) (Db.valuesOf Samples.dbTyping 1 "typeracer")
  /\ Mem.scores Samples.memSeeded = []
  /\ Mem.getTypeRacerLeaderboard Samples.memSeeded = sampleTypeRacer.
Proof.
  repeat split; try (vm_compute; reflexivity).
  vm_compute; intuition discriminate.
Qed.

(** ** The leaderboard of one game type *)

Lemma stripNonNumeric_app (a b : string) :
  stripNonNumeric (a ++ b) = (stripNonNumeric a ++ stripNonNumeric b)%string.
Proof.
  induction a as [|c a IH]; simpl; auto.
  destruct (digitOf c); [simpl; now rewrite IH|].
  destruct (c =? ".")%char; simpl; now rewrite IH.
Qed.

Lemma stripNonNumeric_digits (d : Decimal.uint) :
  stripNonNumeric (NilEmpty.string_of_uint d) = NilEmpty.string_of_uint d.
Proof. induction d; simpl; auto; now rewrite IHd. Qed.

Lemma readDigits_cons (c : ascii) (s : string) (acc : Z) (n : nat) :
  readDigits (String c s) acc n
  = match digitOf c with
    | Some d => readDigits s (10 * acc + d) (S n)
    | None => (acc, n, String c s)
    end.
Proof. reflexivity. Qed.

Ltac eval_digit :=
  match goal with
  | |- context [digitOf ?c] =>
      let v := eval vm_compute in (digitOf c) in change (digitOf c) with v
  end.

Lemma readDigits_uint (d a : Decimal.uint) (rest : string) (n : nat) :
  readDigits (NilEmpty.string_of_uint d ++ rest) (Z.of_N (Unsigned.of_lu a)) n
  = readDigits rest (Z.of_N (Unsigned.of_lu (Decimal.revapp d a)))
               (n + Decimal.nb_digits d).
Proof.
  revert a n; induction d; intros a n; simpl Decimal.revapp; simpl Decimal.nb_digits;
    [now rewrite Nat.add_0_r|..];
    cbn [NilEmpty.string_of_uint String.append]; rewrite readDigits_cons; eval_digit;
    cbv iota beta;
    match goal with
    | |- readDigits _ ?acc _ = readDigits _ (Z.of_N (Unsigned.of_lu (Decimal.revapp _ ?a'))) _ =>
        replace acc with (Z.of_N (Unsigned.of_lu a'))
          by (cbn [Unsigned.of_lu]; lia)
    end;
    rewrite IHd; f_equal; lia.
Qed.

Lemma to_uint_not_Nil (n : N) : N.to_uint n <> Decimal.Nil.
Proof.
  destruct n; simpl; [discriminate|]. apply Unsigned.to_uint_nonnil.
Qed.

Lemma digits_NilEmpty (n : Z) :
  Num.digits n = NilEmpty.string_of_uint (N.to_uint (Z.to_N n)).
Proof.
  unfold Num.digits, NilZero.string_of_uint.
  pose proof (to_uint_not_Nil (Z.to_N n)).
  destruct (N.to_uint (Z.to_N n)); congruence.
Qed.

Lemma nb_digits_pos (n : N) : (1 <= Decimal.nb_digits (N.to_uint n))%nat.
Proof.
  pose proof (to_uint_not_Nil n).
  destruct (N.to_uint n); simpl; try lia; congruence.
Qed.

(** Reading back the digits printed for [w]. *)
Lemma readDigits_digits (w : Z) (rest : string) :
  0 <= w ->
  exists k, (1 <= k)%nat
    /\ readDigits (Num.digits w ++ rest) 0 0 = readDigits rest w k.
Proof.
  intros Hw; rewrite digits_NilEmpty.
  exists (Decimal.nb_digits (N.to_uint (Z.to_N w))); split; [apply nb_digits_pos|].
  change 0 with (Z.of_N (Unsigned.of_lu Decimal.Nil)) at 1.
  rewrite readDigits_uint. simpl Nat.add.
  f_equal.
  change (Decimal.revapp ?d Decimal.Nil) with (Decimal.rev d).
  rewrite <- Unsigned.of_uint_alt.
  change (Pos.of_uint ?d) with (N.of_uint d).
  rewrite DecimalN.Unsigned.of_to. lia.
Qed.

Lemma stripNonNumeric_printed (w : Z) :
  stripNonNumeric (Num.digits w) = Num.digits w.
Proof. rewrite digits_NilEmpty; apply stripNonNumeric_digits. Qed.

Lemma append_empty (s : string) : (s ++ "")%string = s.
Proof. induction s; simpl; congruence. Qed.

Lemma parseFloat_whole (w : Z) :
  0 <= w -> parseFloat (Num.digits w) = Some (inject_Z w).
Proof.
  intros Hw; destruct (readDigits_digits w "" Hw) as (k & Hk & Hread).
  rewrite append_empty in Hread.
  unfold parseFloat; rewrite Hread; simpl.
  destruct k; [lia | reflexivity].
Qed.

Lemma readDigits_one (f : Z) :
  0 <= f < 10 -> readDigits (Num.digits f) 0 0 = (f, 1%nat, "").
Proof.
  intros Hf.
  assert (H : f = 0 \/ f = 1 \/ f = 2 \/ f = 3 \/ f = 4 \/ f = 5 \/ f = 6
              \/ f = 7 \/ f = 8 \/ f = 9) by lia.
  repeat (destruct H as [->|H]; [reflexivity|]); subst; reflexivity.
Qed.

Lemma parseFloat_decimal (w f : Z) :
  0 <= w -> 0 <= f < 10 ->
  parseFloat (Num.digits w ++ "." ++ Num.digits f)
  = Some (inject_Z w + inject_Z f / inject_Z 10)%Q.
Proof.
  intros Hw Hf; destruct (readDigits_digits w ("." ++ Num.digits f) Hw) as (k & Hk & Hread).
  unfold parseFloat; rewrite Hread.
  change (readDigits ("." ++ Num.digits f) w k) with (w, k, "." ++ Num.digits f)%string.
  cbv iota beta. change ("." ++ Num.digits f)%string with (String "." (Num.digits f)).
  cbv iota beta. rewrite readDigits_one by exact Hf.
  destruct k; [lia | reflexivity].
Qed.

(** The integer part and the decimal digit of a magnitude. *)
Lemma Num_split (v : Num.t) :
  0 <= Z.abs (Num.tenths v) / 10
  /\ 0 <= Z.abs (Num.tenths v) mod 10 < 10
  /\ Z.abs (Num.tenths v)
     = 10 * (Z.abs (Num.tenths v) / 10) + Z.abs (Num.tenths v) mod 10.
Proof.
  pose proof (Z.abs_nonneg (Num.tenths v)).
  split; [apply Z.div_pos; lia|]. split; [apply Z.mod_pos_bound; lia|].
  apply Z.div_mod; lia.
Qed.

Lemma stripNonNumeric_sign (v : Num.t) : stripNonNumeric (Num.sign v) = "".
Proof. unfold Num.sign; destruct (Num.tenths v <? 0); reflexivity. Qed.

Lemma magnitude_split (v : Num.t) (w f : Z) :
  Z.abs (Num.tenths v) = 10 * w + f ->
  (inject_Z w + inject_Z f / inject_Z 10 == magnitude v)%Q.
Proof.
  unfold magnitude; intros ->.
  rewrite inject_Z_plus, inject_Z_mult. field.
Qed.

Lemma parse_toFixed1 (v : Num.t) (suffix : string) :
  stripNonNumeric suffix = "" ->
  exists q, parseFloat (stripNonNumeric (Num.toFixed1 v ++ suffix)) = Some q
            /\ (q == magnitude v)%Q.
Proof.
  intros Hsuf; destruct (Num_split v) as (Hw & Hf & Hm).
  unfold Num.toFixed1; cbv zeta.
  rewrite !stripNonNumeric_app, Hsuf, stripNonNumeric_sign, !stripNonNumeric_printed.
  change (stripNonNumeric ".") with ".".
  rewrite append_empty. cbn [String.append].
  change (String "." ?s) with ("." ++ s)%string.
  rewrite parseFloat_decimal by assumption.
  eexists; split; [reflexivity|].
  now apply magnitude_split.
Qed.

Lemma parse_toString (v : Num.t) (suffix : string) :
  stripNonNumeric suffix = "" ->
  exists q, parseFloat (stripNonNumeric (Num.toString v ++ suffix)) = Some q
            /\ (q == magnitude v)%Q.
Proof.
  intros Hsuf; destruct (Num_split v) as (Hw & Hf & Hm).
  unfold Num.toString; cbv zeta.
  destruct (Z.abs (Num.tenths v) mod 10 =? 0) eqn:E.
  - apply Z.eqb_eq in E.
    rewrite !stripNonNumeric_app, Hsuf, stripNonNumeric_sign, stripNonNumeric_printed.
    cbn [stripNonNumeric String.append]. rewrite !append_empty.
    rewrite parseFloat_whole by assumption.
    eexists; split; [reflexivity|].
    rewrite <- (magnitude_split v (Z.abs (Num.tenths v) / 10) 0) by lia.
    unfold Qdiv; rewrite Qmult_0_l, Qplus_0_r; reflexivity.
  - rewrite !stripNonNumeric_app, Hsuf, stripNonNumeric_sign, !stripNonNumeric_printed.
    change (stripNonNumeric ".") with ".".
    rewrite append_empty. cbn [String.append].
    change (String "." ?s) with ("." ++ s)%string.
    rewrite parseFloat_decimal by assumption.
    eexists; split; [reflexivity|].
    now apply magnitude_split.
Qed.

(** What the comparator reads off a formatted score, whatever the game type:
    the magnitude of the value. *)
Lemma parse_formatScore (gameType : string) (v : Num.t) :
  exists q, parseFloat (stripNonNumeric (formatScore gameType v)) = Some q
            /\ (q == magnitude v)%Q.
Proof.
  unfold formatScore.
  destruct (String.eqb gameType "guessing"); [now apply parse_toString|].
  destruct (String.eqb gameType "redlight"); [now apply parse_toFixed1|].
  destruct (String.eqb gameType "typeracer"); now apply parse_toString.
Qed.

Lemma Qcompare_opp (x y : Q) : (- x ?= - y)%Q = (y ?= x)%Q.
Proof.
  destruct (Qcompare_spec y x) as [E|L|G].
  - apply (proj1 (Qeq_alt _ _)); lra.
  - apply (proj1 (Qlt_alt _ _)); lra.
  - apply (proj1 (Qgt_alt _ _)); lra.
Qed.

Lemma sortCompare_compareEntries (gt : string) (a b : LeaderboardEntry) :
  formatted gt a -> formatted gt b ->
  sortCompare compareEntries a b = (boardKey gt a ?= boardKey gt b)%Q.
Proof.
  intros (Ha & va & Hsa) (Hb & vb & Hsb).
  destruct (parse_formatScore gt va) as (x & Hx & _).
  destruct (parse_formatScore gt vb) as (y & Hy & _).
  unfold sortCompare, compareEntries, boardKey, shownValue, lowerIsBetter.
  rewrite Ha, Hsa, Hsb, Hx, Hy.
  destruct (String.eqb gt "guessing"); simpl; [apply Qcompare_minus|].
  destruct (String.eqb gt "redlight"); simpl; [apply Qcompare_minus|].
  now rewrite Qcompare_minus, Qcompare_opp.
Qed.

Lemma StronglySorted_weaken_In {A} (R R' : A -> A -> Prop) (l : list A) :
  (forall a b, In a l -> In b l -> R a b -> R' a b) ->
  StronglySorted R l -> StronglySorted R' l.
Proof.
  intros HR Hs; induction Hs as [|a l Hs IH Ha]; constructor.
  - apply IH; intros; apply HR; simpl; auto.
  - rewrite Forall_forall in *; intros b Hb.
    apply HR; simpl; auto.
Qed.

Lemma boardKey_order (gt : string) (a b : LeaderboardEntry) :
  formatted gt a -> formatted gt b ->
  (boardKey gt a <= boardKey gt b)%Q -> inBoardOrder gt a b.
Proof.
  intros (Ha & va & Hsa) (Hb & vb & Hsb).
  destruct (parse_formatScore gt va) as (x & Hx & _).
  destruct (parse_formatScore gt vb) as (y & Hy & _).
  unfold boardKey, inBoardOrder, shownValue; rewrite Hsa, Hsb, Hx, Hy.
  intros Hle; exists x, y; repeat split.
  destruct (lowerIsBetter gt); [exact Hle | lra].
Qed.

Lemma sort_compareEntries_sorted (gt : string) (l : list LeaderboardEntry) :
  Forall (formatted gt) l ->
  StronglySorted (inBoardOrder gt) (sort compareEntries l).
Proof.
  intros Hl; rewrite Forall_forall in Hl.
  apply StronglySorted_weaken_In with (R := fun a b => (boardKey gt a <= boardKey gt b)%Q).
  - intros a b Ha Hb. apply boardKey_order; apply Hl; now apply (sort_In compareEntries).
  - apply sort_sorted; intros; apply sortCompare_compareEntries; auto.
Qed.

Lemma assignRanks_Forall {A} (setRank : A -> Z -> A) (P : A -> Prop)
    (r : Z) (l : list A) :
  (forall a n, P a -> P (setRank a n)) ->
  Forall P l -> Forall P (assignRanks setRank r l).
Proof.
  intros Hinv Hl; revert r; induction Hl; intros r; simpl; constructor; auto.
Qed.

Lemma assignRanks_sorted {A} (setRank : A -> Z -> A) (R : A -> A -> Prop)
    (r : Z) (l : list A) :
  (forall a b n, R a b -> R (setRank a n) b) ->
  (forall a b n, R a b -> R a (setRank b n)) ->
  StronglySorted R l -> StronglySorted R (assignRanks setRank r l).
Proof.
  intros Hleft Hright Hs; revert r; induction Hs as [|a l Hs IH Ha]; intros r; simpl;
    constructor; auto.
  apply assignRanks_Forall; [intros b n; apply Hright|].
  eapply Forall_impl; [|exact Ha]. intros b; apply Hleft.
Qed.

Lemma ranked_sort (gt : string) (l : list LeaderboardEntry) :
  Forall (formatted gt) l ->
  ranked gt (assignRanks withRank 1 (sort compareEntries l)).
Proof.
  intros Hl; split; [|split].
  - rewrite assignRanks_length.
    apply (assignRanks_ranks withRank rank); reflexivity.
  - apply assignRanks_Forall; [intros a n H; exact H|].
    rewrite Forall_forall in *; intros e He; apply Hl.
    now apply (sort_In compareEntries).
  - apply assignRanks_sorted; [| |now apply sort_compareEntries_sorted];
      intros a b n H; exact H.
Qed.

Lemma Mem_getLeaderboard_ranked (st : Mem.Storage) (gt : string) :
  gt <> "all" -> ranked gt (Mem.getLeaderboard st gt).
Proof.
  intros Hall; unfold Mem.getLeaderboard; apply ranked_sort.
  apply Forall_forall; intros e He.
  apply in_flat_map in He as ([userId userScores] & _ & He).
  destruct (JsMap.get userId (Mem.users st)) as [user|]; [|contradiction].
  apply in_flat_map in He as (s & _ & He).
  destruct (JsMap.get (score_gameId s) (Mem.games st)) as [g|]; [|contradiction].
  destruct (String.eqb_spec gt "all") as [|_]; [contradiction|]; simpl in He.
  destruct (String.eqb_spec (game_type g) gt) as [<-|]; [|contradiction].
  destruct He as [<-|[]]; split; [reflexivity | eexists; reflexivity].
Qed.

Lemma gameMap_get (games : list Game) (g : Game) :
  NoDup (map game_id games) -> In g games ->
  JsMap.get (game_id g) (fold_left (fun m g => JsMap.set (game_id g) g m) games [])
  = Some g.
Proof.
  generalize (@nil (Z * Game)).
  induction games as [|x games IH] using rev_ind; intros m0 Hnd Hin; [contradiction|].
  rewrite fold_left_app; simpl.
  rewrite map_app in Hnd; apply NoDup_remove in Hnd as [Hnd Hx]; simpl in Hnd, Hx.
  rewrite List.app_nil_r in Hnd, Hx.
  apply in_app_or in Hin as [Hin|[->|[]]].
  - rewrite JsMap_get_set_other; [now apply IH|].
    intros E; apply Hx; rewrite <- E; now apply in_map.
  - apply JsMap_get_set_same.
Qed.

Lemma Db_getLeaderboard_ranked (st : Db.Storage) (gt : string) :
  gt <> "all" -> NoDup (map game_id (Db.games st)) ->
  ranked gt (Db.getLeaderboard st gt).
Proof.
  intros Hall Hpk; unfold Db.getLeaderboard; apply ranked_sort.
  destruct (String.eqb_spec gt "all") as [|_]; [contradiction|].
  apply Forall_forall; intros e He.
  apply in_flat_map in He as (r & Hr & He).
  apply in_flat_map in Hr as (r0 & _ & Hr).
  apply in_map_iff in Hr as (g & -> & Hg).
  apply filter_In in Hg as (Hg & Hkeep).
  apply andb_prop in Hkeep as [Hid Hty].
  apply Z.eqb_eq in Hid. apply String.eqb_eq in Hty.
  unfold Db.gameMap in He; rewrite <- Hid, (gameMap_get _ g) in He by assumption.
  destruct He as [<-|[]]; split; [exact Hty|].
  unfold leaderboardEntry; simpl; rewrite Hty; eexists; reflexivity.
Qed.

(** The number read off a formatted score is the magnitude of the value: its
    sign is lost with the other characters the regular expression removes. *)
Lemma shownValue_magnitude (type : string) (e : LeaderboardEntry) (v : Num.t) :
  score e = formatScore type v ->
  exists q, shownValue e = Some q /\ (q == magnitude v)%Q.
Proof. intros Hs; unfold shownValue; rewrite Hs; apply parse_formatScore. Qed.

(** The specification's example: times 12.3 s and 9.8 s. *)
Example getLeaderboard_redlight_example :
  map (fun e => (rank e, score e))
      (Mem.getLeaderboard
         (Mem.recordScore
            (Mem.recordScore Samples.memSeeded Samples.clock 1 "redlight" (Num.Tenths 123))
            Samples.clock 2 "redlight" (Num.Tenths 98))
         "redlight")
  = [(1, "9.8s"); (2, "12.3s")].
Proof. vm_compute; reflexivity. Qed.

(** C5 at the failing input.  Bob's recorded time is -3.0 s (the red-light
    route stores [parseFloat(time)] of any string), alice's is 1.0 s.  Both
    stores rank alice first: the comparator reads 3.0 off "-3.0s", so the board
    is not ascending by score value, while its ranks are 1, 2. *)
Lemma getLeaderboard_negative_time :
  Db.valuesOf Samples.dbTimes 1 "redlight" = [Num.Tenths 10]
  /\ Db.valuesOf Samples.dbTimes 2 "redlight" = [Num.Tenths (-30)]
  /\ map (fun e => (rank e, player e, score e))
         (Db.getLeaderboard Samples.dbTimes "redlight")
     = [(1, "alice", "1.0s"); (2, "bob", "-3.0s")]
  /\ map (fun e => (rank e, player e, score e))
         (Mem.getLeaderboard Samples.memTimes "redlight")
     = [(1, "alice", "1.0s"); (2, "bob", "-3.0s")].
Proof. repeat split; vm_compute; reflexivity. Qed.

(* ================================================================== *)
(** * Further properties of the stores and the routes *)
(* ================================================================== *)

(** ** Guessing sessions: refusals, feedback and the shape of a session *)

(** X1.  Without a session for the user, [makeGuess] answers
    [No active guessing game found] and returns the store as it was, in both
    stores. *)
Theorem makeGuess_without_session (userId guess : Z) (clk : Clock) :
  (forall st, Mem.session st userId = None ->
     Mem.makeGuess st clk userId guess
     = (GuessError "No active guessing game found", st))
  /\
  (forall st, Db.session st userId = None ->
     Db.makeGuess st clk userId guess
     = (Returned (GuessError "No active guessing game found"), st)).
Proof.
  split; intros st Hs.
  - unfold Mem.session in Hs; unfold Mem.makeGuess.
    destruct (JsMap.get userId (Mem.userGames st)) as [ug|]; [|reflexivity].
    now rewrite Hs.
  - unfold Db.session in Hs; unfold Db.makeGuess.
    destruct (JsMap.get userId (Db.userGames st)) as [ug|]; [|reflexivity].
    now rewrite Hs.
Qed.

Lemma makeGuess_without_session_witness :
  Mem.makeGuess Samples.mem Samples.clock 1 42
  = (GuessError "No active guessing game found", Samples.mem)
  /\ Db.makeGuess Samples.db Samples.clock 1 42
     = (Returned (GuessError "No active guessing game found"), Samples.db).
Proof.
  split.
  - exact (proj1 (makeGuess_without_session 1 42 Samples.clock) Samples.mem eq_refl).
  - exact (proj2 (makeGuess_without_session 1 42 Samples.clock) Samples.db eq_refl).
Defined.

(** X2.  On a session that is over, won or lost, [makeGuess] answers
    [Game is already over] for every guess, fresh or not, and returns the
    store as it was. *)
Theorem makeGuess_after_game_over
    (game : GuessingState) (userId guess : Z) (clk : Clock) :
  gameOver game = true ->
  (forall st, Mem.session st userId = Some game ->
     Mem.makeGuess st clk userId guess = (GuessError "Game is already over", st))
  /\
  (forall st, Db.session st userId = Some game ->
     Db.makeGuess st clk userId guess
     = (Returned (GuessError "Game is already over"), st)).
Proof.
  intros Hover; split; intros st Hs.
  - apply Mem_session_inv in Hs as (ug & Hug & Hg).
    unfold Mem.makeGuess; now rewrite Hug, Hg, Hover.
  - apply Db_session_inv in Hs as (ug & Hug & Hg).
    unfold Db.makeGuess; now rewrite Hug, Hg, Hover.
Qed.

Lemma makeGuess_after_game_over_witness :
  Mem.makeGuess (Samples.memWith (Samples.playing (setGameOver Samples.session42)))
    Samples.clock 1 42
  = (GuessError "Game is already over",
     Samples.memWith (Samples.playing (setGameOver Samples.session42))).
Proof.
  exact (proj1 (makeGuess_after_game_over (setGameOver Samples.session42) 1 42
                  Samples.clock eq_refl)
               (Samples.memWith (Samples.playing (setGameOver Samples.session42)))
               eq_refl).
Defined.

(** X3.  In a session in progress, a fresh guess that misses the target and
    is not the last attempt is answered [too low] when below the target and
    [too high] when above, with the attempts left after it and no
    [correctNumber]; the session goes on with the guess counted, and nothing
    else in the store changes. *)
Theorem makeGuess_wrong_guess_feedback
    (game : GuessingState) (guess userId : Z) (clk : Clock) :
  gameOver game = false ->
  ~ In guess (previousGuesses game) ->
  guess <> targetNumber game ->
  attempts game + 1 < maxAttempts game ->
  (forall st, Mem.session st userId = Some game ->
     Mem.makeGuess st clk userId guess
     = (GuessOk {| message := if guess <? targetNumber game then "too low" else "too high";
                   isCorrect := false;
                   attemptsLeft := maxAttempts game - (attempts game + 1);
                   reply_previousGuesses := previousGuesses game ++ [guess];
                   correctNumber := None |},
        Mem.withUserGames st
          (JsMap.set userId {| guessing := Some (recordGuess game guess) |}
                     (Mem.userGames st))))
  /\
  (forall st, Db.session st userId = Some game ->
     Db.makeGuess st clk userId guess
     = (Returned
          (GuessOk {| message := if guess <? targetNumber game then "too low" else "too high";
                      isCorrect := false;
                      attemptsLeft := maxAttempts game - (attempts game + 1);
                      reply_previousGuesses := previousGuesses game ++ [guess];
                      correctNumber := None |}),
        Db.withUserGames st
          (JsMap.set userId {| guessing := Some (recordGuess game guess) |}
                     (Db.userGames st)))).
Proof.
  intros Hover Hfresh Hwrong Hleft.
  assert (Hinc : includes guess (previousGuesses game) = false).
  { destruct (includes guess (previousGuesses game)) eqn:E; auto.
    apply includes_In in E; contradiction. }
  assert (Hne : (guess =? targetNumber game) = false) by now apply Z.eqb_neq.
  assert (Hfin : forall msg,
             finishGuess (recordGuess game guess) msg false
             = (recordGuess game guess,
                {| message := msg; isCorrect := false;
                   attemptsLeft := maxAttempts game - (attempts game + 1);
                   reply_previousGuesses := previousGuesses game ++ [guess];
                   correctNumber := None |})).
  { intros msg; unfold finishGuess; cbn [maxAttempts attempts recordGuess].
    replace (maxAttempts game - (attempts game + 1) <=? 0) with false
      by (symmetry; apply Z.leb_gt; lia).
    cbn [andb gameOver recordGuess previousGuesses]. now rewrite Hover. }
  split; intros st Hs.
  - apply Mem_session_inv in Hs as (ug & Hug & Hg).
    unfold Mem.makeGuess; rewrite Hug, Hg, Hover, Hinc.
    cbn [targetNumber recordGuess]; rewrite Hne.
    destruct (guess <? targetNumber game); rewrite Hfin; reflexivity.
  - apply Db_session_inv in Hs as (ug & Hug & Hg).
    unfold Db.makeGuess; rewrite Hug, Hg, Hover, Hinc.
    cbn [targetNumber recordGuess]; rewrite Hne, Hfin. reflexivity.
Qed.

Lemma makeGuess_wrong_guess_feedback_witness :
  Mem.makeGuess (Samples.memWith (Samples.playing Samples.session42)) Samples.clock 1 30
  = (GuessOk {| message := "too low"; isCorrect := false; attemptsLeft := 8;
                reply_previousGuesses := [50; 30]; correctNumber := None |},
     Samples.memWith (Samples.playing (recordGuess Samples.session42 30))).
Proof.
  assert (Hfresh : ~ In 30 (previousGuesses Samples.session42))
    by (simpl; intuition discriminate).
  assert (Hwrong : 30 <> targetNumber Samples.session42) by discriminate.
  exact (proj1 (makeGuess_wrong_guess_feedback Samples.session42 30 1 Samples.clock
                  eq_refl Hfresh Hwrong eq_refl)
               (Samples.memWith (Samples.playing Samples.session42)) eq_refl).
Defined.

Lemma finishGuess_session (g : GuessingState) (msg msg' : string) (correct : bool) :
  fst (finishGuess g msg correct) = fst (finishGuess g msg' correct).
Proof. reflexivity. Qed.

Lemma Mem_session_after_guess (st : Mem.Storage) clk userId guess game :
  Mem.session st userId = Some game ->
  Mem.session (snd (Mem.makeGuess st clk userId guess)) userId
  = Some (sessionAfterGuess game guess).
Proof.
  intros Hs; pose proof Hs as Hs'.
  apply Mem_session_inv in Hs as (ug & Hug & Hg).
  unfold Mem.makeGuess, sessionAfterGuess; rewrite Hug, Hg.
  destruct (gameOver game); [exact Hs'|].
  destruct (includes guess (previousGuesses game)); [exact Hs'|].
  cbn [targetNumber recordGuess].
  destruct (guess =? targetNumber game).
  - rewrite finishGuess_correct by reflexivity. cbn [snd].
    apply Mem_session_stored.
  - destruct (guess <? targetNumber game);
      match goal with
      | |- context [finishGuess ?g ?m false] =>
          rewrite (surjective_pairing (finishGuess g m false))
      end; cbn [snd]; rewrite Mem_session_stored; reflexivity.
Qed.

Lemma Db_session_after_guess (st : Db.Storage) clk userId guess game :
  Db.session st userId = Some game ->
  Db.session (snd (Db.makeGuess st clk userId guess)) userId
  = Some (sessionAfterGuess game guess).
Proof.
  intros Hs; pose proof Hs as Hs'.
  apply Db_session_inv in Hs as (ug & Hug & Hg).
  unfold Db.makeGuess, sessionAfterGuess; rewrite Hug, Hg.
  destruct (gameOver game); [exact Hs'|].
  destruct (includes guess (previousGuesses game)); [exact Hs'|].
  cbn [targetNumber recordGuess].
  destruct (guess =? targetNumber game).
  - destruct (Db.recordScore st clk userId "guessing" _) as [[[]|e] st1]; cbn [snd].
    + rewrite finishGuess_correct by reflexivity. apply Db_session_stored.
    + apply Db_session_stored.
  - match goal with
    | |- context [finishGuess ?g ?m false] =>
        rewrite (surjective_pairing (finishGuess g m false))
    end; cbn [snd]; rewrite Db_session_stored; reflexivity.
Qed.

Lemma sessionOk_new (floorDraw userId : Z) :
  sessionOk (newGuessingState floorDraw userId).
Proof.
  unfold sessionOk; simpl; repeat split; try lia; try constructor; auto; discriminate.
Qed.

Lemma sessionOk_after_guess (game : GuessingState) (guess : Z) :
  sessionOk game ->
  sessionOk (sessionAfterGuess game guess)
  /\ targetNumber (sessionAfterGuess game guess) = targetNumber game.
Proof.
  intros Hok; unfold sessionAfterGuess.
  destruct (gameOver game) eqn:Hover; [auto|].
  destruct (includes guess (previousGuesses game)) eqn:Hinc; [auto|].
  assert (Hfresh : ~ In guess (previousGuesses game)).
  { intros Hin; apply includes_In in Hin; congruence. }
  destruct Hok as (Hlen & Hnd & Hmax & Hle & Hopen & _).
  destruct (Hopen Hover) as [Hlt Hmiss].
  assert (Hnd' : NoDup (previousGuesses game ++ [guess])).
  { apply NoDup_app; repeat split; auto.
    - repeat constructor; simpl; tauto.
    - intros x Hx [<-|[]]; contradiction. }
  assert (Hlen' : attempts game + 1
                  = Z.of_nat (List.length (previousGuesses game ++ [guess]))).
  { rewrite length_app; simpl; lia. }
  destruct (guess =? targetNumber game) eqn:Hhit.
  - apply Z.eqb_eq in Hhit; split; [|reflexivity].
    unfold sessionOk; cbn [setGameOver recordGuess attempts previousGuesses
                            maxAttempts gameOver targetNumber].
    repeat split; auto; try lia; try discriminate.
    intros _; left; apply in_or_app; right; simpl; auto.
  - apply Z.eqb_neq in Hhit; split; [|unfold finishGuess; cbn;
      destruct ((maxAttempts game - (attempts game + 1) <=? 0) && true); reflexivity].
    unfold finishGuess; cbn [fst maxAttempts attempts recordGuess negb].
    destruct (maxAttempts game - (attempts game + 1) <=? 0) eqn:Hlast; cbn [andb].
    + apply Z.leb_le in Hlast.
      unfold sessionOk; cbn [setGameOver recordGuess attempts previousGuesses
                              maxAttempts gameOver targetNumber].
      repeat split; auto; try lia; try discriminate.
    + apply Z.leb_gt in Hlast.
      unfold sessionOk; cbn [recordGuess attempts previousGuesses
                              maxAttempts gameOver targetNumber].
      repeat split; auto; try lia.
      * intros Hin; apply in_app_or in Hin as [Hin|[E|[]]]; [contradiction|].
        congruence.
      * intros E; congruence.
Qed.

Lemma Db_countGamePlayed_session (st : Db.Storage) (userId k : Z) :
  Db.session (snd (Db.countGamePlayed st userId)) k = Db.session st k.
Proof.
  unfold Db.countGamePlayed.
  destruct (Db.getUser st userId) as [user|]; [|reflexivity].
  destruct (gamesPlayed user + 1 >? Db.int4Max); reflexivity.
Qed.

(** X4.  Whatever guesses a user sends after [startGuessingGame], in either
    store and whether or not some call is rejected, the session stays well
    formed: its attempts count the distinct recorded guesses, never exceed
    ten, the target is the one drawn at the start, a game in progress has not
    met the target and a closed one was won or is exhausted. *)
Theorem session_well_formed_along_a_game
    (floorDraw userId : Z) (clk : Clock) (guesses : list Z) :
  (forall st, exists game,
     Mem.session (Mem.playGuesses (Mem.startGuessingGame st floorDraw userId)
                    clk userId guesses) userId = Some game
     /\ sessionOk game /\ targetNumber game = floorDraw + 1)
  /\
  (forall st, exists game,
     Db.session (Db.playGuesses (snd (Db.startGuessingGame st floorDraw userId))
                   clk userId guesses) userId = Some game
     /\ sessionOk game /\ targetNumber game = floorDraw + 1).
Proof.
  split; intros st.
  - assert (Hstart : exists game,
              Mem.session (Mem.startGuessingGame st floorDraw userId) userId = Some game
              /\ sessionOk game /\ targetNumber game = floorDraw + 1).
    { exists (newGuessingState floorDraw userId); split; [|split].
      - unfold Mem.startGuessingGame, Mem.countGamePlayed.
        destruct (JsMap.get userId _); apply Mem_session_stored.
      - apply sessionOk_new.
      - reflexivity. }
    revert Hstart; generalize (Mem.startGuessingGame st floorDraw userId).
    unfold Mem.playGuesses; induction guesses as [|guess guesses IH]; intros s H; [exact H|].
    simpl; apply IH. destruct H as (game & Hs & Hok & Ht).
    exists (sessionAfterGuess game guess).
    destruct (sessionOk_after_guess game guess Hok) as [Hok' Ht'].
    split; [now apply Mem_session_after_guess | split; [exact Hok' | congruence]].
  - assert (Hstart : exists game,
              Db.session (snd (Db.startGuessingGame st floorDraw userId)) userId = Some game
              /\ sessionOk game /\ targetNumber game = floorDraw + 1).
    { exists (newGuessingState floorDraw userId); split; [|split].
      - unfold Db.startGuessingGame. rewrite Db_countGamePlayed_session.
        apply Db_session_stored.
      - apply sessionOk_new.
      - reflexivity. }
    revert Hstart; generalize (snd (Db.startGuessingGame st floorDraw userId)).
    unfold Db.playGuesses; induction guesses as [|guess guesses IH]; intros s H; [exact H|].
    simpl; apply IH. destruct H as (game & Hs & Hok & Ht).
    exists (sessionAfterGuess game guess).
    destruct (sessionOk_after_guess game guess Hok) as [Hok' Ht'].
    split; [now apply Db_session_after_guess | split; [exact Hok' | congruence]].
Qed.

(** X5.  [startGuessingGame] replaces whatever session the user had, finished
    or not, by a fresh one: no attempts, no recorded guesses, ten attempts
    allowed, target [floorDraw + 1].  In the database store this holds even
    when the call goes on to reject for a missing user row. *)
Theorem startGuessingGame_overwrites (floorDraw userId : Z) :
  (forall st,
     Mem.session (Mem.startGuessingGame st floorDraw userId) userId
     = Some (newGuessingState floorDraw userId))
  /\
  (forall st,
     Db.session (snd (Db.startGuessingGame st floorDraw userId)) userId
     = Some (newGuessingState floorDraw userId)).
Proof.
  split; intros st.
  - unfold Mem.startGuessingGame, Mem.countGamePlayed.
    destruct (JsMap.get userId _); apply Mem_session_stored.
  - unfold Db.startGuessingGame. rewrite Db_countGamePlayed_session.
    apply Db_session_stored.
Qed.

Lemma Mem_session_other (st : Mem.Storage) (userId other : Z) (ug : UserGames) :
  other <> userId ->
  Mem.session (Mem.withUserGames st (JsMap.set userId ug (Mem.userGames st))) other
  = Mem.session st other.
Proof.
  intros Hne; unfold Mem.session; cbn [Mem.userGames Mem.withUserGames].
  now rewrite JsMap_get_set_other.
Qed.

Lemma Db_session_other (st : Db.Storage) (userId other : Z) (ug : UserGames) :
  other <> userId ->
  Db.session (Db.withUserGames st (JsMap.set userId ug (Db.userGames st))) other
  = Db.session st other.
Proof.
  intros Hne; unfold Db.session; cbn [Db.userGames Db.withUserGames].
  now rewrite JsMap_get_set_other.
Qed.

Lemma Db_recordScore_userGames (st : Db.Storage) clk userId gameType value :
  Db.userGames (snd (Db.recordScore st clk userId gameType value)) = Db.userGames st.
Proof.
  unfold Db.recordScore, Db.insertScore.
  destruct (Db.getGameIdByType st gameType); [|reflexivity].
  destruct (negb (existsb _ (Db.users st))); [reflexivity|].
  destruct (negb (existsb _ (Db.games st))); reflexivity.
Qed.

(** X6.  Sessions are kept per user: neither [startGuessingGame] nor
    [makeGuess] called for one user changes the session of another, in either
    store and whatever the calls resolve to. *)
Theorem sessions_are_per_user (userId other : Z) :
  other <> userId ->
  (forall st floorDraw,
     Mem.session (Mem.startGuessingGame st floorDraw userId) other = Mem.session st other)
  /\ (forall st clk guess,
        Mem.session (snd (Mem.makeGuess st clk userId guess)) other = Mem.session st other)
  /\ (forall st floorDraw,
        Db.session (snd (Db.startGuessingGame st floorDraw userId)) other
        = Db.session st other)
  /\ (forall st clk guess,
        Db.session (snd (Db.makeGuess st clk userId guess)) other = Db.session st other).
Proof.
  intros Hne; repeat split.
  - intros st floorDraw; unfold Mem.startGuessingGame, Mem.countGamePlayed.
    destruct (JsMap.get userId _); now apply Mem_session_other.
  - intros st clk guess; unfold Mem.makeGuess.
    destruct (JsMap.get userId (Mem.userGames st)) as [ug|]; [|reflexivity].
    destruct (guessing ug) as [game|]; [|reflexivity].
    destruct (gameOver game); [reflexivity|].
    destruct (includes guess (previousGuesses game)); [reflexivity|].
    destruct (guess =? targetNumber (recordGuess game guess)).
    + destruct (finishGuess _ "correct" true) as [g3 reply]; cbn [snd].
      unfold Mem.session; cbn [Mem.userGames Mem.withUserGames].
      rewrite JsMap_get_set_other by exact Hne.
      now rewrite (proj2 (Mem_recordScore_frame _ _ _ _ _)).
    + destruct (guess <? targetNumber (recordGuess game guess));
        destruct (finishGuess _ _ false) as [g3 reply]; cbn [snd];
        now apply Mem_session_other.
  - intros st floorDraw; unfold Db.startGuessingGame.
    rewrite Db_countGamePlayed_session. now apply Db_session_other.
  - intros st clk guess; unfold Db.makeGuess.
    destruct (JsMap.get userId (Db.userGames st)) as [ug|]; [|reflexivity].
    destruct (guessing ug) as [game|]; [|reflexivity].
    destruct (gameOver game); [reflexivity|].
    destruct (includes guess (previousGuesses game)); [reflexivity|].
    destruct (guess =? targetNumber (recordGuess game guess)).
    + pose proof (Db_recordScore_userGames st clk userId "guessing"
                    (Num.ofInt (attempts (setGameOver (recordGuess game guess))))) as Hug.
      destruct (Db.recordScore st clk userId "guessing" _) as [[[]|e] st1];
        cbn [snd] in *;
        try (destruct (finishGuess _ "correct" true) as [g3 reply]; cbn [snd]);
        unfold Db.session; cbn [Db.userGames Db.withUserGames];
        rewrite JsMap_get_set_other by exact Hne; now rewrite Hug.
    + destruct (finishGuess _ _ false) as [g3 reply]; cbn [snd].
      now apply Db_session_other.
Qed.

Lemma sessions_are_per_user_witness :
  Mem.session (snd (Mem.makeGuess (Samples.memWith (Samples.playing Samples.session42))
                      Samples.clock 2 42)) 1
  = Some Samples.session42.
Proof.
  assert (Hne : 1 <> 2) by discriminate.
  exact (proj1 (proj2 (sessions_are_per_user 2 1 Hne))
               (Samples.memWith (Samples.playing Samples.session42)) Samples.clock 42).
Defined.

(** ** What recording a score does *)



Lemma Db_recordScore_never_returns (st : Db.Storage) clk userId gameType value st' :
  Db.recordScore st clk userId gameType value <> (Returned tt, st').
Proof.
  unfold Db.recordScore.
  destruct (Db.getGameIdByType st gameType) as [gameId|]; [|discriminate].
  destruct (Db.insertScore st clk userId gameId value) as [[[]|e] st1]; discriminate.
Qed.



Lemma JsMap_set_absent {V} (k : Z) (v : V) (m : JsMap.t V) :
  JsMap.has k m = false -> JsMap.set k v m = m ++ [(k, v)].
Proof.
  unfold JsMap.has; induction m as [|[k' v'] m IH]; simpl; auto.
  destruct (k' =? k); [discriminate|].
  intros H; now rewrite IH.
Qed.

Lemma JsMap_set_In {V} (k : Z) (v : V) (m : JsMap.t V) :
  In (k, v) (JsMap.set k v m).
Proof.
  induction m as [|[k' v'] m IH]; simpl; auto.
  destruct (k' =? k) eqn:E; simpl; auto.
  apply Z.eqb_eq in E; subst; auto.
Qed.

Lemma JsMap_keys_has {V} (k : Z) (m : JsMap.t V) :
  ~ In k (JsMap.keys m) -> JsMap.has k m = false.
Proof.
  unfold JsMap.keys, JsMap.has; induction m as [|[k' v'] m IH]; simpl; auto.
  intros H. destruct (Z.eqb_spec k' k); [tauto|]. apply IH; tauto.
Qed.

Lemma JsMap_get_app {V} (k : Z) (v : V) (m l : JsMap.t V) :
  JsMap.get k m = Some v -> JsMap.get k (m ++ l) = Some v.
Proof.
  induction m as [|[k' v'] m IH]; simpl; [discriminate|].
  destruct (k' =? k); auto.
Qed.

Lemma keys_1_to_n_NoDup (n : nat) : NoDup (map Z.of_nat (seq 1 n)).
Proof.
  apply Finite.Injective_map_NoDup; [|apply seq_NoDup].
  intros a b; apply Nat2Z.inj.
Qed.

Lemma catalog_lookup (st : Mem.Storage) (g : Game) :
  Mem.catalogOk st -> In g (JsMap.values (Mem.games st)) ->
  JsMap.get (game_id g) (Mem.games st) = Some g.
Proof.
  intros (Hkeys & Hids & _) Hin.
  apply in_map_iff in Hin as ([k g'] & E & Hin); simpl in E; subst g'.
  rewrite (Hids _ _ Hin). apply JsMap_get_In; [|exact Hin].
  rewrite Hkeys. apply keys_1_to_n_NoDup.
Qed.

Lemma catalog_next_key (st : Mem.Storage) :
  Mem.catalogOk st -> JsMap.has (JsMap.size (Mem.games st) + 1) (Mem.games st) = false.
Proof.
  intros (Hkeys & _); apply JsMap_keys_has; rewrite Hkeys.
  intros Hin; apply in_map_iff in Hin as (i & Hi & Hin).
  apply in_seq in Hin. unfold JsMap.size in Hi. lia.
Qed.

Lemma Mem_recordScore_effect
    (st : Mem.Storage) (clk : Clock) (userId : Z) (gameType : string) (value : Num.t) :
  Mem.catalogOk st ->
  Mem.catalogOk (Mem.recordScore st clk userId gameType value)
  /\ (forall k g, JsMap.get k (Mem.games st) = Some g ->
        JsMap.get k (Mem.games (Mem.recordScore st clk userId gameType value)) = Some g)
  /\ (forall g, find (fun g => String.eqb (game_type g) gameType)
                     (JsMap.values (Mem.games st)) = Some g ->
        Mem.games (Mem.recordScore st clk userId gameType value) = Mem.games st)
  /\ (exists g s,
        JsMap.get (game_id g) (Mem.games (Mem.recordScore st clk userId gameType value))
        = Some g
        /\ game_type g = gameType
        /\ Mem.userScoresOf (Mem.recordScore st clk userId gameType value) userId
           = Mem.userScoresOf st userId ++ [s]
        /\ score_gameId s = game_id g /\ score_userId s = userId /\ score_value s = value)
  /\ (forall other, other <> userId ->
        Mem.userScoresOf (Mem.recordScore st clk userId gameType value) other
        = Mem.userScoresOf st other).
Proof.
  intros Hok.
  assert (Hothers : forall other, other <> userId ->
            Mem.userScoresOf (Mem.recordScore st clk userId gameType value) other
            = Mem.userScoresOf st other).
  { intros other Hne; unfold Mem.recordScore.
    destruct (find _ (JsMap.values (Mem.games st)));
      unfold Mem.userScoresOf at 1; cbn [Mem.scores];
      now rewrite JsMap_get_set_other. }
  unfold Mem.recordScore in *.
  destruct (find _ (JsMap.values (Mem.games st))) as [g|] eqn:Hfind.
  - apply find_some in Hfind as [Hin Hty]. apply String.eqb_eq in Hty.
    split; [exact Hok|]. split; [auto|]. split; [reflexivity|]. split; [|exact Hothers].
    exists g; eexists; cbn [Mem.games]; split; [now apply catalog_lookup|].
    split; [exact Hty|].
    split; [unfold Mem.userScoresOf at 1; cbn [Mem.scores];
            rewrite JsMap_get_set_same; reflexivity | repeat split].
  - pose proof (catalog_next_key st Hok) as Hfresh.
    set (gameId := JsMap.size (Mem.games st) + 1) in *.
    set (game := {| game_id := gameId; game_type := gameType;
                    game_name := getGameName gameType;
                    game_createdAt := nowIso clk |}).
    cbn [Mem.games]. rewrite (JsMap_set_absent gameId game) by exact Hfresh.
    destruct Hok as (Hkeys & Hids & Htypes).
    split; [|split; [|split; [discriminate|split; [|exact Hothers]]]].
    + unfold Mem.catalogOk; cbn [Mem.games]; split; [|split].
      * unfold JsMap.keys in *. rewrite map_app, length_app, Hkeys; simpl.
        rewrite Nat.add_1_r, seq_S, map_app; simpl.
        unfold gameId, JsMap.size. do 2 f_equal. lia.
      * intros k g Hin; apply in_app_or in Hin as [Hin|[[= <- <-]|[]]]; auto.
      * unfold JsMap.values in *. rewrite map_app, map_app; simpl.
        apply NoDup_app; repeat split; auto.
        -- repeat constructor; simpl; tauto.
        -- intros ty Hty [<-|[]].
           apply in_map_iff in Hty as (g & Eg & Hg).
           apply (find_none _ _ Hfind) in Hg. 
           rewrite Eg, String.eqb_refl in Hg. discriminate.
    + intros k g Hget. now apply JsMap_get_app.
    + exists game; eexists; split; [|split; [reflexivity|]].
      * rewrite <- (JsMap_set_absent gameId game) by exact Hfresh.
        apply JsMap_get_set_same.
      * split; [unfold Mem.userScoresOf at 1; cbn [Mem.scores];
                rewrite JsMap_get_set_same; reflexivity | repeat split].
Qed.

Lemma catalogOk_seeded : Mem.catalogOk Samples.memSeeded.
Proof.
  split; [reflexivity|split].
  - intros k g H; simpl in H.
    repeat (destruct H as [[= <- <-]|H]; [reflexivity|]). contradiction.
  - repeat constructor; simpl; intuition discriminate.
Defined.

Lemma storeOk_seeded : Mem.storeOk Samples.memSeeded.
Proof. split; [exact catalogOk_seeded|]. intros k l s []. Defined.

(** X8.  [MemStorage.recordScore] keeps the catalog well formed (games under
    keys 1..n, each under its own id, one per type); it never drops or alters
    an entry, and adds none when the type is already there.  Afterwards the
    type has an entry, and the one score appended to the user's array points to
    it.  The users, the sessions and the arrays of other users are as
    before. *)
Theorem Mem_recordScore_keeps_catalog
    (st : Mem.Storage) (clk : Clock) (userId : Z) (gameType : string) (value : Num.t) :
  Mem.catalogOk st ->
  Mem.catalogOk (Mem.recordScore st clk userId gameType value)
  /\ (forall k g, JsMap.get k (Mem.games st) = Some g ->
        JsMap.get k (Mem.games (Mem.recordScore st clk userId gameType value)) = Some g)
  /\ (forall g, find (fun g => String.eqb (game_type g) gameType)
                     (JsMap.values (Mem.games st)) = Some g ->
        Mem.games (Mem.recordScore st clk userId gameType value) = Mem.games st)
  /\ (exists g s,
        JsMap.get (game_id g) (Mem.games (Mem.recordScore st clk userId gameType value))
        = Some g
        /\ game_type g = gameType
        /\ Mem.userScoresOf (Mem.recordScore st clk userId gameType value) userId
           = Mem.userScoresOf st userId ++ [s]
        /\ score_gameId s = game_id g /\ score_userId s = userId /\ score_value s = value)
  /\ (forall other, other <> userId ->
        Mem.userScoresOf (Mem.recordScore st clk userId gameType value) other
        = Mem.userScoresOf st other)
  /\ Mem.users (Mem.recordScore st clk userId gameType value) = Mem.users st
  /\ Mem.userGames (Mem.recordScore st clk userId gameType value) = Mem.userGames st.
Proof.
  intros Hok.
  destruct (Mem_recordScore_effect st clk userId gameType value Hok)
    as (H1 & H2 & H3 & H4 & H5).
  split; [exact H1|]. split; [exact H2|]. split; [exact H3|].
  split; [exact H4|]. split; [exact H5|].
  unfold Mem.recordScore.
  destruct (find _ (JsMap.values (Mem.games st))); split; reflexivity.
Qed.

(** X8 at samples: bob records a chess score, a type the seeded catalog lacks,
    and a typing score, a type it has. *)
Lemma Mem_recordScore_keeps_catalog_witness :
  (let st' := Mem.recordScore Samples.memSeeded Samples.clock 2 "chess" (Num.ofInt 3) in
   Mem.catalogOk st'
   /\ JsMap.size (Mem.games st') = 6
   /\ Mem.users st' = Mem.users Samples.memSeeded
   /\ Mem.userGames st' = Mem.userGames Samples.memSeeded)
  /\
  (let st' := Mem.recordScore Samples.memSeeded Samples.clock 2 "typeracer" (Num.ofInt 3) in
   Mem.catalogOk st'
   /\ Mem.games st' = Mem.games Samples.memSeeded
   /\ Mem.users st' = Mem.users Samples.memSeeded
   /\ Mem.userGames st' = Mem.userGames Samples.memSeeded).
Proof.
  split; cbn zeta.
  - pose proof (Mem_recordScore_keeps_catalog
                  Samples.memSeeded Samples.clock 2 "chess" (Num.ofInt 3)
                  catalogOk_seeded) as (H1 & _ & _ & _ & _ & H6 & H7).
    split; [exact H1|]. split; [reflexivity|]. split; [exact H6 | exact H7].
  - pose proof (Mem_recordScore_keeps_catalog
                  Samples.memSeeded Samples.clock 2 "typeracer" (Num.ofInt 3)
                  catalogOk_seeded) as (H1 & _ & H3 & _ & _ & H6 & H7).
    split; [exact H1|]. split; [exact (H3 _ eq_refl)|]. split; [exact H6 | exact H7].
Defined.

(** ** From a recorded score to the leaderboard *)

Lemma assignRanks_In {A} (setRank : A -> Z -> A) (r : Z) (l : list A) (x : A) :
  In x l -> exists n, In (setRank x n) (assignRanks setRank r l).
Proof.
  revert r; induction l as [|a l IH]; intros r; simpl; [contradiction|].
  intros [->|Hin]; [eauto|]. destruct (IH (r + 1) Hin) as (n & Hn); eauto.
Qed.

(** X9.  In [MemStorage], a score recorded for an existing user is listed: the
    board of its game type and the board of all games each have an entry with
    the user's name, that game type and the value as [formatScore] prints
    it. *)
Theorem Mem_recorded_score_is_listed
    (st : Mem.Storage) (clk : Clock) (userId : Z) (user : User)
    (type board : string) (value : Num.t) :
  Mem.catalogOk st ->
  JsMap.get userId (Mem.users st) = Some user ->
  board = "all" \/ board = type ->
  exists e,
    In e (Mem.getLeaderboard (Mem.recordScore st clk userId type value) board)
    /\ player e = username user
    /\ gameType e = type
    /\ score e = formatScore type value.
Proof.
  intros Hok Huser Hboard.
  destruct (Mem_recordScore_effect st clk userId type value Hok)
    as (_ & _ & _ & (g & s & Hg & Hty & Hs & Hgid & _ & Hval) & _).
  destruct (Mem_recordScore_frame st clk userId type value) as [Hus _].
  set (st' := Mem.recordScore st clk userId type value) in *.
  destruct (assignRanks_In withRank 1
              (sort compareEntries
                 (flat_map
                    (fun '(userId, userScores) =>
                       match JsMap.get userId (Mem.users st') with
                       | None => []
                       | Some user =>
                           flat_map
                             (fun s =>
                                match JsMap.get (score_gameId s) (Mem.games st') with
                                | None => []
                                | Some g =>
                                    if String.eqb board "all"
                                       || String.eqb (game_type g) board
                                    then [leaderboardEntry (username user) g s]
                                    else []
                                end)
                             userScores
                       end)
                    (Mem.scores st')))
              (leaderboardEntry (username user) g s)) as (n & Hn).
  - apply (proj2 (sort_In _ _ _)). apply in_flat_map.
    unfold Mem.userScoresOf in Hs.
    destruct (JsMap.get userId (Mem.scores st')) as [l|] eqn:Hl;
      [|now destruct (JsMap.get userId (Mem.scores st)) as [[|]|]].
    exists (userId, l); split; [now apply JsMap_get_Some_In|].
    rewrite Hus, Huser. apply in_flat_map. exists s; split.
    + rewrite Hs; apply in_or_app; simpl; auto.
    + rewrite Hgid, Hg, Hty.
      destruct Hboard as [->| ->]; simpl; [|rewrite String.eqb_refl, orb_true_r];
        simpl; auto.
  - exists (withRank (leaderboardEntry (username user) g s) n).
    split; [exact Hn|]. simpl. now rewrite Hty, Hval.
Qed.

Lemma Mem_recorded_score_is_listed_witness :
  exists e,
    In e (Mem.getLeaderboard
            (Mem.recordScore Samples.mem Samples.clock 1 "guessing" (Num.ofInt 3))
            "guessing")
    /\ player e = username Samples.alice
    /\ gameType e = "guessing"
    /\ score e = formatScore "guessing" (Num.ofInt 3).
Proof.
  apply (Mem_recorded_score_is_listed
           Samples.mem Samples.clock 1 Samples.alice "guessing" "guessing" (Num.ofInt 3)
           (conj eq_refl (conj (fun k g (H : In (k, g) []) => match H with end)
                               (NoDup_nil _)))
           eq_refl (or_intror eq_refl)).
Defined.

(** X10.  In [DatabaseStorage], when the game type has a catalog row, the user
    has a row, the game ids are distinct and the value is one a [real] column
    holds exactly, [recordScore] rejects with its [TypeError] and the score is
    listed all the same: in the store it leaves, the board of its game type and
    the board of all games each have an entry with the user's name, that game
    type and the value as [formatScore] prints it. *)
Theorem Db_recorded_score_is_listed
    (st : Db.Storage) (clk : Clock) (userId : Z) (user : User) (g : Game)
    (type board : string) (value : Num.t) :
  NoDup (map game_id (Db.games st)) ->
  find (fun g => String.eqb (game_type g) type) (Db.games st) = Some g ->
  Db.getUser st userId = Some user ->
  Db.realExact value ->
  board = "all" \/ board = type ->
  exists st',
    Db.recordScore st clk userId type value = (Thrown "db.sql is not a function", st')
    /\ exists e,
         In e (Db.getLeaderboard st' board)
         /\ player e = username user
         /\ gameType e = type
         /\ score e = formatScore type value.
Proof.
  intros Hnd Hg Huser _ Hboard.
  destruct (Db_recordScore_stores st clk userId type value g user Hg Huser)
    as (s & -> & Hsu & Hsg & Hsv).
  eexists; split; [reflexivity|].
  match goal with |- context [Db.getLeaderboard ?x board] => set (st' := x) end.
  pose proof (find_some _ _ Hg) as [Hgin Hgty]. apply String.eqb_eq in Hgty.
  set (r := {| Db.row_score := s; Db.row_username := username user |}).
  assert (Hrow : In r (Db.joinUsers st' (fun _ => true))).
  { unfold Db.joinUsers. apply in_flat_map. exists s; split.
    - subst st'; cbn [Db.scores]. apply in_or_app; simpl; auto.
    - assert (Hu' : Db.getUser st' userId = Some user) by exact Huser.
      apply find_some in Hu' as [Hin Hid].
      apply in_map_iff. exists user.
      split; [reflexivity|]. apply filter_In; split; [exact Hin|].
      now rewrite Hsu. }
  assert (Hres : In r (if String.eqb board "all" then Db.joinUsers st' (fun _ => true)
                       else flat_map
                              (fun r =>
                                 map (fun _ => r)
                                     (filter (fun g => (game_id g =? score_gameId (Db.row_score r))
                                                       && String.eqb (game_type g) board)
                                             (Db.games st')))
                              (Db.joinUsers st' (fun _ => true)))).
  { destruct (String.eqb board "all") eqn:Hall; [exact Hrow|].
    destruct Hboard as [->| ->]; [discriminate|].
    apply in_flat_map. exists r; split; [exact Hrow|].
    apply in_map_iff. exists g; split; [reflexivity|].
    apply filter_In; split; [exact Hgin|].
    simpl. now rewrite Hsg, Z.eqb_refl, Hgty, String.eqb_refl. }
  destruct (assignRanks_In withRank 1
              (sort compareEntries
                 (flat_map
                    (fun r =>
                       match JsMap.get (score_gameId (Db.row_score r)) (Db.gameMap st') with
                       | None => []
                       | Some g => [leaderboardEntry (Db.row_username r) g (Db.row_score r)]
                       end)
                    (if String.eqb board "all" then Db.joinUsers st' (fun _ => true)
                     else flat_map
                            (fun r =>
                               map (fun _ => r)
                                   (filter (fun g => (game_id g =? score_gameId (Db.row_score r))
                                                     && String.eqb (game_type g) board)
                                           (Db.games st')))
                            (Db.joinUsers st' (fun _ => true)))))
              (leaderboardEntry (username user) g s)) as (n & Hn).
  - apply (proj2 (sort_In _ _ _)). apply in_flat_map. exists r; split; [exact Hres|].
    simpl. rewrite Hsg. unfold Db.gameMap.
    rewrite (gameMap_get (Db.games st') g Hnd Hgin). simpl; auto.
  - exists (withRank (leaderboardEntry (username user) g s) n).
    split; [exact Hn|]. simpl. now rewrite Hgty, Hsv.
Qed.

Lemma Db_recorded_score_is_listed_witness :
  exists st',
    Db.recordScore Samples.db Samples.clock 1 "redlight" (Num.Tenths 12)
    = (Thrown "db.sql is not a function", st')
    /\ exists e,
         In e (Db.getLeaderboard st' "all")
         /\ player e = username Samples.alice
         /\ gameType e = "redlight"
         /\ score e = formatScore "redlight" (Num.Tenths 12).
Proof.
  apply (Db_recorded_score_is_listed
           Samples.db Samples.clock 1 Samples.alice
           (nth 2 Samples.seededGames (nth 0 Samples.seededGames
              {| game_id := 0; game_type := ""; game_name := ""; game_createdAt := "" |}))
           "redlight" "all" (Num.Tenths 12)).
  - repeat constructor; simpl; intuition discriminate.
  - reflexivity.
  - reflexivity.
  - reflexivity.
  - left; reflexivity.
Defined.

(** ** The prize wheel and the ledger *)

Lemma walkPrizes_In (random c : float) (selected : Prize) (rest : list Prize) :
  In (walkPrizes random c selected rest) (selected :: rest).
Proof.
  revert c; induction rest as [|prize rest IH]; intros c; simpl; [auto|].
  destruct (random <=? c + probability prize)%float; [auto|].
  destruct (IH (c + probability prize)%float) as [H|H]; auto.
Qed.

Lemma selectPrize_In (random : float) : In (selectPrize random) prizes.
Proof.
  destruct (walkPrizes_In random 0%float (nth 0 prizes noPrize) prizes) as [H|H];
    [|exact H].
  unfold selectPrize; rewrite <- H; simpl; auto.
Qed.

Lemma prize_value_cases (p : Prize) :
  In p prizes ->
  (prize_value p = 0 /\ prize_label p = "Try Again")
  \/ ((prize_value p >? 0) = true
      /\ In (prize_value p) [100; 250; 500; 1000; 150; 750; 300]).
Proof.
  intros H; simpl in H.
  repeat (destruct H as [<-|H]; [simpl; tauto|]). contradiction.
Qed.

(** X11.  Whatever number [Math.random()] gives, even outside [0,1), both
    [spinWheel] methods pick one of the eight prizes.  On "Try Again", the one
    prize of value 0, both answer with its label and value and no score is
    stored: the score map and the catalog of [MemStorage] and the whole database
    are as before.  On any other prize the value is one of the seven point
    values; [MemStorage] answers and appends one score of exactly the value it
    returns; [DatabaseStorage] never answers: it rejects, and when the
    [spinwheel] row and the user's row exist it has stored one score of that
    value before rejecting, the users being as before. *)
Theorem spinWheel_records_the_prize_drawn
    (st : Mem.Storage) (d : Db.Storage) (clk : Clock)
    (random random2 : float) (userId : Z) :
  let result := fst (Mem.spinWheel st clk random random2 userId) in
  let st' := snd (Mem.spinWheel st clk random random2 userId) in
  (exists p, In p prizes
             /\ spin_prize result = prize_label p /\ spin_value result = prize_value p)
  /\ ((spin_value result = 0
       /\ spin_prize result = "Try Again"
       /\ Mem.scores st' = Mem.scores st
       /\ Mem.games st' = Mem.games st
       /\ Db.spinWheel d clk random random2 userId = (Returned result, d))
      \/
      (In (spin_value result) [100; 250; 500; 1000; 150; 750; 300]
       /\ (exists s, Mem.userScoresOf st' userId = Mem.userScoresOf st userId ++ [s]
                     /\ score_value s = Num.ofInt (spin_value result))
       /\ (exists e d', Db.spinWheel d clk random random2 userId = (Thrown e, d'))
       /\ (forall g user,
             find (fun g => String.eqb (game_type g) "spinwheel") (Db.games d) = Some g ->
             Db.getUser d userId = Some user ->
             exists s d',
               Db.spinWheel d clk random random2 userId
               = (Thrown "db.sql is not a function", d')
               /\ Db.scores d' = Db.scores d ++ [s]
               /\ score_userId s = userId
               /\ score_value s = Num.ofInt (spin_value result)
               /\ Db.users d' = Db.users d))).
Proof.
  unfold Mem.spinWheel, Db.spinWheel.
  pose proof (selectPrize_In random) as Hin.
  set (p := selectPrize random) in *. cbn [fst snd].
  assert (Hscores : forall m, Mem.scores (Mem.countGamePlayed m userId) = Mem.scores m
                              /\ Mem.games (Mem.countGamePlayed m userId) = Mem.games m).
  { intros m; unfold Mem.countGamePlayed.
    destruct (JsMap.get userId (Mem.users m)); split; reflexivity. }
  split; [exists p; repeat split; exact Hin|].
  destruct (prize_value_cases p Hin) as [[H0 Hl]|[Hpos Hv]].
  - left. cbn [spinResult spin_value spin_prize].
    rewrite H0; cbn [Z.gtb Z.compare]. rewrite <- H0.
    destruct (Hscores st) as [-> ->]. repeat split; auto.
  - right. cbn [spinResult spin_value spin_prize]. rewrite Hpos.
    split; [exact Hv|]. split; [|split].
    + destruct (Mem_recordScore_appends st clk userId "spinwheel"
                  (Num.ofInt (prize_value p))) as (s & Hs & _ & Hval).
      exists s; split; [|exact Hval].
      unfold Mem.userScoresOf in *.
      now rewrite (proj1 (Hscores _)).
    + pose proof (Db_recordScore_never_returns d clk userId "spinwheel"
                    (Num.ofInt (prize_value p))) as Hnever.
      destruct (Db.recordScore d clk userId "spinwheel" (Num.ofInt (prize_value p)))
        as [[[]|e] d1]; [now elim (Hnever d1) | eauto].
    + intros g user Hg Hu.
      destruct (Db_recordScore_stores d clk userId "spinwheel"
                  (Num.ofInt (prize_value p)) g user Hg Hu) as (s & -> & Hsu & _ & Hsv).
      do 2 eexists; split; [reflexivity|]. cbn [Db.scores Db.users]. auto.
Qed.

(** X11 at a sample: alice draws 0.1, the prize of 100 points, on the seeded
    database. *)
Lemma spinWheel_records_the_prize_drawn_witness :
  exists s d',
    Db.spinWheel Samples.db Samples.clock 0.1 0.5 1
    = (Thrown "db.sql is not a function", d')
    /\ Db.scores d' = Db.scores Samples.db ++ [s]
    /\ score_userId s = 1
    /\ score_value s = Num.ofInt 100
    /\ Db.users d' = Db.users Samples.db.
Proof.
  pose proof (spinWheel_records_the_prize_drawn
                Samples.memSeeded Samples.db Samples.clock 0.1 0.5 1) as H.
  cbn zeta in H. destruct H as (_ & [(H0 & _)|(_ & _ & _ & H)]).
  - vm_compute in H0; discriminate.
  - exact (H (nth 1 Samples.seededGames (Build_Game 0 "" "" "")) Samples.alice
             eq_refl eq_refl).
Defined.

(** ** The board of one game and the board of all games *)

Lemma filter_flat_map {Row Entry} (push : Row -> list Entry) (keep : Entry -> bool)
    (rows : list Row) :
  filter keep (flat_map push rows) = flat_map (fun r => filter keep (push r)) rows.
Proof.
  induction rows as [|a l IH]; simpl; auto. now rewrite filter_app, IH.
Qed.

Lemma Permutation_filter_same {A} (p : A -> bool) (l l' : list A) :
  Permutation l l' -> Permutation (filter p l) (filter p l').
Proof.
  induction 1 as [|x l l' _ IH|x y l|l l' l'' _ IH1 _ IH2]; simpl; auto.
  - destruct (p x); auto.
  - destruct (p x), (p y); auto. apply perm_swap.
  - now transitivity (filter p l').
Qed.

Lemma assignRanks_unranked (r : Z) (l : list LeaderboardEntry) :
  map (fun e => withRank e 0) (assignRanks withRank r l)
  = map (fun e => withRank e 0) l.
Proof. revert r; induction l; intros; simpl; f_equal; auto. Qed.

(** A board is, ranks apart, a rearrangement of the entries it was built
    from. *)
Lemma board_unranked (l : list LeaderboardEntry) :
  Permutation (map (fun e => withRank e 0)
                   (assignRanks withRank 1 (sort compareEntries l)))
              (map (fun e => withRank e 0) l).
Proof.
  rewrite assignRanks_unranked. apply Permutation_map. symmetry. apply sort_perm.
Qed.

Lemma filter_unranked (type : string) (l : list LeaderboardEntry) :
  filter (fun e => String.eqb (gameType e) type) (map (fun e => withRank e 0) l)
  = map (fun e => withRank e 0) (filter (fun e => String.eqb (gameType e) type) l).
Proof.
  induction l as [|e l IH]; simpl; auto.
  destruct (String.eqb (gameType e) type); simpl; now rewrite IH.
Qed.

Lemma typed_board_of_all (type : string) (typed all : list LeaderboardEntry) :
  typed = filter (fun e => String.eqb (gameType e) type) all ->
  Permutation
    (map (fun e => withRank e 0) (assignRanks withRank 1 (sort compareEntries typed)))
    (filter (fun e => String.eqb (gameType e) type)
            (map (fun e => withRank e 0)
                 (assignRanks withRank 1 (sort compareEntries all)))).
Proof.
  intros ->. rewrite board_unranked.
  rewrite <- filter_unranked.
  apply Permutation_filter_same. symmetry. apply board_unranked.
Qed.

(** X12.  In [MemStorage] the leaderboard of one game type holds, ranks and
    order apart, exactly the entries of that type on the leaderboard of all
    games; and whatever the filter, the ranks are 1..N in order. *)
Theorem Mem_board_of_a_game_is_part_of_all (st : Mem.Storage) (type : string) :
  type <> "all" ->
  Permutation
    (map (fun e => withRank e 0) (Mem.getLeaderboard st type))
    (filter (fun e => String.eqb (gameType e) type)
            (map (fun e => withRank e 0) (Mem.getLeaderboard st "all")))
  /\ forall board,
       map rank (Mem.getLeaderboard st board)
       = map (fun i => 1 + Z.of_nat i)
             (seq 0 (List.length (Mem.getLeaderboard st board))).
Proof.
  intros Hty. split.
  - apply typed_board_of_all.
    rewrite filter_flat_map. apply flat_map_ext; intros [userId userScores].
    destruct (JsMap.get userId (Mem.users st)) as [user|]; [|reflexivity].
    rewrite filter_flat_map. apply flat_map_ext; intros s.
    destruct (JsMap.get (score_gameId s) (Mem.games st)) as [g|]; [|reflexivity].
    apply String.eqb_neq in Hty. rewrite Hty; simpl.
    destruct (String.eqb (game_type g) type); reflexivity.
  - intros board; unfold Mem.getLeaderboard.
    rewrite assignRanks_length. now apply assignRanks_ranks.
Qed.

Lemma Mem_board_of_a_game_is_part_of_all_witness :
  Permutation
    (map (fun e => withRank e 0) (Mem.getLeaderboard Samples.memTimes "redlight"))
    (filter (fun e => String.eqb (gameType e) "redlight")
            (map (fun e => withRank e 0) (Mem.getLeaderboard Samples.memTimes "all"))).
Proof.
  apply (proj1 (Mem_board_of_a_game_is_part_of_all Samples.memTimes "redlight"
                  (fun H : "redlight" = "all" =>
                     eq_ind "redlight"
                       (fun s => match s with
                                 | String "r" _ => True
                                 | _ => False
                                 end) I "all" H))).
Defined.

Lemma gameMap_get_none (games : list Game) (k : Z) (m0 : JsMap.t Game) :
  (forall g, In g games -> game_id g <> k) ->
  JsMap.get k (fold_left (fun m g => JsMap.set (game_id g) g m) games m0)
  = JsMap.get k m0.
Proof.
  revert m0; induction games as [|x games IH]; intros m0 Hno; simpl; [reflexivity|].
  rewrite IH by (intros g Hg; apply Hno; simpl; auto).
  apply JsMap_get_set_other. intros E; apply (Hno x); simpl; auto.
Qed.

(** With distinct ids, the rows of [games] with a given id are what
    [gameMap] holds under it. *)
Lemma games_with_id (games : list Game) (k : Z) :
  NoDup (map game_id games) ->
  filter (fun g => game_id g =? k) games
  = match JsMap.get k (fold_left (fun m g => JsMap.set (game_id g) g m) games []) with
    | Some g => [g]
    | None => []
    end.
Proof.
  intros Hnd.
  destruct (find (fun g => game_id g =? k) games) as [g|] eqn:Hf.
  - apply find_some in Hf as [Hin Hid]. apply Z.eqb_eq in Hid; subst k.
    rewrite (gameMap_get games g Hnd Hin).
    clear - Hnd Hin. induction games as [|x games IH]; [contradiction|].
    simpl in *. inversion Hnd as [|? ? Hx Hnd']; subst.
    destruct Hin as [->|Hin].
    + rewrite Z.eqb_refl. f_equal.
      clear - Hx. induction games as [|y games IH]; simpl; auto.
      destruct (Z.eqb_spec (game_id y) (game_id g)) as [E|_].
      * exfalso; apply Hx; simpl; auto.
      * apply IH; intros H; apply Hx; simpl; auto.
    + destruct (Z.eqb_spec (game_id x) (game_id g)) as [E|_]; [|auto].
      exfalso; apply Hx; rewrite E; now apply in_map.
  - rewrite gameMap_get_none; simpl.
    + clear - Hf. induction games as [|x games IH]; simpl in *; auto.
      destruct (game_id x =? k); [discriminate|auto].
    + intros g Hg E. apply (find_none _ _ Hf) in Hg. apply Z.eqb_neq in Hg; tauto.
Qed.

Lemma filter_and_then {A} (p q : A -> bool) (l : list A) :
  filter (fun a => p a && q a) l = filter q (filter p l).
Proof.
  induction l as [|a l IH]; simpl; auto.
  destruct (p a); simpl; [destruct (q a)|]; now rewrite IH.
Qed.

(** X13.  In [DatabaseStorage], when the game ids are distinct, the
    leaderboard of one game type holds, ranks and order apart, exactly the
    entries of that type on the leaderboard of all games; and whatever the
    filter, the ranks are 1..N in order. *)
Theorem Db_board_of_a_game_is_part_of_all (st : Db.Storage) (type : string) :
  NoDup (map game_id (Db.games st)) ->
  type <> "all" ->
  Permutation
    (map (fun e => withRank e 0) (Db.getLeaderboard st type))
    (filter (fun e => String.eqb (gameType e) type)
            (map (fun e => withRank e 0) (Db.getLeaderboard st "all")))
  /\ forall board,
       map rank (Db.getLeaderboard st board)
       = map (fun i => 1 + Z.of_nat i)
             (seq 0 (List.length (Db.getLeaderboard st board))).
Proof.
  intros Hnd Hty. split.
  - apply typed_board_of_all.
    apply String.eqb_neq in Hty. rewrite Hty; simpl.
    unfold Db.gameMap.
    induction (Db.joinUsers st (fun _ => true)) as [|r rows IH]; [reflexivity|].
    cbn [flat_map]. rewrite flat_map_app, filter_app, IH. f_equal.
    rewrite filter_and_then, (games_with_id _ _ Hnd).
    destruct (JsMap.get (score_gameId (Db.row_score r)) _) as [g|] eqn:Hg;
      [|reflexivity].
    simpl. destruct (String.eqb (game_type g) type); simpl; [|reflexivity].
    now rewrite Hg.
  - intros board; unfold Db.getLeaderboard.
    rewrite assignRanks_length. now apply assignRanks_ranks.
Qed.

Lemma Db_board_of_a_game_is_part_of_all_witness :
  Permutation
    (map (fun e => withRank e 0) (Db.getLeaderboard Samples.dbTimes "redlight"))
    (filter (fun e => String.eqb (gameType e) "redlight")
            (map (fun e => withRank e 0) (Db.getLeaderboard Samples.dbTimes "all"))).
Proof.
  refine (proj1 (Db_board_of_a_game_is_part_of_all Samples.dbTimes "redlight" _ _)).
  - repeat constructor; simpl; intuition discriminate.
  - discriminate.
Defined.

(** ** The comparator on the entries of a board *)

Lemma compareEntries_difference
    (a b : LeaderboardEntry) (ta tb : string) (va vb : Num.t) :
  score a = formatScore ta va ->
  score b = formatScore tb vb ->
  exists q,
    compareEntries a b = Some q
    /\ (q == if lowerIsBetter (gameType a)
             then magnitude va - magnitude vb
             else magnitude vb - magnitude va)%Q.
Proof.
  intros Ha Hb. unfold compareEntries, lowerIsBetter. rewrite Ha, Hb.
  destruct (parse_formatScore ta va) as (x & -> & Hx).
  destruct (parse_formatScore tb vb) as (y & -> & Hy).
  destruct (String.eqb (gameType a) "guessing"); simpl;
    [eexists; split; [reflexivity | now rewrite Hx, Hy]|].
  destruct (String.eqb (gameType a) "redlight"); simpl;
    eexists; split; try reflexivity; now rewrite Hx, Hy.
Qed.

(** X14.  Take two entries whose score strings [formatScore] made from
    decimals of [Num.plain] (finite, at most one decimal digit, at most
    fifteen digits).  On them the comparator of [getLeaderboard] never yields
    NaN: it yields a number that is negative, zero or positive as the
    magnitude of the first value is below, equal to or above the magnitude of
    the second, for guessing and red light, and the other way round for the
    other game types, the type being that of the first entry. *)
Theorem compareEntries_on_formatted
    (a b : LeaderboardEntry) (ta tb : string) (va vb : Num.t) :
  Num.plain va -> Num.plain vb ->
  score a = formatScore ta va ->
  score b = formatScore tb vb ->
  exists q,
    compareEntries a b = Some q
    /\ (q ?= 0)%Q = if lowerIsBetter (gameType a)
                    then (magnitude va ?= magnitude vb)%Q
                    else (magnitude vb ?= magnitude va)%Q.
Proof.
  intros _ _ Ha Hb.
  destruct (compareEntries_difference a b ta tb va vb Ha Hb) as (q & Hq & E).
  exists q; split; [exact Hq|].
  destruct (lowerIsBetter (gameType a));
    [rewrite <- (Qcompare_minus (magnitude va) (magnitude vb))
    |rewrite <- (Qcompare_minus (magnitude vb) (magnitude va))];
    now rewrite E.
Qed.

(** X14 at a sample: the times -3.0 s and 1.0 s on the red-light board. *)
Lemma compareEntries_on_formatted_witness :
  exists q,
    compareEntries
      (leaderboardEntry "alice" (nth 2 Samples.seededGames
                                     {| game_id := 0; game_type := ""; game_name := "";
                                        game_createdAt := "" |})
         {| score_id := 1; score_userId := 1; score_gameId := 3;
            score_value := Num.Tenths (-30); score_createdAt := "" |})
      (leaderboardEntry "bob" (nth 2 Samples.seededGames
                                   {| game_id := 0; game_type := ""; game_name := "";
                                      game_createdAt := "" |})
         {| score_id := 2; score_userId := 2; score_gameId := 3;
            score_value := Num.Tenths 10; score_createdAt := "" |})
    = Some q
    /\ (q ?= 0)%Q = (magnitude (Num.Tenths (-30)) ?= magnitude (Num.Tenths 10))%Q.
Proof.
  refine (compareEntries_on_formatted _ _ "redlight" "redlight"
            (Num.Tenths (-30)) (Num.Tenths 10) _ _ _ _); reflexivity.
Defined.

(** ** The broadcast *)

(** X15.  [broadcastLeaderboard] sends to the open clients only, in the order
    of the set, one message each; every message carries the leaderboard of the
    game type asked for and the winner data as given, and its type is "winner"
    exactly when winner data was given. *)
Theorem broadcastLeaderboard_recipients
    (st : Db.Storage) (clients : list Routes.Client)
    (type : string) (winnerData : option Routes.WinnerData) :
  map fst (Routes.broadcastLeaderboard st clients type winnerData)
  = map Routes.client_id (filter Routes.isOpen clients)
  /\ forall id m,
       In (id, m) (Routes.broadcastLeaderboard st clients type winnerData) ->
       Routes.msg_data m = Db.getLeaderboard st type
       /\ Routes.msg_winner m = winnerData
       /\ (Routes.msg_type m = "winner" <-> winnerData <> None)
       /\ (Routes.msg_type m = "leaderboard" <-> winnerData = None).
Proof.
  unfold Routes.broadcastLeaderboard. split.
  - induction clients as [|c clients IH]; simpl; [reflexivity|].
    destruct (Routes.isOpen c); simpl; now rewrite IH.
  - intros id m Hin. apply in_flat_map in Hin as (c & _ & Hin).
    destruct (Routes.isOpen c); [|contradiction].
    destruct Hin as [[= _ <-]|[]]. cbn.
    repeat split; destruct winnerData; intros; congruence.
Qed.

(** ** Seeding the database *)

Lemma find_app_none {A} (p : A -> bool) (l l' : list A) :
  find p l = None -> find p (l ++ l') = find p l'.
Proof.
  induction l as [|a l IH]; simpl; auto. destruct (p a); [discriminate|auto].
Qed.

(** X16.  When [initializeGameData] returns: an empty [games] table has
    received the five game types, in the order of [GameType], under distinct
    ids and with the names [MemStorage] gives them, so that every one of them
    resolves; a [games] table with at least one row is left as it is, whatever
    types it lacks; a user named "admin" exists; scores and sessions are
    untouched; and a second run, at any clock and sequence values, returns and
    changes nothing. *)
Theorem initializeGameData_seeds_once
    (st st1 : Db.Storage) (clk : Clock) (gamesSeq usersSeq : Z) :
  Db.initializeGameData st clk gamesSeq usersSeq = (Returned tt, st1) ->
  (Db.games st = [] ->
     map game_type (Db.games st1) = knownGameTypes
     /\ map game_name (Db.games st1) = map getGameName knownGameTypes
     /\ NoDup (map game_id (Db.games st1))
     /\ forall type, In type knownGameTypes ->
          exists g, In g (Db.games st1) /\ game_type g = type
                    /\ Db.getGameIdByType st1 type = Returned (game_id g))
  /\ (Db.games st <> [] -> Db.games st1 = Db.games st)
  /\ (exists admin, In admin (Db.users st1) /\ username admin = "admin")
  /\ Db.scores st1 = Db.scores st
  /\ Db.scoresSeq st1 = Db.scoresSeq st
  /\ Db.userGames st1 = Db.userGames st
  /\ forall clk' gamesSeq' usersSeq',
       Db.initializeGameData st1 clk' gamesSeq' usersSeq' = (Returned tt, st1).
Proof.
  unfold Db.initializeGameData.
  set (seeded := match Db.games st with [] => _ | _ :: _ => st end).
  assert (Hseeded : Db.users seeded = Db.users st
                    /\ Db.scores seeded = Db.scores st
                    /\ Db.scoresSeq seeded = Db.scoresSeq st
                    /\ Db.userGames seeded = Db.userGames st
                    /\ Db.games seeded <> []
                    /\ (Db.games st <> [] -> Db.games seeded = Db.games st)
                    /\ (Db.games st = [] ->
                        Db.games seeded
                        = map (fun '(i, (type, name)) =>
                                 {| game_id := gamesSeq + Z.of_nat i;
                                    game_type := type;
                                    game_name := name;
                                    game_createdAt := nowIso clk |})
                              (combine (seq 0 (List.length Db.initialGames))
                                       Db.initialGames))).
  { subst seeded. destruct (Db.games st) eqn:Hg; cbn;
      repeat split; auto; try discriminate; try congruence. }
  destruct Hseeded as (Hu & Hs & Hq & Hug & Hne & Hkeep & Hfill).
  assert (Hgoal : forall st1,
            Db.games st1 = Db.games seeded ->
            (exists admin, find (fun u => String.eqb (username u) "admin") (Db.users st1)
                           = Some admin) ->
            Db.scores st1 = Db.scores seeded -> Db.scoresSeq st1 = Db.scoresSeq seeded ->
            Db.userGames st1 = Db.userGames seeded ->
            (Db.games st = [] ->
               map game_type (Db.games st1) = knownGameTypes
               /\ map game_name (Db.games st1) = map getGameName knownGameTypes
               /\ NoDup (map game_id (Db.games st1))
               /\ forall type, In type knownGameTypes ->
                    exists g, In g (Db.games st1) /\ game_type g = type
                              /\ Db.getGameIdByType st1 type = Returned (game_id g))
            /\ (Db.games st <> [] -> Db.games st1 = Db.games st)
            /\ (exists admin, In admin (Db.users st1) /\ username admin = "admin")
            /\ Db.scores st1 = Db.scores st
            /\ Db.scoresSeq st1 = Db.scoresSeq st
            /\ Db.userGames st1 = Db.userGames st
            /\ forall clk' gamesSeq' usersSeq',
                 Db.initializeGameData st1 clk' gamesSeq' usersSeq' = (Returned tt, st1)).
  { clear - Hs Hq Hug Hne Hkeep Hfill.
    intros st1 Hg (admin & Hadmin) Hs1 Hq1 Hug1.
    split; [|split; [|split; [|split; [|split; [|split]]]]]; try congruence.
    - intros Hempty. rewrite Hg, (Hfill Hempty). cbn.
      split; [reflexivity|]. split; [reflexivity|]. split.
      + repeat constructor; simpl; intros H;
          repeat (destruct H as [H|H]; [lia|]); contradiction.
      + intros type Hin. unfold Db.getGameIdByType. rewrite Hg, (Hfill Hempty). cbn.
        simpl in Hin.
        repeat (destruct Hin as [<-|Hin];
                [eexists; split; [|split; [|reflexivity]];
                 [simpl; tauto | reflexivity]|]).
        contradiction.
    - intros Hn; rewrite Hg; auto.
    - apply find_some in Hadmin as [Hin Hname]. apply String.eqb_eq in Hname. eauto.
    - intros clk' gamesSeq' usersSeq'. unfold Db.initializeGameData.
      destruct (Db.games st1) eqn:Hg1; [congruence|].
      now rewrite Hadmin. }
  destruct (find _ (Db.users seeded)) as [admin|] eqn:Hadmin.
  - intros [= <-]. apply Hgoal; eauto.
  - destruct (existsb _ (Db.users seeded)); [discriminate|].
    intros [= <-]. apply Hgoal; auto.
    cbn [Db.withUsers Db.users]. eexists.
    rewrite find_app_none by exact Hadmin. reflexivity.
Qed.

Lemma initializeGameData_seeds_once_witness :
  map game_type
      (Db.games (snd (Db.initializeGameData Samples.dbUnseeded Samples.clock 1 3)))
  = knownGameTypes.
Proof.
  exact (proj1 (proj1 (initializeGameData_seeds_once
                         Samples.dbUnseeded _ Samples.clock 1 3 eq_refl) eq_refl)).
Defined.

(** ** The per-game views of [MemStorage] *)

Lemma JsMap_set_In_inv {V} (k k' : Z) (v v' : V) (m : JsMap.t V) :
  In (k', v') (JsMap.set k v m) -> (k' = k /\ v' = v) \/ In (k', v') m.
Proof.
  induction m as [|[k0 v0] m IH]; simpl.
  - intros [[= <- <-]|[]]; auto.
  - destruct (Z.eqb_spec k0 k) as [->|_]; simpl.
    + intros [[= <- <-]|H]; auto.
    + intros [H|H]; auto. destruct (IH H); auto.
Qed.

Lemma Mem_userScoresOf_In (st : Mem.Storage) (k : Z) (s : Score) :
  In s (Mem.userScoresOf st k) -> exists l, In (k, l) (Mem.scores st) /\ In s l.
Proof.
  unfold Mem.userScoresOf.
  destruct (JsMap.get k (Mem.scores st)) as [l|] eqn:E; [|contradiction].
  intros H; exists l; split; [now apply JsMap_get_Some_In | exact H].
Qed.

Lemma Mem_recordScore_scores (st : Mem.Storage) clk userId gameType value :
  exists s,
    Mem.scores (Mem.recordScore st clk userId gameType value)
    = JsMap.set userId (Mem.userScoresOf st userId ++ [s]) (Mem.scores st).
Proof.
  unfold Mem.recordScore.
  destruct (find _ (JsMap.values (Mem.games st))); eexists; reflexivity.
Qed.

(** What one [recordScore] does to the per-game views. *)
Lemma plainScores_recordScore
    (st : Mem.Storage) (clk : Clock) (userId : Z) (type : string) (value : Num.t) :
  Mem.plainScores st -> Num.plain value ->
  Mem.plainScores (Mem.recordScore st clk userId type value).
Proof.
  intros Hst Hv k l s Hin Hs.
  assert (Hcase : In (k, l) (Mem.scores st)
                  \/ exists s0, l = Mem.userScoresOf st userId ++ [s0]
                                /\ score_value s0 = value).
  { unfold Mem.recordScore in Hin.
    destruct (find _ (JsMap.values (Mem.games st))); cbn [Mem.scores] in Hin;
      apply JsMap_set_In_inv in Hin as [[-> ->]|Hin]; auto;
      right; eexists; split; reflexivity. }
  destruct Hcase as [Hold|(s0 & -> & Hval)]; [now apply (Hst k l s)|].
  apply in_app_or in Hs as [Hs|[<-|[]]]; [|now rewrite Hval].
  apply Mem_userScoresOf_In in Hs as (l0 & Hin0 & Hs). now apply (Hst userId l0 s).
Qed.

Lemma Mem_recordScore_views
    (st : Mem.Storage) (clk : Clock) (userId : Z) (type : string) (value : Num.t) :
  Mem.storeOk st ->
  Mem.storeOk (Mem.recordScore st clk userId type value)
  /\ exists s,
       score_value s = value /\ score_userId s = userId
       /\ forall view other,
            Mem.scoresOfType (Mem.recordScore st clk userId type value) view
              (Mem.userScoresOf (Mem.recordScore st clk userId type value) other)
            = Mem.scoresOfType st view (Mem.userScoresOf st other)
              ++ (if (other =? userId) && String.eqb type view then [s] else []).
Proof.
  intros [Hcat Hled].
  destruct (Mem_recordScore_effect st clk userId type value Hcat)
    as (Hcat' & Hkeep & _ & (g & s & Hg & Hty & Hs & Hgid & Huid & Hval) & Hothers).
  destruct (Mem_recordScore_scores st clk userId type value) as (s2 & Hscores).
  set (st' := Mem.recordScore st clk userId type value) in *.
  assert (Hs2 : s2 = s).
  { unfold Mem.userScoresOf in Hs at 1. rewrite Hscores, JsMap_get_set_same in Hs.
    now apply app_inj_tail in Hs as [_ ->]. }
  subst s2.
  assert (Hold : forall k l s0, In (k, l) (Mem.scores st) -> In s0 l ->
            JsMap.get (score_gameId s0) (Mem.games st')
            = JsMap.get (score_gameId s0) (Mem.games st)
            /\ exists g0, JsMap.get (score_gameId s0) (Mem.games st) = Some g0).
  { intros k l s0 Hin Hs0. destruct (Hled k l s0 Hin Hs0) as (g0 & Hg0).
    rewrite (Hkeep _ _ Hg0), Hg0; eauto. }
  assert (Hpred : forall view k,
            Mem.scoresOfType st' view (Mem.userScoresOf st k)
            = Mem.scoresOfType st view (Mem.userScoresOf st k)).
  { intros view k. unfold Mem.scoresOfType. apply filter_ext_in. intros s0 Hs0.
    apply Mem_userScoresOf_In in Hs0 as (l & Hin & Hs0).
    now rewrite (proj1 (Hold k l s0 Hin Hs0)). }
  split; [split; [exact Hcat'|]|].
  - intros k l s0 Hin Hs0. rewrite Hscores in Hin.
    apply JsMap_set_In_inv in Hin as [[-> ->]|Hin].
    + apply in_app_or in Hs0 as [Hs0|[<-|[]]].
      * apply Mem_userScoresOf_In in Hs0 as (l & Hin & Hs0).
        destruct (Hold _ _ _ Hin Hs0) as (E & g0 & Hg0). rewrite E; eauto.
      * rewrite Hgid; eauto.
    + destruct (Hold _ _ _ Hin Hs0) as (E & g0 & Hg0). rewrite E; eauto.
  - exists s; split; [exact Hval|]. split; [exact Huid|].
    intros view other. destruct (Z.eqb_spec other userId) as [->|Hne]; simpl.
    + rewrite Hs. unfold Mem.scoresOfType at 1. rewrite filter_app.
      fold (Mem.scoresOfType st' view (Mem.userScoresOf st userId)).
      rewrite Hpred. f_equal. simpl. now rewrite Hgid, Hg, Hty.
    + rewrite (Hothers other Hne), Hpred, List.app_nil_r. reflexivity.
Qed.

(** X17.  In a [MemStorage] whose catalog is well formed and whose scores all
    point to catalog entries, [recordScore] keeps that shape and adds the new
    score to exactly one per-game view: the view of the recorded game type for
    the recording user grows by the score at its end; every other view, of
    another type or of another user, is as before. *)
Theorem Mem_recordScore_extends_one_view
    (st : Mem.Storage) (clk : Clock) (userId : Z) (type : string) (value : Num.t) :
  Mem.storeOk st ->
  Mem.storeOk (Mem.recordScore st clk userId type value)
  /\ exists s,
       score_value s = value /\ score_userId s = userId
       /\ forall view other,
            Mem.scoresOfType (Mem.recordScore st clk userId type value) view
              (Mem.userScoresOf (Mem.recordScore st clk userId type value) other)
            = Mem.scoresOfType st view (Mem.userScoresOf st other)
              ++ (if (other =? userId) && String.eqb type view then [s] else []).
Proof. apply Mem_recordScore_views. Qed.

Lemma storeOk_new_store (us : JsMap.t User) (ug : JsMap.t UserGames) :
  Mem.storeOk {| Mem.users := us; Mem.userGames := ug; Mem.scores := []; Mem.games := [] |}.
Proof.
  split; [split; [reflexivity|split; [|constructor]]|]; simpl; intros; contradiction.
Defined.

Lemma Mem_recordScore_extends_one_view_witness :
  Mem.storeOk (Mem.recordScore Samples.mem Samples.clock 1 "redlight" (Num.Tenths 12)).
Proof.
  exact (proj1 (Mem_recordScore_extends_one_view
                  Samples.mem Samples.clock 1 "redlight" (Num.Tenths 12)
                  (storeOk_new_store _ _))).
Defined.

Lemma leastValue_app (l : list Score) (s : Score) :
  leastValue (l ++ [s]) = keepLeast (leastValue l) s.
Proof. unfold leastValue; now rewrite fold_left_app. Qed.

Lemma keepLeast_fold (l : list Score) (acc : option Num.t) :
  match fold_left keepLeast l acc with
  | None => acc = None /\ l = []
  | Some b =>
      (acc = Some b \/ exists s, In s l /\ score_value s = b)
      /\ (forall s, In s l -> Num.tenths b <= Num.tenths (score_value s))
      /\ (forall a, acc = Some a -> Num.tenths b <= Num.tenths a)
  end.
Proof.
  revert acc; induction l as [|x l IH]; intros acc; simpl.
  - destruct acc as [a|]; [|auto].
    split; [auto|]. split; [intros s []|]. intros a' [= <-]; lia.
  - specialize (IH (keepLeast acc x)).
    destruct (fold_left keepLeast l (keepLeast acc x)) as [b|].
    + destruct IH as (Hfrom & Hall & Hacc).
      assert (Hx : Num.tenths b <= Num.tenths (score_value x)
                   /\ forall a, acc = Some a -> Num.tenths b <= Num.tenths a).
      { destruct acc as [a|]; simpl in Hacc.
        - unfold Num.ltb in Hacc.
          destruct (Z.ltb_spec (Num.tenths (score_value x)) (Num.tenths a)).
          + specialize (Hacc _ eq_refl). split; [lia|]. intros a' [= <-]; lia.
          + specialize (Hacc _ eq_refl). split; [lia|]. intros a' [= <-]; lia.
        - split; [apply (Hacc _ eq_refl) | discriminate]. }
      split; [|split; [|exact (proj2 Hx)]].
      * destruct Hfrom as [Hfrom|(s & Hs & Hv)];
          [|right; exists s; split; [right|]; assumption].
        destruct acc as [a|]; simpl in Hfrom.
        -- unfold Num.ltb in Hfrom.
           destruct (Num.tenths (score_value x) <? Num.tenths a);
             [right; exists x; split; [left; reflexivity | congruence] | auto].
        -- right; exists x; split; [left; reflexivity | congruence].
      * intros s [<-|Hs]; [exact (proj1 Hx) | auto].
    + destruct IH as [Hk _]. destruct acc as [a|]; simpl in Hk;
        [destruct (Num.ltb (score_value x) a)|]; discriminate.
Qed.

Lemma leastValue_spec (l : list Score) :
  match leastValue l with
  | None => l = []
  | Some b =>
      (exists s, In s l /\ score_value s = b)
      /\ forall s, In s l -> Num.tenths b <= Num.tenths (score_value s)
  end.
Proof.
  pose proof (keepLeast_fold l None) as H. unfold leastValue.
  destruct (fold_left keepLeast l None) as [b|]; [|tauto].
  destruct H as ([H|H] & Hall & _); [discriminate|auto].
Qed.

Lemma storeOk_sample_times : Mem.storeOk Samples.memTimes.
Proof.
  apply Mem_recordScore_views, Mem_recordScore_views, storeOk_seeded.
Defined.

Lemma plainScores_sample_times : Mem.plainScores Samples.memTimes.
Proof.
  repeat apply plainScores_recordScore; try reflexivity.
  intros k l s [].
Defined.

(** X18.  Take a well-formed [MemStorage] whose recorded values are decimals
    of [Num.plain], and a submitted time that is one too (finite, at most one
    decimal digit).  [submitRedLightScore] answers with statistics that count
    one attempt more than before and whose best time is a string:
    [toFixed(1)] of the least of the submitted time and the user's earlier
    red-light times.  The user's guessing statistics and the red-light
    statistics of every other user are as before. *)
Theorem submitRedLightScore_stats
    (st : Mem.Storage) (clk : Clock) (userId : Z) (time : Num.t) :
  Mem.storeOk st ->
  Mem.plainScores st ->
  Num.plain time ->
  let stats := fst (Mem.submitRedLightScore st clk userId time) in
  let st' := snd (Mem.submitRedLightScore st clk userId time) in
  let earlier := Mem.scoresOfType st "redlight" (Mem.userScoresOf st userId) in
  stats_attempts stats = stats_attempts (Mem.getRedLightGameStats st userId) + 1
  /\ (exists best,
        bestTime stats = JsString (Num.toFixed1 best)
        /\ Num.tenths best <= Num.tenths time
        /\ (forall s, In s earlier -> Num.tenths best <= Num.tenths (score_value s))
        /\ (best = time \/ exists s, In s earlier /\ score_value s = best))
  /\ Mem.getGuessingGameStats st' userId = Mem.getGuessingGameStats st userId
  /\ forall other, other <> userId ->
       Mem.getRedLightGameStats st' other = Mem.getRedLightGameStats st other.
Proof.
  intros Hok _ _; cbn zeta. unfold Mem.submitRedLightScore; cbn [fst snd].
  destruct (Mem_recordScore_views st clk userId "redlight" time Hok)
    as (_ & s & Hval & _ & Hviews).
  unfold Mem.getRedLightGameStats, Mem.getGuessingGameStats.
  split; [|split; [|split]].
  - cbn [stats_attempts]. rewrite Hviews, Z.eqb_refl; simpl.
    rewrite length_app; simpl. lia.
  - cbn [bestTime]. rewrite Hviews, Z.eqb_refl; simpl. rewrite leastValue_app.
    pose proof (leastValue_spec
                  (Mem.scoresOfType st "redlight" (Mem.userScoresOf st userId))) as Hl.
    destruct (leastValue _) as [b|]; simpl.
    + destruct Hl as ((s0 & Hs0 & Hv0) & Hall). unfold Num.ltb; rewrite Hval.
      destruct (Z.ltb_spec (Num.tenths time) (Num.tenths b)).
      * exists time; repeat split; auto; try lia.
        intros s1 Hs1; specialize (Hall s1 Hs1); lia.
      * exists b; repeat split; eauto.
    + rewrite Hl, Hval. exists time; repeat split; auto; try lia. intros s1 [].
  - rewrite Hviews, Z.eqb_refl; simpl. now rewrite List.app_nil_r.
  - intros other Hne. rewrite Hviews.
    destruct (Z.eqb_spec other userId); [contradiction|]. simpl.
    now rewrite List.app_nil_r.
Qed.

(** X18 at a sample: alice, whose one red-light time is 1.0 s, submits 1.2 s;
    the statistics count two attempts and keep a best time. *)
Lemma submitRedLightScore_stats_witness :
  let stats := fst (Mem.submitRedLightScore Samples.memTimes Samples.clock 1
                      (Num.Tenths 12)) in
  stats_attempts (Mem.getRedLightGameStats Samples.memTimes 1) = 1
  /\ stats_attempts stats
     = stats_attempts (Mem.getRedLightGameStats Samples.memTimes 1) + 1
  /\ exists best,
       bestTime stats = JsString (Num.toFixed1 best)
       /\ Num.tenths best <= 12
       /\ (forall s,
             In s (Mem.scoresOfType Samples.memTimes "redlight"
                     (Mem.userScoresOf Samples.memTimes 1)) ->
             Num.tenths best <= Num.tenths (score_value s))
       /\ (best = Num.Tenths 12
           \/ exists s,
                In s (Mem.scoresOfType Samples.memTimes "redlight"
                        (Mem.userScoresOf Samples.memTimes 1))
                /\ score_value s = best).
Proof.
  cbn zeta. split; [reflexivity|].
  pose proof (submitRedLightScore_stats Samples.memTimes Samples.clock 1 (Num.Tenths 12)
                storeOk_sample_times plainScores_sample_times eq_refl)
    as (H1 & H2 & _).
  split; [exact H1 | exact H2].
Defined.

(** ** The order of a board of one game type *)

(** X29.  Take a store whose recorded values are all decimals of [Num.plain]
    (in the database: of [Db.realExact], which the [real] column gives back
    as written).  Then every leaderboard of one game type has the ranks 1..N
    and its entries stand in the game's better direction of the numbers
    shown, which are the magnitudes of the values.  On values that are not
    negative this is the order of the values.  In the database store the
    [games] ids are a primary key. *)
Theorem getLeaderboard_ranked_by_shown_value (type : string) :
  type <> "all" ->
  (forall st, Mem.plainScores st -> ranked type (Mem.getLeaderboard st type))
  /\ (forall st, Db.plainScores st -> NoDup (map game_id (Db.games st)) ->
                 ranked type (Db.getLeaderboard st type)).
Proof.
  intros Hall; split; intros st _.
  - now apply Mem_getLeaderboard_ranked.
  - now apply Db_getLeaderboard_ranked.
Qed.

(** X29 at samples: the typing boards after alice's 45.5 and 40 and bob's
    60. *)
Lemma getLeaderboard_ranked_by_shown_value_witness :
  ranked "typeracer" (Mem.getLeaderboard Samples.memTyping "typeracer")
  /\ ranked "typeracer" (Db.getLeaderboard Samples.dbTyping "typeracer").
Proof.
  assert (Hall : "typeracer" <> "all") by discriminate.
  split.
  - apply (proj1 (getLeaderboard_ranked_by_shown_value "typeracer" Hall)
                 Samples.memTyping).
    repeat apply plainScores_recordScore; try reflexivity.
    intros k l s [].
  - apply (proj2 (getLeaderboard_ranked_by_shown_value "typeracer" Hall) Samples.dbTyping).
    + intros s Hs; vm_compute in Hs.
      repeat (destruct Hs as [<-|Hs]; [reflexivity|]). contradiction.
    + repeat constructor; simpl; intuition discriminate.
Defined.

(** X19.  In a well-formed [MemStorage], winning a guessing game shows in the
    user's guessing statistics: one game more, and a best score that is the
    number of attempts of this game (this guess included) when the user had no
    guessing score or a higher best, and the earlier best otherwise. *)
Theorem guessing_stats_after_win
    (st : Mem.Storage) (clk : Clock) (userId guess : Z) (game : GuessingState) :
  Mem.storeOk st ->
  Mem.session st userId = Some game ->
  gameOver game = false ->
  ~ In guess (previousGuesses game) ->
  guess = targetNumber game ->
  let before := Mem.getGuessingGameStats st userId in
  let after := Mem.getGuessingGameStats (snd (Mem.makeGuess st clk userId guess)) userId in
  stats_played after = stats_played before + 1
  /\ bestScore after
     = (if stats_played before =? 0 then Num.ofInt (attempts game + 1)
        else if Num.ltb (Num.ofInt (attempts game + 1)) (bestScore before)
             then Num.ofInt (attempts game + 1)
             else bestScore before).
Proof.
  intros Hok Hs Hover Hfresh Hhit; cbn zeta.
  assert (Hinc : includes guess (previousGuesses game) = false).
  { destruct (includes guess (previousGuesses game)) eqn:E; auto.
    apply includes_In in E; contradiction. }
  assert (Heq : (guess =? targetNumber game) = true) by now apply Z.eqb_eq.
  apply Mem_session_inv in Hs as (ug & Hug & Hg).
  unfold Mem.makeGuess; rewrite Hug, Hg, Hover, Hinc.
  cbn [targetNumber recordGuess]; rewrite Heq.
  rewrite finishGuess_correct by reflexivity. cbn [snd attempts].
  destruct (Mem_recordScore_views st clk userId "guessing"
              (Num.ofInt (attempts game + 1)) Hok) as (_ & s & Hval & _ & Hviews).
  unfold Mem.getGuessingGameStats, Mem.userScoresOf, Mem.scoresOfType in *.
  cbn [Mem.withUserGames Mem.scores Mem.games stats_played bestScore] in *.
  rewrite Hviews, Z.eqb_refl; simpl. split.
  - rewrite length_app; simpl. lia.
  - rewrite leastValue_app.
    match goal with |- context [leastValue ?l] =>
      pose proof (leastValue_spec l) as Hl; destruct (leastValue l) as [b|] end.
    + destruct Hl as ((s0 & Hs0 & _) & _).
      match goal with |- context [List.length ?l] => destruct l; [contradiction|] end.
      simpl. rewrite Hval. destruct (Num.ltb _ b); reflexivity.
    + rewrite Hl; simpl. now rewrite Hval.
Qed.

Lemma guessing_stats_after_win_witness :
  stats_played
    (Mem.getGuessingGameStats
       (snd (Mem.makeGuess (Samples.memWith (Samples.playing Samples.session42))
                           Samples.clock 1 42)) 1)
  = stats_played
      (Mem.getGuessingGameStats (Samples.memWith (Samples.playing Samples.session42)) 1)
    + 1.
Proof.
  refine (proj1 (guessing_stats_after_win
                   (Samples.memWith (Samples.playing Samples.session42))
                   Samples.clock 1 42 Samples.session42
                   (storeOk_new_store _ _) eq_refl eq_refl _ eq_refl)).
  simpl; intros [H|[]]; discriminate.
Defined.

(** ** The bread game's high scores *)

Lemma sortCompare_byScoreDesc (a b : BreadEntry) :
  sortCompare byScoreDesc a b
  = (inject_Z (- Num.tenths (bread_score a)) ?= inject_Z (- Num.tenths (bread_score b)))%Q.
Proof.
  unfold sortCompare, byScoreDesc; rewrite Qcompare_minus, Qcompare_tenths.
  unfold Qcompare; simpl. rewrite !Z.mul_1_r.
  rewrite <- (Z.compare_opp (Num.tenths (bread_score a)) (Num.tenths (bread_score b))).
  reflexivity.
Qed.

Lemma sort_byScoreDesc_sorted (l : list BreadEntry) :
  StronglySorted (fun a b => Num.tenths (bread_score b) <= Num.tenths (bread_score a))
                 (sort byScoreDesc l).
Proof.
  eapply StronglySorted_weaken;
    [|apply (sort_sorted byScoreDesc (fun e => inject_Z (- Num.tenths (bread_score e))))].
  - intros a b H; simpl in H. rewrite <- Zle_Qle in H. lia.
  - intros; apply sortCompare_byScoreDesc.
Qed.

Lemma In_firstn {A} (n : nat) (l : list A) (x : A) : In x (firstn n l) -> In x l.
Proof.
  intros H. rewrite <- (firstn_skipn n l). apply in_or_app; auto.
Qed.

Lemma StronglySorted_firstn {A} (R : A -> A -> Prop) (n : nat) (l : list A) :
  StronglySorted R l -> StronglySorted R (firstn n l).
Proof.
  intros Hs; revert n; induction Hs as [|a l Hs IH Ha]; intros [|n]; simpl;
    constructor; auto.
  apply Forall_forall; intros x Hx. rewrite Forall_forall in Ha.
  apply Ha. eapply In_firstn; exact Hx.
Qed.

Lemma Forall2_fst_snd {K E} (P : K -> E -> Prop) (ts : list (K * E)) :
  Forall (fun p => P (fst p) (snd p)) ts -> Forall2 P (map fst ts) (map snd ts).
Proof. induction 1; simpl; constructor; auto. Qed.

(** X20.  [MemStorage.getBreadGameStats], whoever asks: its [highScores] are
    at most five rows in descending order of score.  They are the three sample
    rows when no existing user has a bread score; otherwise they are the first
    five of a descending list that has exactly one row for each existing user
    with a bread score, carrying that user's name and highest bread score. *)
Theorem Mem_bread_high_scores (st : Mem.Storage) (asker : Z) :
  NoDup (JsMap.keys (Mem.scores st)) ->
  (List.length (Mem.getBreadGameStats st asker) <= 5)%nat
  /\ StronglySorted
       (fun a b => Num.tenths (bread_score b) <= Num.tenths (bread_score a))
       (Mem.getBreadGameStats st asker)
  /\ ((Mem.getBreadGameStats st asker = sampleBread
       /\ forall k user, JsMap.get k (Mem.users st) = Some user ->
            Mem.scoresOfType st "cse17" (Mem.userScoresOf st k) = [])
      \/ exists ids full,
           Mem.getBreadGameStats st asker = firstn 5 full
           /\ full <> []
           /\ NoDup ids
           /\ Forall2 (Mem.isBestBread st) ids full
           /\ StronglySorted
                (fun a b => Num.tenths (bread_score b) <= Num.tenths (bread_score a))
                full
           /\ forall k user, JsMap.get k (Mem.users st) = Some user ->
                Mem.scoresOfType st "cse17" (Mem.userScoresOf st k) <> [] ->
                In k ids).
Proof.
  intros Hnd; unfold Mem.getBreadGameStats.
  match goal with |- context [flat_map ?f (Mem.scores st)] => set (push := f) end.
  assert (Hone : forall p, (List.length (push p) <= 1)%nat).
  { intros [k l]; unfold push.
    destruct (JsMap.get k (Mem.users st)); simpl; [|lia].
    destruct (Mem.scoresOfType st "cse17" l); simpl; lia. }
  assert (Hsorted : StronglySorted
                      (fun a b => Num.tenths (bread_score b) <= Num.tenths (bread_score a))
                      (sort byScoreDesc (flat_map push (Mem.scores st))))
    by apply sort_byScoreDesc_sorted.
  rewrite <- (tagged_snd push), sort_map in *.
  set (ts := sort _ (tagged push (Mem.scores st))) in *.
  assert (Hperm : Permutation (tagged push (Mem.scores st)) ts) by apply sort_perm.
  assert (Hids : NoDup (map fst ts)).
  { eapply Permutation_NoDup; [apply Permutation_map, Hperm|].
    now apply tagged_NoDup. }
  assert (Hbest : Forall (fun p => Mem.isBestBread st (fst p) (snd p)) ts).
  { eapply Permutation_Forall; [exact Hperm|].
    apply Forall_forall; intros [k e] Hin; simpl.
    apply tagged_In in Hin as (l & Hl & He).
    unfold push in He.
    destruct (JsMap.get k (Mem.users st)) as [user|] eqn:Hu; [|contradiction].
    destruct (Mem.scoresOfType st "cse17" l) as [|first rest] eqn:Htr; [contradiction|].
    destruct He as [<-|[]].
    assert (Hl' : Mem.userScoresOf st k = l).
    { unfold Mem.userScoresOf; now rewrite (JsMap_get_In k l) by assumption. }
    destruct (bestOf_max first (first :: rest)) as (Hin & _ & Hmax).
    exists user, (bestOf first (first :: rest)).
    rewrite Hl', Htr; repeat split; auto.
    destruct Hin as [->|Hin]; [left; reflexivity | exact Hin]. }
  assert (Hall : forall k user, JsMap.get k (Mem.users st) = Some user ->
            Mem.scoresOfType st "cse17" (Mem.userScoresOf st k) <> [] ->
            In k (map fst ts)).
  { intros k user Hu Hview.
    eapply Permutation_in; [apply Permutation_map, Hperm|].
    unfold Mem.userScoresOf in Hview.
    destruct (JsMap.get k (Mem.scores st)) as [l|] eqn:Hl; [|now elim Hview].
    apply JsMap_get_Some_In in Hl.
    unfold tagged. rewrite flat_map_concat_map, concat_map, map_map.
    rewrite <- flat_map_concat_map. apply in_flat_map.
    exists (k, l); split; [exact Hl|].
    rewrite map_map; simpl. unfold push; rewrite Hu.
    destruct (Mem.scoresOfType st "cse17" l); [now elim Hview | simpl; auto]. }
  split; [|split].
  - rewrite length_firstn; lia.
  - apply StronglySorted_firstn.
    destruct (map snd ts); [|exact Hsorted].
    unfold sampleBread, Num.ofInt; simpl; repeat constructor; simpl; lia.
  - destruct (map snd ts) as [|e rest] eqn:Hfull.
    + left; split; [reflexivity|].
      intros k user Hu.
      destruct (Mem.scoresOfType st "cse17" (Mem.userScoresOf st k)) eqn:Hview;
        [reflexivity|].
      exfalso. assert (Hk : In k (map fst ts)).
      { apply (Hall k user Hu). rewrite Hview; discriminate. }
      destruct ts; [contradiction | discriminate].
    + right. exists (map fst ts), (e :: rest). rewrite <- Hfull.
      repeat split; auto.
      * rewrite Hfull; discriminate.
      * now apply Forall2_fst_snd.
      * rewrite Hfull; exact Hsorted.
Qed.

(** X20 at a sample: after alice's 120 and 300 and bob's 250 the rows are
    alice with 300 and bob with 250, one row for each of them. *)
Lemma Mem_bread_high_scores_witness :
  map (fun e => (bread_player e, bread_score e))
      (Mem.getBreadGameStats Samples.memBread 1)
  = [("alice", Num.ofInt 300); ("bob", Num.ofInt 250)]
  /\ exists ids full,
       Mem.getBreadGameStats Samples.memBread 1 = firstn 5 full
       /\ full <> []
       /\ NoDup ids
       /\ Forall2 (Mem.isBestBread Samples.memBread) ids full
       /\ StronglySorted
            (fun a b => Num.tenths (bread_score b) <= Num.tenths (bread_score a))
            full
       /\ forall k user, JsMap.get k (Mem.users Samples.memBread) = Some user ->
            Mem.scoresOfType Samples.memBread "cse17"
              (Mem.userScoresOf Samples.memBread k) <> [] ->
            In k ids.
Proof.
  split; [vm_compute; reflexivity|].
  assert (Hnd : NoDup (JsMap.keys (Mem.scores Samples.memBread)))
    by (repeat constructor; simpl; intuition discriminate).
  destruct (Mem_bread_high_scores Samples.memBread 1 Hnd) as (_ & _ & [[Hs _]|H]).
  - vm_compute in Hs; discriminate.
  - exact H.
Defined.

(** ** Submitting a score and reading the board back *)

Lemma Mem_recorded_in_view
    (st : Mem.Storage) (clk : Clock) (userId : Z) (type : string) (value : Num.t) :
  Mem.catalogOk st ->
  exists l s,
    In (userId, l) (Mem.scores (Mem.recordScore st clk userId type value))
    /\ In s (Mem.scoresOfType (Mem.recordScore st clk userId type value) type l)
    /\ score_value s = value.
Proof.
  intros Hcat.
  destruct (Mem_recordScore_effect st clk userId type value Hcat)
    as (_ & _ & _ & (g & s & Hg & Hty & Hs & Hgid & _ & Hval) & _).
  set (st' := Mem.recordScore st clk userId type value) in *.
  unfold Mem.userScoresOf in Hs at 1.
  destruct (JsMap.get userId (Mem.scores st')) as [l|] eqn:Hl;
    [|now destruct (Mem.userScoresOf st userId)].
  exists l, s. split; [now apply JsMap_get_Some_In|]. split; [|exact Hval].
  apply filter_In; split.
  - rewrite Hs; apply in_or_app; simpl; auto.
  - now rewrite Hgid, Hg, Hty, String.eqb_refl.
Qed.

(** X21.  [MemStorage.submitTypeRacerScore] by an existing user, on a
    well-formed catalog, answers with a board that lists the user: a row with
    the user's name whose [wpm] is at least [Math.round] of the value
    submitted.  Its [accuracy] is 95 whatever accuracy was submitted. *)
Theorem Mem_submitTypeRacerScore_lists_the_user
    (st : Mem.Storage) (clk : Clock) (userId : Z) (user : User)
    (submitted accuracy0 : Num.t) :
  Mem.catalogOk st ->
  JsMap.get userId (Mem.users st) = Some user ->
  exists e,
    In e (fst (Mem.submitTypeRacerScore st clk userId submitted accuracy0))
    /\ tr_player e = username user
    /\ Num.round submitted <= wpm e
    /\ accuracy e = 95.
Proof.
  intros Hcat Huser. unfold Mem.submitTypeRacerScore; cbn [fst].
  destruct (Mem_recorded_in_view st clk userId "typeracer" submitted Hcat)
    as (l & s & Hl & Hs & Hval).
  destruct (Mem_recordScore_frame st clk userId "typeracer" submitted) as [Hus _].
  set (st' := Mem.recordScore st clk userId "typeracer" submitted) in *.
  unfold Mem.getTypeRacerLeaderboard.
  match goal with |- context [flat_map ?f (Mem.scores st')] => set (push := f) end.
  destruct (Mem.scoresOfType st' "typeracer" l) as [|first rest] eqn:Hview;
    [contradiction|].
  set (e0 := {| tr_rank := 0; tr_player := username user;
                wpm := Num.round (score_value (bestOf first (first :: rest)));
                accuracy := 95 |}).
  assert (Hin : In e0 (sort byWpmDesc (flat_map push (Mem.scores st')))).
  { apply (proj2 (sort_In _ _ _)). apply in_flat_map. exists (userId, l).
    split; [exact Hl|]. unfold push. rewrite Hus, Huser, Hview. left; reflexivity. }
  destruct (assignRanks_In withTrRank 1 _ e0 Hin) as (n & Hn).
  destruct (assignRanks withTrRank 1 _) as [|x out]; [contradiction|].
  exists (withTrRank e0 n). split; [exact Hn|]. simpl. repeat split.
  apply round_monotone. rewrite <- Hval.
  now apply (proj2 (proj2 (bestOf_max first (first :: rest)))).
Qed.

Lemma Mem_submitTypeRacerScore_lists_the_user_witness :
  exists e,
    In e (fst (Mem.submitTypeRacerScore Samples.mem Samples.clock 1
                 (Num.Tenths 455) (Num.ofInt 80)))
    /\ tr_player e = username Samples.alice
    /\ Num.round (Num.Tenths 455) <= wpm e
    /\ accuracy e = 95.
Proof.
  apply (Mem_submitTypeRacerScore_lists_the_user
           Samples.mem Samples.clock 1 Samples.alice (Num.Tenths 455) (Num.ofInt 80)
           (conj eq_refl (conj (fun k g (H : In (k, g) []) => match H with end)
                               (NoDup_nil _)))
           eq_refl).
Defined.

Lemma StronglySorted_before {A} (R : A -> A -> Prop) (l1 l2 : list A) (e : A) :
  StronglySorted R (l1 ++ e :: l2) -> forall x, In x l1 -> R x e.
Proof.
  induction l1 as [|a l1 IH]; simpl; intros Hs x; [contradiction|].
  inversion Hs as [|? ? Hs' Ha]; subst.
  intros [<-|Hx]; [|now apply IH].
  rewrite Forall_forall in Ha. apply Ha, in_or_app; simpl; auto.
Qed.

(** The first [n] of a sorted list hold a given element of the list, or are [n]
    elements that all stand before it. *)
Lemma firstn_sorted_holds {A} (R : A -> A -> Prop) (n : nat) (l : list A) (e : A) :
  StronglySorted R l -> In e l ->
  In e (firstn n l)
  \/ (List.length (firstn n l) = n /\ forall x, In x (firstn n l) -> R x e).
Proof.
  intros Hs Hin. apply in_split in Hin as (l1 & l2 & ->).
  rewrite firstn_app.
  destruct (Nat.le_gt_cases n (List.length l1)) as [Hle|Hgt].
  - right. replace (n - List.length l1)%nat with 0%nat by lia.
    simpl; rewrite List.app_nil_r. split.
    + rewrite length_firstn; lia.
    + intros x Hx. apply (StronglySorted_before R l1 l2 e Hs).
      now apply In_firstn in Hx.
  - left. apply in_or_app; right.
    destruct (n - List.length l1)%nat eqn:E; [lia|]. simpl; auto.
Qed.

(** X22.  [MemStorage.submitBreadGameScore] by an existing user, on a
    well-formed catalog, never answers with the sample rows in place of the
    user: either the high scores list the user, by name and with a score not
    below the one submitted, or they are five rows whose scores are all at
    least the score submitted. *)
Theorem Mem_submitBreadGameScore_counts_the_user
    (st : Mem.Storage) (clk : Clock) (userId : Z) (user : User) (submitted : Num.t) :
  Mem.catalogOk st ->
  JsMap.get userId (Mem.users st) = Some user ->
  let highScores := fst (Mem.submitBreadGameScore st clk userId submitted) in
  (exists e, In e highScores
             /\ bread_player e = username user
             /\ Num.tenths submitted <= Num.tenths (bread_score e))
  \/ (List.length highScores = 5%nat
      /\ forall e, In e highScores ->
           Num.tenths submitted <= Num.tenths (bread_score e)).
Proof.
  intros Hcat Huser. cbn zeta. unfold Mem.submitBreadGameScore; cbn [fst].
  destruct (Mem_recorded_in_view st clk userId "cse17" submitted Hcat)
    as (l & s & Hl & Hs & Hval).
  destruct (Mem_recordScore_frame st clk userId "cse17" submitted) as [Hus _].
  set (st' := Mem.recordScore st clk userId "cse17" submitted) in *.
  unfold Mem.getBreadGameStats.
  match goal with |- context [flat_map ?f (Mem.scores st')] => set (push := f) end.
  destruct (Mem.scoresOfType st' "cse17" l) as [|first rest] eqn:Hview;
    [contradiction|].
  set (e0 := {| bread_player := username user;
                bread_score := score_value (bestOf first (first :: rest)) |}).
  assert (Hge : Num.tenths submitted <= Num.tenths (bread_score e0)).
  { simpl. rewrite <- Hval.
    now apply (proj2 (proj2 (bestOf_max first (first :: rest)))). }
  assert (Hin : In e0 (sort byScoreDesc (flat_map push (Mem.scores st')))).
  { apply (proj2 (sort_In _ _ _)). apply in_flat_map. exists (userId, l).
    split; [exact Hl|]. unfold push. rewrite Hus, Huser, Hview. left; reflexivity. }
  pose proof (sort_byScoreDesc_sorted (flat_map push (Mem.scores st'))) as Hsorted.
  destruct (sort byScoreDesc (flat_map push (Mem.scores st'))) as [|x full] eqn:Hfull;
    [contradiction|].
  destruct (firstn_sorted_holds _ 5 (x :: full) e0 Hsorted Hin) as [Hfirst|[Hlen Hall]].
  - left. exists e0. repeat split; auto.
  - right. split; [exact Hlen|]. intros e He.
    eapply Z.le_trans; [exact Hge | exact (Hall e He)].
Qed.

Lemma Mem_submitBreadGameScore_counts_the_user_witness :
  (exists e, In e (fst (Mem.submitBreadGameScore Samples.mem Samples.clock 1 (Num.ofInt 500)))
             /\ bread_player e = username Samples.alice
             /\ Num.tenths (Num.ofInt 500) <= Num.tenths (bread_score e))
  \/ (List.length (fst (Mem.submitBreadGameScore Samples.mem Samples.clock 1
                          (Num.ofInt 500))) = 5%nat
      /\ forall e, In e (fst (Mem.submitBreadGameScore Samples.mem Samples.clock 1
                                (Num.ofInt 500))) ->
           Num.tenths (Num.ofInt 500) <= Num.tenths (bread_score e)).
Proof.
  apply (Mem_submitBreadGameScore_counts_the_user
           Samples.mem Samples.clock 1 Samples.alice (Num.ofInt 500)
           (conj eq_refl (conj (fun k g (H : In (k, g) []) => match H with end)
                               (NoDup_nil _)))
           eq_refl).
Defined.

(** ** Deleting a user *)

Lemma flat_map_filter_skip {A B} (p : A -> bool) (f g : A -> list B) (l : list A) :
  (forall x, In x l -> p x = true -> f x = g x) ->
  (forall x, In x l -> p x = false -> f x = []) ->
  flat_map f l = flat_map g (filter p l).
Proof.
  induction l as [|a l IH]; simpl; intros Hkeep Hskip; [reflexivity|].
  destruct (p a) eqn:E; simpl.
  - rewrite (Hkeep a) by auto. f_equal. apply IH; auto.
  - rewrite (Hskip a) by auto. simpl. apply IH; auto.
Qed.

Lemma JsMap_get_filter_other {V} (k id : Z) (m : JsMap.t V) :
  k <> id ->
  JsMap.get k (filter (fun p => negb (fst p =? id)) m) = JsMap.get k m.
Proof.
  intros Hne; induction m as [|[k' v] m IH]; simpl; [reflexivity|].
  destruct (Z.eqb_spec k' id) as [->|Hk]; simpl.
  - destruct (Z.eqb_spec id k); [congruence | exact IH].
  - now rewrite IH.
Qed.

Lemma JsMap_get_filter_same {V} (id : Z) (m : JsMap.t V) :
  JsMap.get id (filter (fun p => negb (fst p =? id)) m) = None.
Proof.
  induction m as [|[k' v] m IH]; simpl; [reflexivity|].
  destruct (Z.eqb_spec k' id) as [->|Hk]; simpl; [exact IH|].
  destruct (Z.eqb_spec k' id); [contradiction | exact IH].
Qed.

(** X23.  [MemStorage.deleteUser] answers whether the user was there and
    removes the user only: the scores stay in the store.  The user can no longer
    be looked up, the other users are as before, and every leaderboard is what
    it would be had the user's scores been deleted instead. *)
Theorem Mem_deleteUser_hides_scores (st : Mem.Storage) (id : Z) :
  fst (Mem.deleteUser st id) = JsMap.has id (Mem.users st)
  /\ Mem.scores (snd (Mem.deleteUser st id)) = Mem.scores st
  /\ Mem.games (snd (Mem.deleteUser st id)) = Mem.games st
  /\ JsMap.get id (Mem.users (snd (Mem.deleteUser st id))) = None
  /\ (forall other, other <> id ->
        JsMap.get other (Mem.users (snd (Mem.deleteUser st id)))
        = JsMap.get other (Mem.users st))
  /\ forall board,
       Mem.getLeaderboard (snd (Mem.deleteUser st id)) board
       = Mem.getLeaderboard
           {| Mem.users := Mem.users st; Mem.userGames := Mem.userGames st;
              Mem.scores := snd (JsMap.delete id (Mem.scores st));
              Mem.games := Mem.games st |} board.
Proof.
  unfold Mem.deleteUser, JsMap.delete; cbn [fst snd Mem.withUsers Mem.users Mem.scores
                                             Mem.games].
  repeat split.
  - apply JsMap_get_filter_same.
  - intros other Hne; now apply JsMap_get_filter_other.
  - intros board; unfold Mem.getLeaderboard; cbn [Mem.users Mem.scores Mem.games].
    do 2 f_equal.
    apply (flat_map_filter_skip (fun p => negb (fst p =? id))).
    + intros [k l] _ Hk; simpl in Hk.
      destruct (Z.eqb_spec k id); [discriminate|].
      cbn [Mem.withUsers Mem.users Mem.games].
      now rewrite JsMap_get_filter_other.
    + intros [k l] _ Hk; simpl in Hk.
      destruct (Z.eqb_spec k id) as [->|]; [|discriminate].
      cbn [Mem.withUsers Mem.users Mem.games].
      now rewrite JsMap_get_filter_same.
Qed.

(** ** The keys of the database *)

Lemma Db_updateGamesPlayed_ids (st : Db.Storage) (id : Z) (f : Z -> Z) :
  map user_id (Db.users (Db.updateGamesPlayed st id f)) = map user_id (Db.users st).
Proof.
  unfold Db.updateGamesPlayed; cbn [Db.withUsers Db.users].
  rewrite map_map. apply map_ext; intros u. now destruct (user_id u =? id).
Qed.

Lemma keysOk_updateGamesPlayed (st : Db.Storage) (id : Z) (f : Z -> Z) :
  Db.keysOk st -> Db.keysOk (Db.updateGamesPlayed st id f).
Proof.
  unfold Db.keysOk. rewrite Db_updateGamesPlayed_ids. intros H; exact H.
Qed.

Lemma keysOk_countGamePlayed (st : Db.Storage) (userId : Z) :
  Db.keysOk st -> Db.keysOk (snd (Db.countGamePlayed st userId)).
Proof.
  intros Hok. unfold Db.countGamePlayed.
  destruct (Db.getUser st userId) as [user|]; [|exact Hok].
  destruct (gamesPlayed user + 1 >? Db.int4Max); cbn [snd];
    [exact Hok | now apply keysOk_updateGamesPlayed].
Qed.

Lemma keysOk_withUserGames (st : Db.Storage) (ug : JsMap.t UserGames) :
  Db.keysOk st -> Db.keysOk (Db.withUserGames st ug).
Proof. intros H; exact H. Qed.

Lemma keysOk_recordScore (st : Db.Storage) clk userId gameType value :
  Db.keysOk st -> Db.keysOk (snd (Db.recordScore st clk userId gameType value)).
Proof.
  intros Hok. unfold Db.recordScore, Db.getGameIdByType, Db.insertScore.
  destruct (find _ (Db.games st)) as [g|] eqn:Hg; [|exact Hok].
  destruct (existsb (fun u => user_id u =? userId) (Db.users st)) eqn:Hu; cbn [negb];
    [|exact Hok].
  destruct (existsb (fun g0 => game_id g0 =? game_id g) (Db.games st)); cbn [negb];
    [|exact Hok].
  cbn [snd].
  destruct Hok as (Hus & Hgs & Hrefs). repeat split; auto; cbn [Db.scores] in *.
  - apply in_app_or in H as [H|[<-|[]]]; [apply (Hrefs _ H)|]. cbn.
    apply existsb_exists in Hu as (u & Hin & Hid). apply Z.eqb_eq in Hid; subst.
    now apply in_map.
  - apply in_app_or in H as [H|[<-|[]]]; [apply (Hrefs _ H)|]. cbn.
    apply find_some in Hg as [Hin _]. now apply in_map.
Qed.

Lemma NoDup_map_filter {Row Key} (key : Row -> Key) (keep : Row -> bool)
    (rows : list Row) (Hnd : NoDup (map key rows)) :
  NoDup (map key (filter keep rows)).
Proof.
  revert Hnd; induction rows as [|a l IH]; simpl; intros Hnd; [constructor|].
  inversion Hnd as [|? ? Hnot Hnd']; subst.
  destruct (keep a); simpl; [constructor|]; auto.
  intros Hin; apply Hnot. apply in_map_iff in Hin as (x & E & Hx).
  apply filter_In in Hx as [Hx _]. rewrite <- E. now apply in_map.
Qed.

(** X24.  The keys of the schema are kept by every method that writes to the
    database, whether it returns or rejects: after [recordScore],
    [startGuessingGame], [startRedLightGame], [makeGuess], [spinWheel], the two
    submit methods, [initializeGameData] and [deleteUser], user ids and game
    ids are still distinct and every score still refers to a user row and to a
    game row. *)
Theorem Db_keys_are_kept (st : Db.Storage) (clk : Clock) :
  Db.keysOk st ->
  (forall userId type value,
     Db.keysOk (snd (Db.recordScore st clk userId type value)))
  /\ (forall floorDraw userId, Db.keysOk (snd (Db.startGuessingGame st floorDraw userId)))
  /\ (forall userId, Db.keysOk (snd (Db.startRedLightGame st userId)))
  /\ (forall userId guess, Db.keysOk (snd (Db.makeGuess st clk userId guess)))
  /\ (forall random random2 userId,
        Db.keysOk (snd (Db.spinWheel st clk random random2 userId)))
  /\ (forall userId wpm accuracy0,
        Db.keysOk (snd (Db.submitTypeRacerScore st clk userId wpm accuracy0)))
  /\ (forall userId score0,
        Db.keysOk (snd (Db.submitBreadGameScore st clk userId score0)))
  /\ (forall gamesSeq usersSeq,
        Db.keysOk (snd (Db.initializeGameData st clk gamesSeq usersSeq)))
  /\ (forall id, Db.keysOk (snd (Db.deleteUser st id))).
Proof.
  intros Hok.
  split; [intros; now apply keysOk_recordScore|].
  split.
  { intros floorDraw userId. unfold Db.startGuessingGame.
    apply keysOk_countGamePlayed. now apply keysOk_withUserGames. }
  split.
  { intros userId. unfold Db.startRedLightGame. now apply keysOk_countGamePlayed. }
  split.
  { intros userId guess. unfold Db.makeGuess.
    destruct (JsMap.get userId (Db.userGames st)) as [ug|]; [|exact Hok].
    destruct (guessing ug) as [game|]; [|exact Hok].
    destruct (gameOver game); [exact Hok|].
    destruct (includes guess (previousGuesses game)); [exact Hok|].
    destruct (guess =? targetNumber (recordGuess game guess)).
    - pose proof (keysOk_recordScore st clk userId "guessing"
                    (Num.ofInt (attempts (setGameOver (recordGuess game guess)))) Hok)
        as Hrec.
      destruct (Db.recordScore st clk userId "guessing" _) as [[[]|e] st1];
        [destruct (finishGuess _ "correct" true)|];
        cbn [snd] in *; now apply keysOk_withUserGames.
    - destruct (finishGuess _ _ false); cbn [snd]. now apply keysOk_withUserGames. }
  split.
  { intros random random2 userId. unfold Db.spinWheel.
    destruct (prize_value (selectPrize random) >? 0); [|exact Hok].
    pose proof (keysOk_recordScore st clk userId "spinwheel"
                  (Num.ofInt (prize_value (selectPrize random))) Hok) as Hrec.
    destruct (Db.recordScore st clk userId "spinwheel" _) as [[[]|e] st1]; exact Hrec. }
  split.
  { intros userId wpm accuracy0. unfold Db.submitTypeRacerScore.
    pose proof (keysOk_recordScore st clk userId "typeracer" wpm Hok) as Hrec.
    destruct (Db.recordScore st clk userId "typeracer" wpm) as [[[]|e] st1];
      [destruct (Db.getTypeRacerLeaderboard st1)|]; exact Hrec. }
  split.
  { intros userId score0. unfold Db.submitBreadGameScore.
    pose proof (keysOk_recordScore st clk userId "cse17" score0 Hok) as Hrec.
    destruct (Db.recordScore st clk userId "cse17" score0) as [[[]|e] st1];
      [destruct (Db.getBreadGameStats st1 userId)|]; exact Hrec. }
  split.
  { intros gamesSeq usersSeq. unfold Db.initializeGameData.
    set (seeded := match Db.games st with [] => _ | _ :: _ => st end).
    assert (Hseeded : Db.keysOk seeded).
    { subst seeded. destruct (Db.games st) eqn:Hg; [|exact Hok].
      destruct Hok as (Hus & _ & Hrefs). split; [exact Hus|]. split.
      - cbn. repeat constructor; simpl; intros H;
          repeat (destruct H as [H|H]; [lia|]); contradiction.
      - intros s Hs. destruct (Hrefs s Hs) as [_ Hin]. rewrite Hg in Hin.
        contradiction. }
    destruct (find _ (Db.users seeded)); [exact Hseeded|].
    destruct (existsb _ (Db.users seeded)) eqn:Hex; [exact Hseeded|].
    cbn [snd]. destruct Hseeded as (Hus & Hgs & Hrefs).
    split; [|split; [exact Hgs|]]; cbn [Db.withUsers Db.users Db.scores Db.games].
    - rewrite map_app; simpl. apply NoDup_app; repeat split; auto.
      + repeat constructor; simpl; tauto.
      + intros x Hx [<-|[]]. apply in_map_iff in Hx as (u & Hid & Hin).
        assert (Hex' : existsb (fun u0 => user_id u0 =? usersSeq) (Db.users seeded) = true).
        { apply existsb_exists; exists u; split; [exact Hin | now apply Z.eqb_eq]. }
        congruence.
    - intros s Hs. destruct (Hrefs s Hs) as [Hu Hg]. split; [|exact Hg].
      rewrite map_app. apply in_or_app; auto. }
  intros id. unfold Db.deleteUser.
  destruct (existsb _ (Db.scores st)) eqn:Hex; [exact Hok|].
  cbn [snd]. destruct Hok as (Hus & Hgs & Hrefs).
  split; [|split; [exact Hgs|]]; cbn [Db.withUsers Db.users Db.scores Db.games].
  - now apply NoDup_map_filter.
  - intros s Hs. destruct (Hrefs s Hs) as [Hu Hg]. split; [|exact Hg].
    apply in_map_iff in Hu as (u & Hid & Hin).
    apply in_map_iff. exists u; split; [exact Hid|].
    apply filter_In; split; [exact Hin|].
    destruct (Z.eqb_spec (user_id u) id) as [E|_]; [|reflexivity].
    exfalso. assert (existsb (fun s => score_userId s =? id) (Db.scores st) = true).
    { apply existsb_exists; exists s; split; [exact Hs|]. apply Z.eqb_eq. congruence. }
    congruence.
Qed.

Lemma keysOk_sample_db : Db.keysOk Samples.db.
Proof.
  split; [|split].
  - repeat constructor; simpl; intuition discriminate.
  - repeat constructor; simpl; intuition discriminate.
  - intros s [].
Defined.

Lemma Db_keys_are_kept_witness :
  Db.keysOk (snd (Db.recordScore Samples.db Samples.clock 1 "redlight" (Num.Tenths 12))).
Proof.
  exact (proj1 (Db_keys_are_kept Samples.db Samples.clock keysOk_sample_db)
               1 "redlight" (Num.Tenths 12)).
Defined.

Lemma users_with_id (users : list User) (u : User) :
  NoDup (map user_id users) -> In u users ->
  filter (fun u0 => user_id u0 =? user_id u) users = [u].
Proof.
  induction users as [|x users IH]; simpl; intros Hnd Hin; [contradiction|].
  inversion Hnd as [|? ? Hx Hnd']; subst.
  destruct Hin as [->|Hin].
  - rewrite Z.eqb_refl. f_equal.
    clear - Hx. induction users as [|y users IH]; simpl; auto.
    destruct (Z.eqb_spec (user_id y) (user_id u)) as [E|_].
    + exfalso; apply Hx; simpl; auto.
    + apply IH; intros H; apply Hx; simpl; auto.
  - destruct (Z.eqb_spec (user_id x) (user_id u)) as [E|_]; [|auto].
    exfalso; apply Hx; rewrite E; now apply in_map.
Qed.

(** With the keys in place, the join makes one board entry of every score. *)
Lemma Db_all_entries (st : Db.Storage) :
  Db.keysOk st ->
  Forall2
    (fun s e =>
       exists u g,
         In u (Db.users st) /\ user_id u = score_userId s
         /\ In g (Db.games st) /\ game_id g = score_gameId s
         /\ e = leaderboardEntry (username u) g s)
    (Db.scores st)
    (flat_map
       (fun r =>
          match JsMap.get (score_gameId (Db.row_score r)) (Db.gameMap st) with
          | None => []
          | Some g => [leaderboardEntry (Db.row_username r) g (Db.row_score r)]
          end)
       (Db.joinUsers st (fun _ => true))).
Proof.
  intros (Hus & Hgs & Hrefs). unfold Db.joinUsers, Db.gameMap.
  induction (Db.scores st) as [|s rest IH]; simpl; [constructor|].
  destruct (Hrefs s (or_introl eq_refl)) as [Hu Hg].
  apply in_map_iff in Hu as (u & Hid & Hu). apply in_map_iff in Hg as (g & Hgid & Hg).
  rewrite <- Hid, (users_with_id _ u Hus Hu). simpl.
  rewrite <- Hgid, (gameMap_get _ g Hgs Hg). simpl.
  constructor.
  - exists u, g; repeat split; auto.
  - apply IH. intros s' Hs'; apply Hrefs; simpl; auto.
Qed.

Lemma Forall2_In_left {A B} (P : A -> B -> Prop) (l : list A) (l' : list B) (a : A) :
  Forall2 P l l' -> In a l -> exists b, In b l' /\ P a b.
Proof.
  induction 1 as [|x y l l' Hxy _ IH]; simpl; [contradiction|].
  intros [<-|Hin]; [eauto|]. destruct (IH Hin) as (b & Hb & Hab); eauto.
Qed.

(** X25.  When the keys of the schema hold, the board of all games of
    [DatabaseStorage] has one entry for each score on record, no more: it is as
    long as the [scores] table, and every score has its entry, with the name of
    its user, the type of its game and its value as [formatScore] prints it. *)
Theorem Db_board_lists_every_score (st : Db.Storage) :
  Db.keysOk st ->
  List.length (Db.getLeaderboard st "all") = List.length (Db.scores st)
  /\ forall s, In s (Db.scores st) ->
       exists e u g,
         In e (Db.getLeaderboard st "all")
         /\ In u (Db.users st) /\ user_id u = score_userId s
         /\ In g (Db.games st) /\ game_id g = score_gameId s
         /\ player e = username u
         /\ gameType e = game_type g
         /\ score e = formatScore (game_type g) (score_value s).
Proof.
  intros Hok. pose proof (Db_all_entries st Hok) as Hall.
  unfold Db.getLeaderboard; cbn [String.eqb Ascii.eqb Bool.eqb andb].
  split.
  - rewrite assignRanks_length, sort_length. symmetry.
    eapply Forall2_length; exact Hall.
  - intros s Hs.
    destruct (Forall2_In_left _ _ _ s Hall Hs)
      as (e & He & u & g & Hu & Hid & Hg & Hgid & ->).
    apply (proj2 (sort_In compareEntries _ _)) in He.
    destruct (assignRanks_In withRank 1 _ _ He) as (n & Hn).
    exists (withRank (leaderboardEntry (username u) g s) n), u, g.
    repeat split; auto.
Qed.

Lemma keysOk_sample_times : Db.keysOk Samples.dbTimes.
Proof. apply keysOk_recordScore, keysOk_recordScore, keysOk_sample_db. Defined.

(** X25 at a sample: the database with alice's and bob's red-light times has
    two score rows and a board of two entries, one for each row. *)
Lemma Db_board_lists_every_score_witness :
  List.length (Db.scores Samples.dbTimes) = 2%nat
  /\ List.length (Db.getLeaderboard Samples.dbTimes "all")
     = List.length (Db.scores Samples.dbTimes)
  /\ forall s, In s (Db.scores Samples.dbTimes) ->
       exists e u g,
         In e (Db.getLeaderboard Samples.dbTimes "all")
         /\ In u (Db.users Samples.dbTimes) /\ user_id u = score_userId s
         /\ In g (Db.games Samples.dbTimes) /\ game_id g = score_gameId s
         /\ player e = username u
         /\ gameType e = game_type g
         /\ score e = formatScore (game_type g) (score_value s).
Proof.
  split; [reflexivity|].
  exact (Db_board_lists_every_score Samples.dbTimes keysOk_sample_times).
Defined.

(** ** The two submit methods of the database *)




(** ** The shape of a [MemStorage] *)

Lemma wellFormed_same (st st' : Mem.Storage) :
  Mem.scores st' = Mem.scores st -> Mem.games st' = Mem.games st ->
  Mem.wellFormed st -> Mem.wellFormed st'.
Proof.
  unfold Mem.wellFormed, Mem.storeOk, Mem.catalogOk. intros -> ->. exact (fun H => H).
Qed.

Lemma wellFormed_countGamePlayed (st : Mem.Storage) (userId : Z) :
  Mem.wellFormed st -> Mem.wellFormed (Mem.countGamePlayed st userId).
Proof.
  apply wellFormed_same; unfold Mem.countGamePlayed;
    destruct (JsMap.get userId (Mem.users st)); reflexivity.
Qed.

Lemma wellFormed_recordScore (st : Mem.Storage) clk userId type value :
  Mem.wellFormed st -> Mem.wellFormed (Mem.recordScore st clk userId type value).
Proof.
  intros [Hok Hnd]. split.
  - now apply Mem_recordScore_views.
  - destruct (Mem_recordScore_scores st clk userId type value) as (s & ->).
    now apply JsMap_set_NoDup.
Qed.

(** X27.  The shape of a [MemStorage] (catalog under keys 1..n with one entry
    per type, every score pointing to a catalog entry, one score array per
    user) holds of the store the constructor builds, whatever its users, and is
    kept by every method that writes: [recordScore], the start methods,
    [makeGuess], [spinWheel], the three submit methods and [deleteUser]. *)
Theorem Mem_store_stays_well_formed (st : Mem.Storage) (clk : Clock) :
  Mem.wellFormed st ->
  (forall userId type value, Mem.wellFormed (Mem.recordScore st clk userId type value))
  /\ (forall floorDraw userId, Mem.wellFormed (Mem.startGuessingGame st floorDraw userId))
  /\ (forall userId, Mem.wellFormed (Mem.startRedLightGame st userId))
  /\ (forall userId guess, Mem.wellFormed (snd (Mem.makeGuess st clk userId guess)))
  /\ (forall random random2 userId,
        Mem.wellFormed (snd (Mem.spinWheel st clk random random2 userId)))
  /\ (forall userId time, Mem.wellFormed (snd (Mem.submitRedLightScore st clk userId time)))
  /\ (forall userId wpm accuracy0,
        Mem.wellFormed (snd (Mem.submitTypeRacerScore st clk userId wpm accuracy0)))
  /\ (forall userId score0,
        Mem.wellFormed (snd (Mem.submitBreadGameScore st clk userId score0)))
  /\ (forall id, Mem.wellFormed (snd (Mem.deleteUser st id)))
  /\ (forall us ug,
        Mem.wellFormed {| Mem.users := us; Mem.userGames := ug;
                          Mem.scores := []; Mem.games := [] |}).
Proof.
  intros Hok.
  split; [intros; now apply wellFormed_recordScore|].
  split; [intros; unfold Mem.startGuessingGame; apply wellFormed_countGamePlayed;
          revert Hok; now apply wellFormed_same|].
  split; [intros; now apply wellFormed_countGamePlayed|].
  split.
  { intros userId guess. unfold Mem.makeGuess.
    destruct (JsMap.get userId (Mem.userGames st)) as [ug|]; [|exact Hok].
    destruct (guessing ug) as [game|]; [|exact Hok].
    destruct (gameOver game); [exact Hok|].
    destruct (includes guess (previousGuesses game)); [exact Hok|].
    cbn zeta.
    destruct (guess =? targetNumber (recordGuess game guess));
      [|destruct (guess <? targetNumber (recordGuess game guess))];
      destruct (finishGuess _ _ _); cbn [snd];
      (eapply wellFormed_same; [reflexivity | reflexivity |]);
      [now apply wellFormed_recordScore | exact Hok | exact Hok]. }
  split.
  { intros random random2 userId. unfold Mem.spinWheel; cbn [snd].
    apply wellFormed_countGamePlayed.
    destruct (prize_value (selectPrize random) >? 0);
      [now apply wellFormed_recordScore | exact Hok]. }
  split; [intros; now apply wellFormed_recordScore|].
  split; [intros; now apply wellFormed_recordScore|].
  split; [intros; now apply wellFormed_recordScore|].
  split.
  { intros id. unfold Mem.deleteUser, JsMap.delete; cbn [snd].
    revert Hok; now apply wellFormed_same. }
  intros us ug. split; [apply storeOk_new_store | constructor].
Qed.

Lemma Mem_store_stays_well_formed_witness :
  Mem.wellFormed (snd (Mem.spinWheel Samples.mem Samples.clock 0.1 0.5 1)).
Proof.
  refine (proj1 (proj2 (proj2 (proj2 (proj2
            (Mem_store_stays_well_formed Samples.mem Samples.clock
               (conj (storeOk_new_store _ _) (NoDup_nil _)))))))
          0.1%float 0.5%float 1).
Defined.

(** ** The two score routes *)


